(** * md2pptx: layout arithmetic and the line compiler of [main.py]

    A shallow embedding of the parts of [src/md2pptx/main.py] that decide
    the layout and compilation properties stated for the converter:
    [scalePicture], the content-area split of [createContentSlide], the
    card apportionment of [createListBlock], the table branch and the
    graphics-grid branch of [createTableBlock], the wrap grid of
    [createTOCSlide], the pagination of [createFootnoteSlides], the
    media expressions of [parseMedia], the delimiters of
    [createCodeBlock], [getContentRect], and the line-joining pass and
    the main pass of [cli].

    Numbers.  Python's [/] is true division.  Where the source wraps the
    quotient in [int(...)] the model uses [Z.quot] (truncation towards
    zero); where the quotient is kept, the model uses exact rationals
    ([Q]), the values the floating-point results approximate. *)

From Stdlib Require Import ZArith QArith Qround Lia List Bool String Ascii.
From stdpp Require Import base option list strings pretty.
Import ListNotations.

(** ** Picture scaling *)

Module Scale.

Local Open Scope Q_scope.

(** [a > b] on rationals, as a boolean. *)
Definition Qgtb (a b : Q) : bool := negb (Qle_bool a b).

(** [scalePicture(maxPicWidth, maxPicHeight, imageWidth, imageHeight)].
    Both quotients are computed before the test, so a zero image
    dimension raises [ZeroDivisionError]: [None]. *)
Definition scalePicture (maxPicWidth maxPicHeight imageWidth imageHeight : Q)
  : option (Q * Q * bool) :=
  if Qeq_bool imageWidth 0 || Qeq_bool imageHeight 0 then None
  else
    let heightIfWidthUsed := maxPicWidth * imageHeight / imageWidth in
    let widthIfHeightUsed := maxPicHeight * imageWidth / imageHeight in
    if Qgtb heightIfWidthUsed maxPicHeight
    then Some (widthIfHeightUsed, maxPicHeight, true)
    else Some (maxPicWidth, heightIfWidthUsed, false).

(** Exactly one of two propositions. *)
Definition exactly_one (A B : Prop) : Prop := (A /\ ~ B) \/ (~ A /\ B).

(** The result touches exactly one side of the box. *)
Definition touches_exactly_one (maxW maxH : Q) (r : option (Q * Q * bool)) : Prop :=
  match r with
  | Some (picW, picH, _) => exactly_one (picW == maxW) (picH == maxH)
  | None => False
  end.

End Scale.

(** ** Rectangles and the content-area split of [createContentSlide] *)

Module Split.

Local Open Scope Z_scope.

(** [Rectangle(top, left, height, width)] of [md2pptx.rectangle]. *)
Record Rectangle : Type := mkRectangle {
  top : Z;
  left : Z;
  height : Z;
  width : Z
}.

(** The entries of [slideInfo.sequence]. *)
Inductive BlockKind : Type := KList | KTable | KCode.

(** The kind the rendering loop takes a [sequence] entry for: "table",
    "list", and anything else as code. *)
Definition kindOfTag (tag : string) : BlockKind :=
  if String.eqb tag "table" then KTable
  else if String.eqb tag "list" then KList else KCode.

(** What the rendering loop calls for a block. *)
Inductive BlockCall : Type :=
| CreateTableBlock (renderingRectangle : Rectangle) (tableBlockNumber : nat)
| CreateListBlock (renderingRectangle : Rectangle)
| CreateCodeBlock (renderingRectangle : Rectangle) (codeBlockNumber : nat).

Definition maxBlocks : nat := 10.

(** [min(maxBlocks, len(slideInfo.sequence))] *)
Definition blocksToRender (sequence : list BlockKind) : nat :=
  Nat.min maxBlocks (length sequence).

(** The first loop: [allContentSplit] is the sum of the first
    [blocksToRender] weights; a weight vector that is too short raises
    [IndexError]. *)
Definition allContentSplit (contentSplit : list Z) (n : nat) : option Z :=
  if (n <=? length contentSplit)%nat
  then Some (fold_left Z.add (take n contentSplit) 0)
  else None.

(** [int(total * weight / allContentSplit)] *)
Definition share (total weight all : Z) : Z := Z.quot (total * weight) all.

(** The second loop, over the weights of the blocks to render, with its
    two cursors. *)
Fixpoint placeBlocks (direction : string) (content : Rectangle) (all : Z)
    (weights : list Z) (verticalCursor horizontalCursor : Z) : list Rectangle :=
  match weights with
  | [] => []
  | w :: rest =>
      if String.eqb direction "vertical" then
        let blockHeight := share (height content) w all in
        mkRectangle verticalCursor (left content) blockHeight (width content)
        :: placeBlocks direction content all rest
             (verticalCursor + blockHeight) horizontalCursor
      else
        let blockWidth := share (width content) w all in
        mkRectangle (top content) horizontalCursor (height content) blockWidth
        :: placeBlocks direction content all rest
             verticalCursor (horizontalCursor + blockWidth)
  end.

(** The rendering rectangles of a slide; [None] when the source raises
    ([IndexError] on a short weight vector, [ZeroDivisionError] on a zero
    sum of weights with at least one block to render). *)
Definition renderingRectangles (direction : string) (content : Rectangle)
    (contentSplit : list Z) (sequence : list BlockKind) : option (list Rectangle) :=
  let n := blocksToRender sequence in
  match allContentSplit contentSplit n with
  | None => None
  | Some all =>
      if (all =? 0) && negb (n =? 0)%nat then None
      else Some (placeBlocks direction content all (take n contentSplit)
                   (top content) (left content))
  end.

(** The dispatch on [slideInfo.sequence\[b\]], with the table and code
    block counters. *)
Fixpoint dispatch (kinds : list BlockKind) (rects : list Rectangle)
    (tableBlockNumber codeBlockNumber : nat) : list BlockCall :=
  match kinds, rects with
  | k :: kinds', r :: rects' =>
      match k with
      | KTable => CreateTableBlock r tableBlockNumber
                  :: dispatch kinds' rects' (S tableBlockNumber) codeBlockNumber
      | KList => CreateListBlock r
                 :: dispatch kinds' rects' tableBlockNumber codeBlockNumber
      | KCode => CreateCodeBlock r codeBlockNumber
                 :: dispatch kinds' rects' tableBlockNumber (S codeBlockNumber)
      end
  | _, _ => []
  end.

Definition renderBlocks (direction : string) (content : Rectangle)
    (contentSplit : list Z) (sequence : list BlockKind) : option (list BlockCall) :=
  match renderingRectangles direction content contentSplit sequence with
  | None => None
  | Some rects => Some (dispatch (take (blocksToRender sequence) sequence) rects 0 0)
  end.

(** The rectangle and the kind a call was made for. *)
Definition callRectangle (b : BlockCall) : Rectangle :=
  match b with
  | CreateTableBlock r _ | CreateListBlock r | CreateCodeBlock r _ => r
  end.

Definition callKind (b : BlockCall) : BlockKind :=
  match b with
  | CreateTableBlock _ _ => KTable
  | CreateListBlock _ => KList
  | CreateCodeBlock _ _ => KCode
  end.

(** Sum of the extents handed out before block [i]. *)
Definition offsetBefore (total all : Z) (contentSplit : list Z) (i : nat) : Z :=
  fold_left Z.add (map (fun w => share total w all) (take i contentSplit)) 0.

(** The rectangle the split gives block [i] of weight [w]. *)
Definition blockRectangle (direction : string) (content : Rectangle) (all : Z)
    (contentSplit : list Z) (i : nat) (w : Z) : Rectangle :=
  if String.eqb direction "vertical" then
    mkRectangle (top content + offsetBefore (height content) all contentSplit i)
                (left content) (share (height content) w all) (width content)
  else
    mkRectangle (top content)
                (left content + offsetBefore (width content) all contentSplit i)
                (height content) (share (width content) w all).

End Split.

(** ** The height apportionment of [createListBlock] *)

Module ListBlock.

Local Open Scope Z_scope.

(** Python's [int(x)] on a rational: truncation towards zero. *)
Definition Qtrunc (q : Q) : Z :=
  if Qle_bool 0 q then Qfloor q else Qceiling q.

(** The head of [createListBlock]: the height of the bullets shape, the
    height of the card area and the card count.  [cardPercent] is a
    float option; [renderingRectangle.height] is an integer.  The
    quotient is exact here; the source truncates the floating-point
    value of the expression, which can be one unit off. *)
Definition listBlockHeights {B C : Type} (bullets : list B) (cards : list C)
    (rectHeight : Z) (cardPercent : Q) : Z * Z * nat :=
  let bulletCount := length bullets in
  match cards with
  | [] => (rectHeight, 0, 0%nat)
  | _ :: _ =>
      if (0 <? bulletCount)%nat then
        let bulletsHeight :=
          Qtrunc (inject_Z rectHeight * (100 - cardPercent) / 100)%Q in
        (bulletsHeight, rectHeight - bulletsHeight, length cards)
      else (0, rectHeight, length cards)
  end.

End ListBlock.

(** ** The compiled data model *)

Module Model.

(** A bullet is the Python list [[level, text, type]]. *)
Record Bullet : Type := mkBullet {
  bulletLevel : Z;
  bulletText : string;
  bulletType : string
}.

(** The fields of [md2pptx.card.Card] that the main pass fills in. *)
Record Card : Type := mkCard {
  title : string;
  bullets : list Bullet;
  graphic : string
}.

(** [class SlideInfo].  [tableRows] is a list of tables, a table a list
    of rows, a row a list of cell strings; [code] is a list of code
    blocks, a block a list of lines. *)
Record SlideInfo : Type := mkSlideInfo {
  titleText : string;
  subtitleText : string;
  blockType : string;
  slideBullets : list Bullet;
  tableRows : list (list (list string));
  cards : list Card;
  code : list (list string);
  sequence : list string
}.

End Model.

(** ** Pagination in [createFootnoteSlides] *)

Module Footnotes.
Import Model.

Local Open Scope Z_scope.

(** The loop state: the bullets of the page being filled, the
    [SlideInfo] values handed to [createSlide] so far, and
    [footnotesSlideNumber]. *)
Record State : Type := mkState {
  pageBullets : list Bullet;
  footnoteSlides : list SlideInfo;
  footnotesSlideNumber : nat
}.

(** The title of a footnotes page. *)
Definition pageTitle (footnotesTitle : string) (footnoteCount : nat)
    (footnotesPerPage : Z) (footnotesSlideNumber : nat) : string :=
  if footnotesPerPage <? Z.of_nat footnoteCount
  then (footnotesTitle +:+ " - " +:+ pretty footnotesSlideNumber)%string
  else footnotesTitle.

(** "Print a footnotes slide": the [SlideInfo] built from the current
    bullets is appended to the slides. *)
Definition emitPage (footnotesTitle : string) (cards : list Card)
    (footnoteCount : nat) (footnotesPerPage : Z) (st : State) : State :=
  let n := S (footnotesSlideNumber st) in
  let slideInfo :=
    mkSlideInfo (pageTitle footnotesTitle footnoteCount footnotesPerPage n)
      "" "content" (pageBullets st) [] cards [] ["list"%string] in
  mkState (pageBullets st) (footnoteSlides st ++ [slideInfo]) n.

(** One iteration of [for footnoteNumber, footnote in enumerate(...)]. *)
Definition step (footnotesTitle : string) (cards : list Card)
    (footnoteCount : nat) (footnotesPerPage : Z)
    (st : State) (footnoteNumber : nat) (footnote : string * string) : State :=
  let st1 :=
    if Z.of_nat footnoteNumber mod footnotesPerPage =? 0 then
      let st0 :=
        if (0 <? footnoteNumber)%nat
        then emitPage footnotesTitle cards footnoteCount footnotesPerPage st
        else st in
      mkState [] (footnoteSlides st0) (footnotesSlideNumber st0)
    else st in
  mkState
    (pageBullets st1 ++
       [mkBullet 1 (pretty (S footnoteNumber) +:+ ". " +:+ snd footnote)%string "bullet"])
    (footnoteSlides st1) (footnotesSlideNumber st1).

Fixpoint loop (footnotesTitle : string) (cards : list Card)
    (footnoteCount : nat) (footnotesPerPage : Z)
    (footnotes : list (string * string)) (footnoteNumber : nat) (st : State) : State :=
  match footnotes with
  | [] => st
  | f :: rest =>
      loop footnotesTitle cards footnoteCount footnotesPerPage rest (S footnoteNumber)
        (step footnotesTitle cards footnoteCount footnotesPerPage st footnoteNumber f)
  end.

(** [createFootnoteSlides]: the slides created, in order.  [None] when
    the source raises: [% 0] on the first footnote, or no footnote at all
    ([bullets] is then unbound at the final slide). *)
Definition createFootnoteSlides (footnotesTitle : string) (cards : list Card)
    (footnotesPerPage : Z) (footnoteDefinitions : list (string * string))
  : option (list SlideInfo) :=
  match footnoteDefinitions with
  | [] => None
  | _ :: _ =>
      if footnotesPerPage =? 0 then None
      else
        let footnoteCount := length footnoteDefinitions in
        let st := loop footnotesTitle cards footnoteCount footnotesPerPage
                    footnoteDefinitions 0 (mkState [] [] 0) in
        Some (footnoteSlides
                (emitPage footnotesTitle cards footnoteCount footnotesPerPage st))
  end.

(** [ceil(n / p)] on naturals. *)
Definition ceilDiv (n p : nat) : nat := ((n + p - 1) / p)%nat.

(** The loop invariant after [k >= 1] footnotes at page size [p]: [q]
    full pages have been created, the page being filled holds [r] items,
    and [k = q * p + r] with [1 <= r <= p]. *)
Definition paged (p k : nat) (st : State) : Prop :=
  exists q r : nat,
    k = (q * p + r)%nat /\ (1 <= r <= p)%nat /\
    length (footnoteSlides st) = q /\
    Forall (fun s => length (slideBullets s) = p) (footnoteSlides st) /\
    length (pageBullets st) = r.

End Footnotes.

(** ** The wrap grid of [createTOCSlide] (chevron and circle styles) *)

Module Toc.

Local Open Scope Q_scope.

(** The values the grid is computed from: the slide width and margin, the
    item size and gaps fixed by the style, and the vertical extent of the
    content rectangle. *)
Record Params : Type := mkParams {
  slide_width : Q;
  marginBase : Q;
  width : Q;
  height : Q;
  entryGap : Q;
  rowGap : Q;
  slideTitleBottom : Q;
  contentHeight : Q
}.

(** [int(x)] *)
Definition Qtrunc (q : Q) : Z := ListBlock.Qtrunc q.

(** [int((presentation.slide_width - 2 * marginBase) / (width + entryGap))];
    [None] for the division by zero. *)
Definition TOCEntriesPerRow (g : Params) : option Z :=
  if Qeq_bool (width g + entryGap g) 0 then None
  else Some (Qtrunc ((slide_width g - 2 * marginBase g) / (width g + entryGap g))).

(** [rowCount = 1 + TOCEntryCount / TOCEntriesPerRow], a true division. *)
Definition rowCount (TOCEntryCount : nat) (perRow : Z) : option Q :=
  if (perRow =? 0)%Z then None
  else Some (1 + inject_Z (Z.of_nat TOCEntryCount) / inject_Z perRow).

Definition TOCHeight (g : Params) (rows : Q) : Q :=
  rows * height g + (rows - 1) * rowGap g.

Definition TOCtop (g : Params) (rows : Q) : Q :=
  slideTitleBottom g + (contentHeight g - TOCHeight g rows + height g) / 2.

Definition TOCWidth (g : Params) (perRow : Z) : Q :=
  inject_Z perRow * (width g + entryGap g).

Definition TOCleft (g : Params) (perRow : Z) : Q :=
  (slide_width g - TOCWidth g perRow + entryGap g) / 2.

(** The placement loop: every entry is drawn at the current [(x, y)],
    then the position moves on and wraps once [TOCEntryNumber] reaches
    [TOCEntriesPerRow + 1]. *)
Fixpoint place {E : Type} (g : Params) (perRow : Z) (left : Q)
    (entries : list E) (x y : Q) (TOCEntryNumber : Z) : list (Q * Q) :=
  match entries with
  | [] => []
  | _ :: rest =>
      let x' := x + width g + entryGap g in
      let n' := (TOCEntryNumber + 1)%Z in
      if (n' =? perRow + 1)%Z
      then (x, y) :: place g perRow left rest left (y + rowGap g + height g) 1%Z
      else (x, y) :: place g perRow left rest x' y n'
  end.

(** The outcome of the grid computation. *)
Record Grid : Type := mkGrid {
  entriesPerRow : Z;
  rows : Q;
  top : Q;
  left : Q;
  positions : list (Q * Q)
}.

Definition grid {E : Type} (g : Params) (TOCEntries : list E) : option Grid :=
  match TOCEntriesPerRow g with
  | None => None
  | Some perRow =>
      match rowCount (length TOCEntries) perRow with
      | None => None
      | Some rc =>
          let t := TOCtop g rc in
          let l := TOCleft g perRow in
          Some (mkGrid perRow rc t l (place g perRow l TOCEntries l t 1%Z))
      end
  end.

(** The position of entry [i] (from 0) in a grid of [perRow] columns. *)
Definition cell (g : Params) (perRow : nat) (left top : Q) (i : nat) : Q * Q :=
  (left + inject_Z (Z.of_nat (i mod perRow)) * (width g + entryGap g),
   top + inject_Z (Z.of_nat (i / perRow)) * (rowGap g + height g)).

(** Equality of positions up to the equality of rationals. *)
Definition sameCell (a b : Q * Q) : Prop := fst a == fst b /\ snd a == snd b.

(** Normal forms, to compare computed positions. *)
Definition normal (a : Q * Q) : Q * Q := (Qred (fst a), Qred (snd a)).

End Toc.

(** ** Strings and the regular expressions of [cli] *)

Module Text.

Local Open Scope string_scope.

(** [s.startswith(p)] *)
Definition startswith (p s : string) : bool := String.prefix p s.

(** [startswithOneOf(haystack, needleList)] *)
Definition startswithOneOf (haystack : string) (needleList : list string) : bool :=
  existsb (fun needle => startswith needle haystack) needleList.

(** [s.endswith(p)]: some suffix of [s] is [p]. *)
Fixpoint endswith (p s : string) : bool :=
  String.eqb s p ||
  match s with
  | EmptyString => false
  | String _ s' => endswith p s'
  end.

(** [s.count(c)] for a single character. *)
Fixpoint count (c : ascii) (s : string) : nat :=
  match s with
  | EmptyString => 0
  | String a s' => (if Ascii.eqb a c then 1 else 0) + count c s'
  end.

(** [s\[n:\]] *)
Fixpoint drop (n : nat) (s : string) : string :=
  match n, s with
  | 0, _ => s
  | S n', String _ s' => drop n' s'
  | S _, EmptyString => EmptyString
  end.

(** [s\[:n\]] *)
Fixpoint take (n : nat) (s : string) : string :=
  match n, s with
  | 0, _ => EmptyString
  | S n', String a s' => String a (take n' s')
  | S _, EmptyString => EmptyString
  end.

(** ["#" * n] and the like. *)
Fixpoint replicate (n : nat) (c : ascii) : string :=
  match n with
  | 0 => EmptyString
  | S n' => String c (replicate n' c)
  end.

(** [s.ljust(n)]: [s] filled up with spaces to [n] characters. *)
Definition ljust (n : nat) (s : string) : string :=
  s ++ replicate (n - String.length s) " ".

(** The characters [\s] matches in a line and [str.strip] removes, as
    far as they are ASCII (Python also takes the white space beyond
    ASCII, such as U+00A0). *)
Definition isSpace (c : ascii) : bool :=
  let n := nat_of_ascii c in
  ((n =? 32) || ((9 <=? n) && (n <=? 13)) || ((28 <=? n) && (n <=? 31)))%nat.

Definition isDigit (c : ascii) : bool :=
  let n := nat_of_ascii c in ((48 <=? n) && (n <=? 57))%nat.

(** [s.lstrip()] *)
Fixpoint lstrip (s : string) : string :=
  match s with
  | String a s' => if isSpace a then lstrip s' else s
  | EmptyString => EmptyString
  end.

(** [s.rstrip()] *)
Fixpoint rstrip (s : string) : string :=
  match s with
  | EmptyString => EmptyString
  | String a s' =>
      match rstrip s' with
      | EmptyString => if isSpace a then EmptyString else String a EmptyString
      | r => String a r
      end
  end.

(** The number of leading characters satisfying [f]. *)
Fixpoint span (f : ascii -> bool) (s : string) : nat :=
  match s with
  | String a s' => if f a then S (span f s') else 0
  | EmptyString => 0
  end.

(** [s.split(c)] for a single separator character. *)
Fixpoint split (c : ascii) (s : string) : list string :=
  match s with
  | EmptyString => [EmptyString]
  | String a s' =>
      if Ascii.eqb a c then EmptyString :: split c s'
      else match split c s' with
           | w :: ws => String a w :: ws
           | [] => [String a EmptyString]
           end
  end.

(** A pattern of the shape the media expressions have: literal text,
    and lazy groups [(.*?)] and [(.+?)], which capture. *)
Inductive Item : Type :=
| Lit (text : string)
| Lazy (atLeast : nat).

Definition newline : ascii := ascii_of_nat 10.

(** The lazy group: the shortest run of characters other than a newline
    after which the rest of the pattern matches. *)
Fixpoint lazyGroup (rest : string -> option (list string)) (taken s : string)
  : option (list string) :=
  match rest s with
  | Some groups => Some (taken :: groups)
  | None =>
      match s with
      | String a s' =>
          if Ascii.eqb a newline then None
          else lazyGroup rest (taken ++ String a EmptyString) s'
      | EmptyString => None
      end
  end.

(** [n] characters other than a newline. *)
Fixpoint plainPrefix (n : nat) (s : string) : bool :=
  match n, s with
  | 0, _ => true
  | S n', String a s' => negb (Ascii.eqb a newline) && plainPrefix n' s'
  | S _, EmptyString => false
  end.

(** [regex.match(s)]: the pattern matched at the start of [s]; the
    result is the list of captured groups. *)
Fixpoint rematch (pattern : list Item) (s : string) : option (list string) :=
  match pattern with
  | [] => Some []
  | Lit text :: pattern' =>
      if startswith text s then rematch pattern' (drop (String.length text) s)
      else None
  | Lazy n :: pattern' =>
      if plainPrefix n s
      then lazyGroup (rematch pattern') (take n s) (drop n s)
      else None
  end.

(** [graphicRE], [clickableGraphicRE], [videoRE], [audioRE] *)
Definition graphicRE : list Item := [Lit "!["; Lazy 0; Lit "]("; Lazy 1; Lit ")"].

Definition clickableGraphicRE : list Item :=
  [Lit "["] ++ graphicRE ++ [Lit "]("; Lazy 1; Lit ")"].

Definition videoRE : list Item := [Lit "<video "; Lazy 0; Lit "></video>"].

Definition audioRE : list Item := [Lit "<audio "; Lazy 0; Lit "></audio>"].

End Text.

(** ** [parseMedia] and [createTableBlock] *)

Module Table.
Import Text.

Local Open Scope string_scope.

(** [class AudioVideoInfo]: what the element string of a [<video>] or
    [<audio>] tag yields. *)
Record AudioVideoInfo : Type := mkAudioVideoInfo {
  source : string;
  avWidth : Z;
  avHeight : Z;
  poster : option string
}.

(** What the block reads from outside the program: the file a graphic
    reference resolves to and its printable name, where
    [handleWhateverGraphicType] returns; the names on which it does not
    return ([graphicTypeFails]: it raises [FileNotFoundError] when it
    opens a missing [.svg] or [.eps] file to convert it, and it calls
    [sys.exit()] when the conversion is not possible or the temporary
    file cannot be created); the parsing of a media element
    ([AudioVideoInfo(...)], done by lxml); what [getGraphicDimensions]
    finds in an image file ([(-1, -1)] when the file cannot be opened,
    is too short, has a bad signature or an unknown extension; nothing,
    here [None], when the scan of a JPEG file fails and the function
    returns without a value); and whether a media source can be
    opened. *)
Record World : Type := mkWorld {
  handleWhateverGraphicType : string -> string * string;
  graphicTypeFails : string -> bool;
  audioVideoInfo : string -> AudioVideoInfo;
  getGraphicDimensions : string -> option (Z * Z);
  canOpen : string -> bool
}.

(** [haystack.find(needle) > -1] *)
Fixpoint contains (needle haystack : string) : bool :=
  startswith needle haystack ||
  match haystack with
  | EmptyString => false
  | String _ rest => contains needle rest
  end.

(** [getVideoInfo]: width, height and the kind of source. *)
Definition getVideoInfo (w : World) (info : AudioVideoInfo) : Z * Z * string :=
  let kind := if contains "://" (source info) then "Web" else "Local" in
  if canOpen w (source info) then (avWidth info, avHeight info, kind)
  else ((-1)%Z, (-1)%Z, kind).

(** The result of [parseMedia], without the running count. *)
Record Media : Type := mkMedia {
  graphicTitle : string;
  GraphicFilename : string;
  printableGraphicFilename : string;
  graphicHref : string;
  HTML : string;
  video : option AudioVideoInfo
}.

Definition nth_group (n : nat) (groups : list string) : string :=
  nth n groups "".

(** [parseMedia(cellString, graphicCount)], where its call of
    [handleWhateverGraphicType] returns; [parseMediaRaises] below tells
    when it does not. *)
Definition parseMedia (w : World) (cellString : string) (graphicCount : nat)
  : Media * nat :=
  match rematch videoRE cellString with
  | Some _ =>
      let info := audioVideoInfo w cellString in
      (mkMedia "" "" (snd (handleWhateverGraphicType w (source info))) "" ""
         (Some info), S graphicCount)
  | None =>
  match rematch audioRE cellString with
  | Some _ =>
      let info := audioVideoInfo w cellString in
      (mkMedia "" "" (snd (handleWhateverGraphicType w (source info))) "" ""
         (Some info), S graphicCount)
  | None =>
  match rematch clickableGraphicRE cellString with
  | Some groups =>
      let file := handleWhateverGraphicType w (nth_group 1 groups) in
      (mkMedia (nth_group 0 groups) (fst file) (snd file) (nth_group 2 groups) ""
         None, S graphicCount)
  | None =>
  match rematch graphicRE cellString with
  | Some groups =>
      let file := handleWhateverGraphicType w (nth_group 1 groups) in
      (mkMedia (nth_group 0 groups) (fst file) (snd file) "" "" None,
       S graphicCount)
  | None => (mkMedia "" "" "" "" cellString None, graphicCount)
  end end end end.

(** [parseMedia(cellString, graphicCount)] does not return: the cell
    is a media reference and [handleWhateverGraphicType] raises or
    exits on its file. *)
Definition parseMediaRaises (w : World) (cellString : string) : bool :=
  match rematch videoRE cellString with
  | Some _ => graphicTypeFails w (source (audioVideoInfo w cellString))
  | None =>
  match rematch audioRE cellString with
  | Some _ => graphicTypeFails w (source (audioVideoInfo w cellString))
  | None =>
  match rematch clickableGraphicRE cellString with
  | Some groups => graphicTypeFails w (nth_group 1 groups)
  | None =>
  match rematch graphicRE cellString with
  | Some groups => graphicTypeFails w (nth_group 1 groups)
  | None => false
  end end end end.

(** A cell is a media reference when one of the four expressions
    matches it. *)
Definition isMediaReference (cellString : string) : bool :=
  match rematch videoRE cellString, rematch audioRE cellString,
        rematch clickableGraphicRE cellString, rematch graphicRE cellString with
  | None, None, None, None => false
  | _, _, _, _ => true
  end.

(** The first part of [createTableBlock]: is the table a graphics grid,
    and what its up to four cells hold. *)
Record GridParse : Type := mkGridParse {
  isGraphicsGrid : bool;
  gridRows : nat;
  gridColumns : nat;
  topLeft : Media;
  topRight : Media;
  bottomLeft : Media;
  bottomRight : Media
}.

Definition noMedia : Media := mkMedia "" "" "" "" "" None.

(** The cell strings the first part of [createTableBlock] hands to
    [parseMedia], in the order of the calls: the first cell of the top
    row, its second cell (the empty string when the row has a single
    cell), and with two rows the first cell of the bottom row and its
    second cell (the empty string when the row has a single cell or the
    grid is not two cells wide).  None for a table of more than two
    rows or with more than two cells in its first row. *)
Definition examinedCells (tableRows : list (list string)) : list string :=
  match tableRows with
  | [] => []
  | row0 :: _ =>
      if (length tableRows <=? 2)%nat && (length row0 <=? 2)%nat then
        [nth 0 row0 ""; if (length row0 =? 2)%nat then nth 1 row0 "" else ""] ++
        (if (length tableRows =? 2)%nat then
           let row1 := nth 1 tableRows [] in
           let gridColumns := Nat.max (length row0) (length row1) in
           [nth 0 row1 "";
            if (gridColumns =? 2)%nat then
              if (length row1 =? 1)%nat then "" else nth 1 row1 ""
            else ""]
         else [])
      else []
  end.

(** The parse of the table, where every call of [parseMedia] returns.
    [None] stands for the [IndexError] of an empty table or an empty
    row. *)
Definition parseGrid (w : World) (tableRows : list (list string)) : option GridParse :=
  match tableRows with
  | [] => None
  | row0 :: _ =>
      if (length tableRows <=? 2)%nat && (length row0 <=? 2)%nat then
        let gridRows := length tableRows in
        match (if (gridRows =? 1)%nat then Some (length row0)
               else option_map (fun row1 => Nat.max (length row0) (length row1))
                      (tableRows !! 1%nat)) with
        | None => None
        | Some gridColumns =>
        match row0 !! 0%nat with
        | None => None
        | Some topLeftCellString =>
            let '(tl, c1) := parseMedia w topLeftCellString 0 in
            let topRightCellString :=
              if (length row0 =? 2)%nat then nth 1 row0 "" else "" in
            let '(tr, topGraphicCount) := parseMedia w topRightCellString c1 in
            let top_ok := negb (topGraphicCount =? 0)%nat in
            if (gridRows =? 2)%nat then
              match tableRows !! 1%nat with
              | None => None
              | Some row1 =>
                  match row1 !! 0%nat with
                  | None => None
                  | Some bottomLeftCellString =>
                      let '(bl, c2) := parseMedia w bottomLeftCellString 0 in
                      let bottomRightCellString :=
                        if (gridColumns =? 2)%nat then
                          if (length row1 =? 1)%nat then "" else nth 1 row1 ""
                        else "" in
                      let '(br, bottomGraphicCount) :=
                        parseMedia w bottomRightCellString c2 in
                      Some (mkGridParse
                              (top_ok && negb (bottomGraphicCount =? 0)%nat)
                              gridRows gridColumns tl tr bl br)
                  end
              end
            else Some (mkGridParse top_ok gridRows gridColumns tl tr noMedia noMedia)
        end
        end
      else Some (mkGridParse false 0 0 noMedia noMedia noMedia noMedia)
  end.

(** The specification's reading of the classification: at most two
    rows, at most two cells in every row, every cell a media reference. *)
Definition smallAllMedia (tableRows : list (list string)) : bool :=
  (length tableRows <=? 2)%nat &&
  forallb (fun row => (length row <=? 2)%nat && forallb isMediaReference row)
    tableRows.


(** *** The graphics grid *)

(** What the block adds to [slide.shapes]. *)
Inductive Shape : Type :=
| Picture (file : string) (x y w h : Q)
| Movie (file : string) (x y w h : Q).

Definition hasMedia (m : Media) : bool :=
  negb (String.eqb (GraphicFilename m) "") ||
  match video m with Some _ => true | None => false end.

(** The media dimensions of a cell, as the checks obtain them: from the
    image file for a graphic, else from [getVideoInfo] for a media
    element, else none. *)
Definition mediaDimensions (w : World) (m : Media) : option (Z * Z) :=
  if negb (String.eqb (GraphicFilename m) "")
  then getGraphicDimensions w (GraphicFilename m)
  else match video m with
       | Some info => Some (fst (fst (getVideoInfo w info)), snd (fst (getVideoInfo w info)))
       | None => None
       end.

(** The cell names an image file in which [getGraphicDimensions] finds
    nothing: unpacking its result raises. *)
Definition malformed (w : World) (m : Media) : bool :=
  negb (String.eqb (GraphicFilename m) "") &&
  match getGraphicDimensions w (GraphicFilename m) with
  | None => true
  | Some _ => false
  end.

(** The cell's media is missing: its width came back as [-1]. *)
Definition missing (w : World) (m : Media) : bool :=
  match mediaDimensions w m with
  | Some (width, _) => (width =? -1)%Z
  | None => false
  end.

Inductive Corner : Type := TopLeft | TopRight | BottomLeft | BottomRight.

(** The message printed for a missing file. *)
Definition missingMessage (c : Corner) (gridRows : nat) (m : Media) : string :=
  let isImage := negb (String.eqb (GraphicFilename m) "") in
  let two := (gridRows =? 2)%nat in
  (match c, isImage with
   | TopLeft, true => if two then "Missing top left image file: " else "Missing left image file: "
   | TopLeft, false => if two then "Missing top left video file: " else "Missing left video file: "
   | TopRight, true => if two then "Missing top right image file: " else "Missing right image file: "
   | TopRight, false => if two then "Missing top right video file: " else "Missing right video file: "
   | BottomLeft, true => "Missing bottom left image file: "
   | BottomLeft, false => if two then "Missing bottom left video file: " else "Missing left video file: "
   | BottomRight, true => "Missing bottom right image file: "
   | BottomRight, false => if two then "Missing bottom right video file: " else "Missing right video file: "
   end) ++ printableGraphicFilename m.

(** The corners whose media dimensions are obtained, in the order of the
    checks. *)
Definition checkedCorners (g : GridParse) : list (Corner * Media) :=
  [(TopLeft, topLeft g)] ++
  (if (gridColumns g =? 2)%nat then [(TopRight, topRight g)] else []) ++
  (if (gridRows g =? 2)%nat then
     [(BottomLeft, bottomLeft g)] ++
     (if (gridColumns g =? 2)%nat then [(BottomRight, bottomRight g)] else [])
   else []).

(** The outcome of the checks of the media dimensions, made corner by
    corner: an exception, the first corner whose media is missing, or
    all present. *)
Inductive Checked : Type :=
| Raises
| Missing (c : Corner) (m : Media)
| AllPresent.

Fixpoint checkCorners (w : World) (corners : list (Corner * Media)) : Checked :=
  match corners with
  | [] => AllPresent
  | (c, m) :: rest =>
      if malformed w m then Raises
      else if missing w m then Missing c m
      else checkCorners w rest
  end.

(** [reportGraphicFilenames]: the line it prints. *)
Definition reportGraphicFilenames (leftFilename rightFilename : string) : string :=
  if String.eqb rightFilename "" then "             ---> " ++ ljust 30 leftFilename
  else "             ---> " ++ ljust 30 leftFilename ++ " , " ++ rightFilename.

Definition reports (g : GridParse) : list string :=
  (if (gridColumns g =? 2)%nat
   then [reportGraphicFilenames (printableGraphicFilename (topLeft g))
           (printableGraphicFilename (topRight g))]
   else [reportGraphicFilenames (printableGraphicFilename (topLeft g)) ""]) ++
  (if (gridRows g =? 2)%nat then
     if (gridColumns g =? 2)%nat
     then [reportGraphicFilenames (printableGraphicFilename (bottomLeft g))
             (printableGraphicFilename (bottomRight g))]
     else [reportGraphicFilenames (printableGraphicFilename (bottomLeft g)) ""]
   else []).

(** [Inches(0.2)] in EMU. *)
Definition inches02 : Q := 182880.

(** The shape of a tile: a picture for a graphic, a movie for a media
    element. *)
Definition tileShape (m : Media) (x y pw ph : Q) : list Shape :=
  if negb (String.eqb (GraphicFilename m) "") then [Picture (GraphicFilename m) x y pw ph]
  else match video m with
       | Some info => [Movie (source info) x y pw ph]
       | None => []
       end.

(** One tile: scaled into the box, placed by the rule of its corner.
    [None] stands for the [ZeroDivisionError] of [scalePicture]. *)
Definition tile (w : World) (g : GridParse) (rect : Split.Rectangle) (marginBase : Q)
    (c : Corner) (m neighbour : Media) : option (list Shape) :=
  if negb (hasMedia m) then Some []
  else
    let two_rows := (gridRows g =? 2)%nat in
    let two_cols := (gridColumns g =? 2)%nat in
    let rtop := inject_Z (Split.top rect) in
    let rleft := inject_Z (Split.left rect) in
    let rwidth := inject_Z (Split.width rect) in
    let rheight := inject_Z (Split.height rect) in
    let maxPicHeight := (if two_rows then rheight / 2 + inches02 else rheight)%Q in
    let maxPicWidth := (if two_cols then rwidth / 2 - marginBase else rwidth)%Q in
    let midGraphicsSpaceX := (rleft + rwidth / 2)%Q in
    match mediaDimensions w m with
    | None => Some []
    | Some (mw, mh) =>
        match Scale.scalePicture maxPicWidth maxPicHeight (inject_Z mw) (inject_Z mh) with
        | None => None
        | Some (pw, ph, usingHeightToScale) =>
            let centred := (midGraphicsSpaceX - pw / 2)%Q in
            let x :=
              match c with
              | TopLeft =>
                  if two_cols && hasMedia neighbour then
                    if usingHeightToScale
                    then (rleft + (midGraphicsSpaceX - marginBase - pw) / 2)%Q
                    else rleft
                  else centred
              | BottomLeft =>
                  if usingHeightToScale then
                    if two_cols && hasMedia neighbour
                    then (marginBase + (midGraphicsSpaceX - marginBase - pw) / 2)%Q
                    else centred
                  else
                    if two_cols && negb (String.eqb (GraphicFilename neighbour) "")
                    then marginBase else centred
              | TopRight | BottomRight => ((rwidth + midGraphicsSpaceX - pw) / 2)%Q
              end in
            let y0 :=
              match c with
              | TopLeft | TopRight => (rtop + (maxPicHeight - ph) / 2)%Q
              | BottomLeft | BottomRight => (rtop + (maxPicHeight + ph) / 2)%Q
              end in
            let y := (if two_rows then y0 - inches02 else y0)%Q in
            Some (tileShape m x y pw ph)
        end
    end.

Definition andThen {A : Type} (a b : option (list A)) : option (list A) :=
  match a, b with
  | Some x, Some y => Some (x ++ y)%list
  | _, _ => None
  end.

(** The graphics-grid branch: the shapes added to the slide and the
    lines printed.  A missing file is reported and the block returns
    before any shape is added.  [None] stands for an exception. *)
Definition renderGraphicsGrid (w : World) (g : GridParse) (rect : Split.Rectangle)
    (marginBase : Q) : option (list Shape * list string) :=
  match checkCorners w (checkedCorners g) with
  | Raises => None
  | Missing c m => Some ([], (reports g ++ [missingMessage c (gridRows g) m])%list)
  | AllPresent =>
      let two_rows := (gridRows g =? 2)%nat in
      let two_cols := (gridColumns g =? 2)%nat in
      option_map (fun shapes => (shapes, reports g))
        (andThen (tile w g rect marginBase TopLeft (topLeft g) (topRight g))
        (andThen (if two_cols
                  then tile w g rect marginBase TopRight (topRight g) (topLeft g)
                  else Some [])
        (andThen (if two_rows
                  then tile w g rect marginBase BottomLeft (bottomLeft g) (bottomRight g)
                  else Some [])
                 (if two_rows && two_cols
                  then tile w g rect marginBase BottomRight (bottomRight g) (bottomLeft g)
                  else Some []))))
  end.

(** *** The ruled table *)

Inductive PP_ALIGN : Type := LEFT | RIGHT | CENTER.

(** The alignment letter of a cell of the alignment row. *)
Definition alignmentOf (cell : string) : string :=
  if startswith ":-" cell then
    if endswith "-:" cell then "c" else "l"
  else if endswith "-:" cell then "r" else "l".

(** [Inches(0.25)] in EMU. *)
Definition inches025 : Z := 228600.

Record RuledTable : Type := mkRuledTable {
  haveTableHeading : bool;
  rows : nat;
  columns : nat;
  alignments : list string;
  widths : list Z;
  widths_total : Z;
  shapeTop : Z;
  shapeLeft : Z;
  shapeHeight : Z;
  shapeWidth : Z;
  columnWidths : list Z;
  cells : list (list (string * PP_ALIGN))
}.

(** The paragraph alignment of the cell in column [columnNumber]. *)
Definition cellAlignment (alignments : list string) (columnNumber : nat) : PP_ALIGN :=
  match alignments !! columnNumber with
  | None => LEFT
  | Some a =>
      if String.eqb a "r" then RIGHT
      else if String.eqb a "c" then CENTER else LEFT
  end.

(** A row filled up with empty cells to the number of columns, each cell
    with its alignment. *)
Definition fillRow (alignments : list string) (columns : nat) (row : list string)
  : list (string * PP_ALIGN) :=
  imap (fun columnNumber cell => (cell, cellAlignment alignments columnNumber))
    (row ++ List.repeat "" (columns - length row))%list.

(** [del tableRows\[1\]] *)
Definition deleteSecond {A : Type} (l : list A) : list A :=
  match l with
  | a :: _ :: rest => a :: rest
  | _ => l
  end.

(** The normal-table branch, up to the alignment of the cells (the
    merging of spanned cells and the fonts are left out).  [None] stands
    for the [IndexError] of an empty second row and the
    [ZeroDivisionError] of a zero total. *)
Definition renderRuledTable (tableRows : list (list string)) (rect : Split.Rectangle)
    (tableMargin marginBase : Z) : option RuledTable :=
  let columns := fold_left (fun c row => Nat.max c (length row)) tableRows 0%nat in
  match (if (1 <? length tableRows)%nat then
           match tableRows !! 1%nat with
           | Some (firstCellSecondRow :: _) =>
               Some (startswith "-" firstCellSecondRow
                     || startswith ":-" firstCellSecondRow)
           | _ => None
           end
         else Some false) with
  | None => None
  | Some haveTableHeading =>
      let specRow := nth 1 tableRows [] in
      let alignments :=
        if haveTableHeading
        then (map alignmentOf specRow ++ List.repeat "l" (columns - length specRow))%list
        else List.repeat "l" columns in
      let widths :=
        if haveTableHeading
        then (map (fun cell => Z.of_nat (count "-" cell)) specRow
              ++ List.repeat 1%Z (columns - length specRow))%list
        else List.repeat 1%Z columns in
      let widths_total :=
        if haveTableHeading then fold_left Z.add widths 0%Z else Z.of_nat columns in
      let dataRows := if haveTableHeading then deleteSecond tableRows else tableRows in
      let rows := length dataRows in
      let shapeWidth :=
        (Split.width rect - 2 * (tableMargin - marginBase))%Z in
      if (widths_total =? 0)%Z && negb (columns =? 0)%nat then None
      else
        Some (mkRuledTable haveTableHeading rows columns alignments widths widths_total
                (Split.top rect)
                (Split.left rect + tableMargin - marginBase)%Z
                (Z.min (Split.height rect) (inches025 * Z.of_nat rows))
                shapeWidth
                (map (fun wd => Z.quot (shapeWidth * wd) widths_total)
                   (firstn columns widths))
                (map (fillRow alignments columns) dataRows))
  end.

(** *** [createTableBlock] *)

Inductive Block : Type :=
| GraphicsGrid (shapes : list Shape) (printed : list string)
| Ruled (table : RuledTable).

(** [None] stands for an exception (or [sys.exit()]): of
    [slideInfo.tableRows\[tableBlockNumber\]], of a call of
    [parseMedia], of the parse, or of the branch taken. *)
Definition createTableBlock (w : World) (slideTableRows : list (list (list string)))
    (rect : Split.Rectangle) (tableBlockNumber : nat) (tableMargin marginBase : Z)
  : option Block :=
  match slideTableRows !! tableBlockNumber with
  | None => None
  | Some tableRows =>
      if existsb (parseMediaRaises w) (examinedCells tableRows) then None
      else
      match parseGrid w tableRows with
      | None => None
      | Some g =>
          if isGraphicsGrid g then
            option_map (fun r => GraphicsGrid (fst r) (snd r))
              (renderGraphicsGrid w g rect (inject_Z marginBase))
          else option_map Ruled (renderRuledTable tableRows rect tableMargin marginBase)
      end
  end.

(** A cell of an alignment row: an optional colon, [n] dashes, an
    optional colon. *)
Definition specCell (leftColon : bool) (n : nat) (rightColon : bool) : string :=
  (if leftColon then ":" else "") ++ replicate n "-" ++ (if rightColon then ":" else "").

Definition specCellOf (t : bool * nat * bool) : string :=
  specCell (fst (fst t)) (snd (fst t)) (snd t).

(** The alignment a spec cell asks for: [:-] left, [-:] right, both
    colons centre, none left. *)
Definition specAlignment (t : bool * nat * bool) : string :=
  match fst (fst t), snd t with
  | true, true => "c"
  | false, true => "r"
  | _, false => "l"
  end.

Definition specWeight (t : bool * nat * bool) : Z := Z.of_nat (snd (fst t)).


(** The cell's parse, whatever the running count. *)
Definition mediaOf (w : World) (cellString : string) : Media :=
  fst (parseMedia w cellString 0).

(** The row holds a media reference in its first cell, or in its second
    when that one is examined. *)
Definition rowHasMedia (secondExamined : bool) (row : list string) : bool :=
  match row with
  | [] => false
  | c0 :: rest =>
      isMediaReference c0 ||
      (secondExamined && match rest with
                         | c1 :: _ => isMediaReference c1
                         | [] => false
                         end)
  end.

(** What the source classifies as a graphics grid: at most two rows, at
    most two cells in the first row, and a media reference in each row
    among the cells examined (the second cell of the bottom row is
    examined when the wider row has exactly two cells). *)
Definition graphicsGridCondition (tableRows : list (list string)) : bool :=
  match tableRows with
  | [row0] => (length row0 <=? 2)%nat && rowHasMedia true row0
  | [row0; row1] =>
      (length row0 <=? 2)%nat && rowHasMedia true row0 &&
      rowHasMedia (Nat.max (length row0) (length row1) =? 2)%nat row1
  | _ => false
  end.

(** Every cell of the table is filled up to [columns] cells. *)
Definition padded (columns : nat) (row : list string) : list string :=
  (row ++ List.repeat "" (columns - length row))%list.


(** A world for examples: graphics are local files and resolve to
    themselves, except the missing [gone.svg], which cannot be opened
    for conversion; every image is 800 x 600 except the missing
    [gone.png] and the truncated [cut.jpg], whose scan for a frame
    header fails; media elements have the source [clip.mp4] and every
    source can be opened. *)
Definition exampleWorld : World :=
  mkWorld (fun f => (f, f))
    (fun f => String.eqb f "gone.svg")
    (fun _ => mkAudioVideoInfo "clip.mp4" 1024 768 None)
    (fun f => if String.eqb f "gone.png" then Some ((-1)%Z, (-1)%Z)
              else if String.eqb f "cut.jpg" then None
              else Some (800%Z, 600%Z))
    (fun _ => true).

(** The description of the parse of a table of one or two rows whose
    first row has one or two cells. *)
Definition smallGrid (w : World) (row0 : list string) (row1 : option (list string))
  : GridParse :=
  let gridColumns :=
    match row1 with
    | None => length row0
    | Some r1 => Nat.max (length row0) (length r1)
    end in
  let top := rowHasMedia true row0 in
  mkGridParse
    (match row1 with
     | None => top
     | Some r1 => top && rowHasMedia (gridColumns =? 2)%nat r1
     end)
    (match row1 with None => 1 | Some _ => 2 end)
    gridColumns
    (mediaOf w (nth 0 row0 ""))
    (mediaOf w (if (length row0 =? 2)%nat then nth 1 row0 "" else ""))
    (match row1 with None => noMedia | Some r1 => mediaOf w (nth 0 r1 "") end)
    (match row1 with
     | None => noMedia
     | Some r1 =>
         mediaOf w (if (gridColumns =? 2)%nat
                    then if (length r1 =? 1)%nat then "" else nth 1 r1 ""
                    else "")
     end).

End Table.

(** ** The main pass of [cli] over the normalised lines *)

Module Compiler.
Import Text.

Local Open Scope string_scope.
Local Open Scope list_scope.

(** A [Card] object as the pass holds it: its bullet list is a list
    object shared with the variable [cardBullets], so the card refers to
    it by its address in the store. *)
Record CardObject : Type := mkCardObject {
  cardTitle : string;
  cardBulletsRef : nat;
  cardGraphic : string
}.

(** The parts of the pass that do not decide the compiled structure and
    are taken as given: the heading levels in force, the title text that
    [parseTitleText] extracts, the media items that the [re.finditer]
    loops collect from a line (sorted by offset), the graphic an in-card
    media line sets on the open card ([None] when the expression does
    not match and [.group] raises), and [indentSpaces] after an
    inline [md2pptx] directive. *)
Record Env : Type := mkEnv {
  titleLevel : nat;
  parseTitleText : string -> string;
  mediaItems : string -> list string;
  cardMedia : string -> string -> option string;
  dynamicIndentSpaces : string -> Z -> Z
}.

Definition sectionLevel (e : Env) : nat := titleLevel e + 1.
Definition contentLevel (e : Env) : nat := sectionLevel e + 1.
Definition cardLevel (e : Env) : nat := contentLevel e + 1.

(** The variables of the pass.  [bullets] and [cardBullets] are
    addresses of list objects in [store]; [slides] collects the
    [SlideInfo] values handed to [createSlide], with the lists as they
    are at that call.  The task list, the heading references and the
    slide numbers, on which no list of the compiled slide depends, are
    left out. *)
Record State : Type := mkState {
  inBlock : bool;
  inList : bool;
  inTable : bool;
  inCard : bool;
  inTitle : bool;
  inCode : bool;
  inHTMLCode : bool;
  inFencedCode : bool;
  blockType : string;
  slideTitle : string;
  slideSubtitle : string;
  bullets : nat;
  tableRows : list (list (list string));
  cards : list CardObject;
  cardBullets : option nat;
  code : list (list string);
  sequence : list string;
  notes_text : string;
  thisLevel : option nat;
  lastTableLine : Z;
  tableCaptions : list string;
  tableCaption : option string;
  indentSpaces : Z;
  store : list (list Model.Bullet);
  slides : list Model.SlideInfo
}.

Definition set_inBlock (v : bool) (s : State) : State :=
  mkState v (inList s) (inTable s) (inCard s) (inTitle s) (inCode s)
    (inHTMLCode s) (inFencedCode s) (blockType s) (slideTitle s) (slideSubtitle
    s) (bullets s) (tableRows s) (cards s) (cardBullets s) (code s) (sequence s)
    (notes_text s) (thisLevel s) (lastTableLine s) (tableCaptions s)
    (tableCaption s) (indentSpaces s) (store s) (slides s).

Definition set_inList (v : bool) (s : State) : State :=
  mkState (inBlock s) v (inTable s) (inCard s) (inTitle s) (inCode s)
    (inHTMLCode s) (inFencedCode s) (blockType s) (slideTitle s) (slideSubtitle
    s) (bullets s) (tableRows s) (cards s) (cardBullets s) (code s) (sequence s)
    (notes_text s) (thisLevel s) (lastTableLine s) (tableCaptions s)
    (tableCaption s) (indentSpaces s) (store s) (slides s).

Definition set_inTable (v : bool) (s : State) : State :=
  mkState (inBlock s) (inList s) v (inCard s) (inTitle s) (inCode s)
    (inHTMLCode s) (inFencedCode s) (blockType s) (slideTitle s) (slideSubtitle
    s) (bullets s) (tableRows s) (cards s) (cardBullets s) (code s) (sequence s)
    (notes_text s) (thisLevel s) (lastTableLine s) (tableCaptions s)
    (tableCaption s) (indentSpaces s) (store s) (slides s).

Definition set_inCard (v : bool) (s : State) : State :=
  mkState (inBlock s) (inList s) (inTable s) v (inTitle s) (inCode s)
    (inHTMLCode s) (inFencedCode s) (blockType s) (slideTitle s) (slideSubtitle
    s) (bullets s) (tableRows s) (cards s) (cardBullets s) (code s) (sequence s)
    (notes_text s) (thisLevel s) (lastTableLine s) (tableCaptions s)
    (tableCaption s) (indentSpaces s) (store s) (slides s).

Definition set_inTitle (v : bool) (s : State) : State :=
  mkState (inBlock s) (inList s) (inTable s) (inCard s) v (inCode s)
    (inHTMLCode s) (inFencedCode s) (blockType s) (slideTitle s) (slideSubtitle
    s) (bullets s) (tableRows s) (cards s) (cardBullets s) (code s) (sequence s)
    (notes_text s) (thisLevel s) (lastTableLine s) (tableCaptions s)
    (tableCaption s) (indentSpaces s) (store s) (slides s).

Definition set_inCode (v : bool) (s : State) : State :=
  mkState (inBlock s) (inList s) (inTable s) (inCard s) (inTitle s) v
    (inHTMLCode s) (inFencedCode s) (blockType s) (slideTitle s) (slideSubtitle
    s) (bullets s) (tableRows s) (cards s) (cardBullets s) (code s) (sequence s)
    (notes_text s) (thisLevel s) (lastTableLine s) (tableCaptions s)
    (tableCaption s) (indentSpaces s) (store s) (slides s).

Definition set_inHTMLCode (v : bool) (s : State) : State :=
  mkState (inBlock s) (inList s) (inTable s) (inCard s) (inTitle s) (inCode s)
    v (inFencedCode s) (blockType s) (slideTitle s) (slideSubtitle s) (bullets
    s) (tableRows s) (cards s) (cardBullets s) (code s) (sequence s) (notes_text
    s) (thisLevel s) (lastTableLine s) (tableCaptions s) (tableCaption s)
    (indentSpaces s) (store s) (slides s).

Definition set_inFencedCode (v : bool) (s : State) : State :=
  mkState (inBlock s) (inList s) (inTable s) (inCard s) (inTitle s) (inCode s)
    (inHTMLCode s) v (blockType s) (slideTitle s) (slideSubtitle s) (bullets s)
    (tableRows s) (cards s) (cardBullets s) (code s) (sequence s) (notes_text s)
    (thisLevel s) (lastTableLine s) (tableCaptions s) (tableCaption s)
    (indentSpaces s) (store s) (slides s).

Definition set_blockType (v : string) (s : State) : State :=
  mkState (inBlock s) (inList s) (inTable s) (inCard s) (inTitle s) (inCode s)
    (inHTMLCode s) (inFencedCode s) v (slideTitle s) (slideSubtitle s) (bullets
    s) (tableRows s) (cards s) (cardBullets s) (code s) (sequence s) (notes_text
    s) (thisLevel s) (lastTableLine s) (tableCaptions s) (tableCaption s)
    (indentSpaces s) (store s) (slides s).

Definition set_slideTitle (v : string) (s : State) : State :=
  mkState (inBlock s) (inList s) (inTable s) (inCard s) (inTitle s) (inCode s)
    (inHTMLCode s) (inFencedCode s) (blockType s) v (slideSubtitle s) (bullets
    s) (tableRows s) (cards s) (cardBullets s) (code s) (sequence s) (notes_text
    s) (thisLevel s) (lastTableLine s) (tableCaptions s) (tableCaption s)
    (indentSpaces s) (store s) (slides s).

Definition set_slideSubtitle (v : string) (s : State) : State :=
  mkState (inBlock s) (inList s) (inTable s) (inCard s) (inTitle s) (inCode s)
    (inHTMLCode s) (inFencedCode s) (blockType s) (slideTitle s) v (bullets s)
    (tableRows s) (cards s) (cardBullets s) (code s) (sequence s) (notes_text s)
    (thisLevel s) (lastTableLine s) (tableCaptions s) (tableCaption s)
    (indentSpaces s) (store s) (slides s).

Definition set_bullets (v : nat) (s : State) : State :=
  mkState (inBlock s) (inList s) (inTable s) (inCard s) (inTitle s) (inCode s)
    (inHTMLCode s) (inFencedCode s) (blockType s) (slideTitle s) (slideSubtitle
    s) v (tableRows s) (cards s) (cardBullets s) (code s) (sequence s)
    (notes_text s) (thisLevel s) (lastTableLine s) (tableCaptions s)
    (tableCaption s) (indentSpaces s) (store s) (slides s).

Definition set_tableRows (v : list (list (list string))) (s : State) : State :=
  mkState (inBlock s) (inList s) (inTable s) (inCard s) (inTitle s) (inCode s)
    (inHTMLCode s) (inFencedCode s) (blockType s) (slideTitle s) (slideSubtitle
    s) (bullets s) v (cards s) (cardBullets s) (code s) (sequence s) (notes_text
    s) (thisLevel s) (lastTableLine s) (tableCaptions s) (tableCaption s)
    (indentSpaces s) (store s) (slides s).

Definition set_cards (v : list CardObject) (s : State) : State :=
  mkState (inBlock s) (inList s) (inTable s) (inCard s) (inTitle s) (inCode s)
    (inHTMLCode s) (inFencedCode s) (blockType s) (slideTitle s) (slideSubtitle
    s) (bullets s) (tableRows s) v (cardBullets s) (code s) (sequence s)
    (notes_text s) (thisLevel s) (lastTableLine s) (tableCaptions s)
    (tableCaption s) (indentSpaces s) (store s) (slides s).

Definition set_cardBullets (v : option nat) (s : State) : State :=
  mkState (inBlock s) (inList s) (inTable s) (inCard s) (inTitle s) (inCode s)
    (inHTMLCode s) (inFencedCode s) (blockType s) (slideTitle s) (slideSubtitle
    s) (bullets s) (tableRows s) (cards s) v (code s) (sequence s) (notes_text
    s) (thisLevel s) (lastTableLine s) (tableCaptions s) (tableCaption s)
    (indentSpaces s) (store s) (slides s).

Definition set_code (v : list (list string)) (s : State) : State :=
  mkState (inBlock s) (inList s) (inTable s) (inCard s) (inTitle s) (inCode s)
    (inHTMLCode s) (inFencedCode s) (blockType s) (slideTitle s) (slideSubtitle
    s) (bullets s) (tableRows s) (cards s) (cardBullets s) v (sequence s)
    (notes_text s) (thisLevel s) (lastTableLine s) (tableCaptions s)
    (tableCaption s) (indentSpaces s) (store s) (slides s).

Definition set_sequence (v : list string) (s : State) : State :=
  mkState (inBlock s) (inList s) (inTable s) (inCard s) (inTitle s) (inCode s)
    (inHTMLCode s) (inFencedCode s) (blockType s) (slideTitle s) (slideSubtitle
    s) (bullets s) (tableRows s) (cards s) (cardBullets s) (code s) v
    (notes_text s) (thisLevel s) (lastTableLine s) (tableCaptions s)
    (tableCaption s) (indentSpaces s) (store s) (slides s).

Definition set_notes_text (v : string) (s : State) : State :=
  mkState (inBlock s) (inList s) (inTable s) (inCard s) (inTitle s) (inCode s)
    (inHTMLCode s) (inFencedCode s) (blockType s) (slideTitle s) (slideSubtitle
    s) (bullets s) (tableRows s) (cards s) (cardBullets s) (code s) (sequence s)
    v (thisLevel s) (lastTableLine s) (tableCaptions s) (tableCaption s)
    (indentSpaces s) (store s) (slides s).

Definition set_thisLevel (v : option nat) (s : State) : State :=
  mkState (inBlock s) (inList s) (inTable s) (inCard s) (inTitle s) (inCode s)
    (inHTMLCode s) (inFencedCode s) (blockType s) (slideTitle s) (slideSubtitle
    s) (bullets s) (tableRows s) (cards s) (cardBullets s) (code s) (sequence s)
    (notes_text s) v (lastTableLine s) (tableCaptions s) (tableCaption s)
    (indentSpaces s) (store s) (slides s).

Definition set_lastTableLine (v : Z) (s : State) : State :=
  mkState (inBlock s) (inList s) (inTable s) (inCard s) (inTitle s) (inCode s)
    (inHTMLCode s) (inFencedCode s) (blockType s) (slideTitle s) (slideSubtitle
    s) (bullets s) (tableRows s) (cards s) (cardBullets s) (code s) (sequence s)
    (notes_text s) (thisLevel s) v (tableCaptions s) (tableCaption s)
    (indentSpaces s) (store s) (slides s).

Definition set_tableCaptions (v : list string) (s : State) : State :=
  mkState (inBlock s) (inList s) (inTable s) (inCard s) (inTitle s) (inCode s)
    (inHTMLCode s) (inFencedCode s) (blockType s) (slideTitle s) (slideSubtitle
    s) (bullets s) (tableRows s) (cards s) (cardBullets s) (code s) (sequence s)
    (notes_text s) (thisLevel s) (lastTableLine s) v (tableCaption s)
    (indentSpaces s) (store s) (slides s).

Definition set_tableCaption (v : option string) (s : State) : State :=
  mkState (inBlock s) (inList s) (inTable s) (inCard s) (inTitle s) (inCode s)
    (inHTMLCode s) (inFencedCode s) (blockType s) (slideTitle s) (slideSubtitle
    s) (bullets s) (tableRows s) (cards s) (cardBullets s) (code s) (sequence s)
    (notes_text s) (thisLevel s) (lastTableLine s) (tableCaptions s) v
    (indentSpaces s) (store s) (slides s).

Definition set_indentSpaces (v : Z) (s : State) : State :=
  mkState (inBlock s) (inList s) (inTable s) (inCard s) (inTitle s) (inCode s)
    (inHTMLCode s) (inFencedCode s) (blockType s) (slideTitle s) (slideSubtitle
    s) (bullets s) (tableRows s) (cards s) (cardBullets s) (code s) (sequence s)
    (notes_text s) (thisLevel s) (lastTableLine s) (tableCaptions s)
    (tableCaption s) v (store s) (slides s).

Definition set_store (v : list (list Model.Bullet)) (s : State) : State :=
  mkState (inBlock s) (inList s) (inTable s) (inCard s) (inTitle s) (inCode s)
    (inHTMLCode s) (inFencedCode s) (blockType s) (slideTitle s) (slideSubtitle
    s) (bullets s) (tableRows s) (cards s) (cardBullets s) (code s) (sequence s)
    (notes_text s) (thisLevel s) (lastTableLine s) (tableCaptions s)
    (tableCaption s) (indentSpaces s) v (slides s).

Definition set_slides (v : list Model.SlideInfo) (s : State) : State :=
  mkState (inBlock s) (inList s) (inTable s) (inCard s) (inTitle s) (inCode s)
    (inHTMLCode s) (inFencedCode s) (blockType s) (slideTitle s) (slideSubtitle
    s) (bullets s) (tableRows s) (cards s) (cardBullets s) (code s) (sequence s)
    (notes_text s) (thisLevel s) (lastTableLine s) (tableCaptions s)
    (tableCaption s) (indentSpaces s) (store s) v.

(** [x = \[\]]: a new list object. *)
Definition alloc (s : State) : nat * State :=
  (length (store s), set_store (store s ++ [[]]) s).

Definition deref (s : State) (r : nat) : list Model.Bullet :=
  default [] (store s !! r).

(** [l.append(x)] on the list object at [r]. *)
Definition appendAt (r : nat) (b : Model.Bullet) (s : State) : State :=
  set_store (alter (fun l => l ++ [b]) r (store s)) s.

(** [l\[-1\].append(x)] on a list of lists; [None] is the [IndexError]
    of an empty [l]. *)
Definition appendToLast {A : Type} (x : A) (l : list (list A)) : option (list (list A)) :=
  match last l with
  | None => None
  | Some inner => Some (removelast l ++ [inner ++ [x]])
  end.

(** [cards\[-1\] = f(cards\[-1\])] *)
Definition updateLast {A : Type} (f : A -> A) (l : list A) : option (list A) :=
  match last l with
  | None => None
  | Some x => Some (removelast l ++ [f x])
  end.

(** The state before the first line.  [inCode] and [inHTMLCode] start
    as [False]: the pass is taken after lines that leave no fence and
    no [<pre>] or [<code>] block open, for the two variables are those
    of the line-joining pass before it. *)
Definition initial (indent : Z) : State :=
  mkState false false false false false false false false
    "" "" "" 0 [] [] None [] [] "" None (-1) [] None indent [[]] [].

(** The [SlideInfo] passed to [createSlide], and the fresh [sequence]
    that call returns. *)
Definition snapshotCard (s : State) (c : CardObject) : Model.Card :=
  Model.mkCard (cardTitle c) (deref s (cardBulletsRef c)) (cardGraphic c).

Definition createSlide (s : State) : State :=
  let slideInfo :=
    Model.mkSlideInfo (slideTitle s) (slideSubtitle s) (blockType s)
      (deref s (bullets s)) (tableRows s) (map (snapshotCard s) (cards s))
      (code s) (sequence s) in
  set_sequence [] (set_slides (slides s ++ [slideInfo]) s).

(** [line.replace("\t", " " * indentSpaces)] *)
Fixpoint expandTabs (indent : nat) (line : string) : string :=
  match line with
  | EmptyString => EmptyString
  | String a rest =>
      if Ascii.eqb a (ascii_of_nat 9)
      then replicate indent " " +:+ expandTabs indent rest
      else String a (expandTabs indent rest)
  end.

(** [bulletRegex.match(line)]: the column of the marker and group 3. *)
Definition bulletMatch (line : string) : option (nat * string) :=
  let k := span isSpace line in
  match drop k line with
  | String a rest => if Ascii.eqb a "*" then Some (k, rest) else None
  | EmptyString => None
  end.

(** [numberRegex.match(line)]: the column of the number and group 3. *)
Definition numberMatch (line : string) : option (nat * string) :=
  let k := span isSpace line in
  let afterSpace := drop k line in
  let d := span isDigit afterSpace in
  if (d =? 0)%nat then None
  else match drop d afterSpace with
       | String a rest => if Ascii.eqb a "." then Some (k, rest) else None
       | EmptyString => None
       end.

(** [calculateIndentationLevel]; [None] is the division by zero. *)
Definition calculateIndentationLevel (firstNonSpace : nat) (indent : Z) : option Z :=
  if (indent =? 0)%Z then None else Some (Z.quot (Z.of_nat firstNonSpace) indent).

(** The code-block bookkeeping that precedes the dispatch on the line
    (from the [<pre>] test to the horizontal-rule rewrite); the result
    is the state and the line the dispatch sees. *)
Definition htmlCodeOpen (line : string) (s : State) : State :=
  if startswithOneOf line ["<pre>"; "<code>"] then
    set_inTitle false (set_inTable false (set_inHTMLCode true (set_inCode true
      (set_code (code s ++ [[]]) s))))
  else s.

Definition htmlCodeClose (line : string) (s : State) : State :=
  if startswithOneOf line ["</pre>"; "</code>"] then
    set_inTitle false (set_inHTMLCode false (set_inCode false s))
  else s.

Definition fence (line : string) (s : State) : option State :=
  if startswith "```" line then
    let s1 := set_inCode (negb (inCode s)) s in
    match (if inCode s1
           then Some (set_inTable false (set_blockType "code"
                        (set_code (code s1 ++ [[]]) s1)))
           else option_map (fun c => set_code c s1) (appendToLast line (code s1))) with
    | None => None
    | Some s2 => Some (set_inTitle false (set_inFencedCode (negb (inFencedCode s2)) s2))
    end
  else Some s.

Definition codeLine (line : string) (s : State) : option State :=
  if inCode s || inHTMLCode s || inFencedCode s then
    let s1 := if (length (code s) =? 0)%nat then set_code (code s ++ [[]]) s else s in
    match appendToLast line (code s1) with
    | None => None
    | Some c =>
        let s2 := set_code c s1 in
        let s3 :=
          if (length (default [] (last c)) =? 1)%nat
          then set_sequence (sequence s2 ++ ["code"]) s2 else s2 in
        Some (set_inTitle false s3)
    end
  else Some s.

Definition blankEndsCode (line : string) (s : State) : State :=
  if String.eqb line "" && inCode s && negb (inHTMLCode s) && negb (inFencedCode s)
  then set_inTitle false (set_inCode false s)
  else s.

Definition indentedCode (line : string) (s : State) : State :=
  if startswith "    " line && negb (inList s) then
    let s1 :=
      if negb (inCode s)
      then set_inCode true (set_code (code s ++ [[drop 4 line]])
             (set_blockType "code" s))
      else s in
    set_inTitle false s1
  else s.

Definition horizontalRule (line : string) (s : State) : State * string :=
  if startswithOneOf line ["<hr/>"; "---"; "***"; "___"]
  then (set_inTitle true s, "### &nbsp;")
  else (s, line).

Definition preamble (line : string) (s : State) : option (State * string) :=
  match fence line (htmlCodeClose line (htmlCodeOpen line s)) with
  | None => None
  | Some s1 =>
      match codeLine line s1 with
      | None => None
      | Some s2 => Some (horizontalRule line (indentedCode line (blankEndsCode line s2)))
      end
  end.

(** The heading branch.  A card heading is taken after a slide
    heading, which sets [href]; before the first one the branch reads
    [href] unset and raises. *)
Definition openCard (e : Env) (line : string) (s : State) : State :=
  let cardName := parseTitleText e (drop (cardLevel e) line) in
  let '(r, s1) := alloc s in
  set_inTitle false
    (set_cards (cards s1 ++ [mkCardObject cardName r ""])
       (set_cardBullets (Some r) (set_inCard true s1))).

Definition openSlide (e : Env) (line : string) (s : State) : option State :=
  let s0 := if inBlock s then createSlide s else s in
  let s1 :=
    if String.eqb (take (contentLevel e) line) (replicate (contentLevel e) "#")
    then set_blockType "content" (set_thisLevel (Some (contentLevel e)) s0)
    else if String.eqb (take (sectionLevel e) line) (replicate (sectionLevel e) "#")
    then set_inTitle true (set_blockType "section"
           (set_thisLevel (Some (sectionLevel e)) s0))
    else if String.eqb (take (titleLevel e) line) (replicate (titleLevel e) "#")
    then set_inTitle true (set_blockType "title"
           (set_thisLevel (Some (titleLevel e)) s0))
    else set_inTitle false s0 in
  match thisLevel s1 with
  | None => None
  | Some level =>
      let '(r, s2) := alloc s1 in
      Some (set_notes_text ""
             (set_code [] (set_cards [] (set_tableRows [] (set_bullets r
               (set_slideSubtitle "" (set_inCard false (set_inTable false
                 (set_inList false (set_inBlock true
                   (set_slideTitle (parseTitleText e (drop level line)) s2)))))))))))
  end.

Definition heading (e : Env) (line : string) (s : State) : option State :=
  if String.eqb (take (cardLevel e) line) (replicate (cardLevel e) "#")
  then Some (openCard e line s)
  else openSlide e line s.

(** The bullet and numbered-item branches. *)
Definition bulletItem (bulletType : string) (column : nat) (group3 : string)
    (s : State) : option State :=
  match calculateIndentationLevel column (indentSpaces s) with
  | None => None
  | Some bulletLevel =>
      let entry := Model.mkBullet bulletLevel (lstrip group3) bulletType in
      match (if inCard s then
               match cardBullets s with
               | None => None
               | Some r =>
                   let s1 := appendAt r entry s in
                   option_map (fun cs => set_cards cs s1)
                     (updateLast (fun c => mkCardObject (cardTitle c) r (cardGraphic c))
                        (cards s1))
               end
             else Some (appendAt (bullets s) entry s)) with
      | None => None
      | Some s2 =>
          let s3 := if inList s2 then s2
                    else set_sequence (sequence s2 ++ ["list"]) s2 in
          Some (set_inTitle false (set_inTable false (set_inList true s3)))
      end
  end.

(** The media-line branch. *)
Definition mediaLine (e : Env) (line : string) (s : State) : option State :=
  if inCard s then
    match last (cards s) with
    | None => None
    | Some c =>
        match cardMedia e line (cardGraphic c) with
        | None => None
        | Some g =>
            Some (set_cards
                    (removelast (cards s)
                     ++ [mkCardObject (cardTitle c) (cardBulletsRef c) g]) s)
        end
    end
  else
    let s1 :=
      if inTable s then s
      else set_inCard false (set_inList false (set_inTable true
             (set_sequence (sequence s ++ ["table"]) (set_blockType "table" s)))) in
    let rows := if (length (tableRows s1) =? 0)%nat then [[]] else tableRows s1 in
    match appendToLast (mediaItems e line) rows with
    | None => None
    | Some rows' => Some (set_inTitle false (set_tableRows rows' s1))
    end.

(** The cells of a [|] line: the words after the first, without the
    last when it is empty. *)
Definition tableCells (line : string) : list string :=
  let words := split "|" line in
  let tableRow := tl words in
  if String.eqb (List.last words "") "" then removelast tableRow else tableRow.

Definition tableLine (lineNumber : Z) (line : string) (s : State) : option State :=
  let s0 := set_tableCaption (Some "") (set_lastTableLine lineNumber s) in
  let s1 :=
    if inTable s0 then s0
    else set_inCard false (set_inList false
           (set_sequence (sequence s0 ++ ["table"]) (set_inTable true
              (set_tableRows (tableRows s0 ++ [[]]) (set_blockType "table" s0))))) in
  match appendToLast (tableCells line) (tableRows s1) with
  | None => None
  | Some rows' => Some (set_inTitle false (set_tableRows rows' s1))
  end.

Definition captionLine (line : string) (s : State) : State :=
  let caption := take (String.length line - 2) (drop 1 line) in
  set_tableCaptions (tableCaptions s ++ [caption]) (set_tableCaption (Some caption) s).

Definition otherLine (line : string) (s : State) : State :=
  let s1 := set_inTable false s in
  let s2 :=
    if (length (tableCaptions s1) <? length (tableRows s1))%nat
    then set_tableCaptions (tableCaptions s1 ++ [""]) s1 else s1 in
  if inCode s2 then s2
  else
    let s3 := if String.eqb line "" then set_inTitle false s2 else s2 in
    if inTitle s3
    then set_slideSubtitle (slideSubtitle s3 +:+ String newline line) s3
    else if startswithOneOf line ["</pre>"; "</code>"] then s3
    else set_notes_text (notes_text s3 +:+ String newline line) s3.

(** The branch of the [if / elif] chain a line takes. *)
Inductive Branch : Type :=
| Task | Anchor | Directive | Heading
| BulletLine (column : nat) (group3 : string)
| NumberLine (column : nat) (group3 : string)
| Media | TableRow | Caption | Other.

Definition branchOf (lineNumber : Z) (line : string) (s : State) : Branch :=
  if String.eqb (take 1 line) "-" then Task
  else if startswith "<a id=" line then Anchor
  else if startswith "<!-- md2pptx: " line then Directive
  else if startswith "#" line && negb (inCode s) then Heading
  else match bulletMatch line with
  | Some (k, g) => BulletLine k g
  | None =>
  match numberMatch line with
  | Some (k, g) => NumberLine k g
  | None =>
  if startswithOneOf line ["<video "; "<audio "; "[!["; "!["] then Media
  else if String.eqb (take 1 line) "|" then TableRow
  else if startswith "[" line && endswith "]" line
          && (lineNumber =? lastTableLine s + 1)%Z then Caption
  else Other
  end end.

Definition dispatch (e : Env) (lineNumber : Z) (line : string) (s : State)
  : option State :=
  match branchOf lineNumber line s with
  | Task | Anchor => Some (set_inTitle false s)
  | Directive =>
      Some (set_indentSpaces (dynamicIndentSpaces e line (indentSpaces s))
              (set_inTitle false s))
  | Heading => heading e line s
  | BulletLine k g => bulletItem "bulleted" k g s
  | NumberLine k g => bulletItem "numbered" k g s
  | Media => mediaLine e line s
  | TableRow => tableLine lineNumber line s
  | Caption => Some (captionLine line s)
  | Other => Some (otherLine line s)
  end.

(** The line as the pass sees it: trailing white space removed, tabs
    expanded. *)
Definition normalise (s : State) (rawLine : string) : string :=
  expandTabs (Z.to_nat (indentSpaces s)) (rstrip rawLine).

(** One iteration of the main loop; [None] is an exception. *)
Definition processLine (e : Env) (s : State) (lineNumber : Z) (rawLine : string)
  : option State :=
  let line := normalise s rawLine in
  if String.eqb line "<ignoreme>" then Some s
  else match preamble line s with
       | None => None
       | Some (s1, line1) => dispatch e lineNumber line1 s1
       end.

Fixpoint processLines (e : Env) (s : State) (lineNumber : Z) (lines : list string)
  : option State :=
  match lines with
  | [] => Some s
  | l :: rest =>
      match processLine e s lineNumber l with
      | None => None
      | Some s' => processLines e s' (lineNumber + 1) rest
      end
  end.

(** After the loop: a caption is added "for the case the table ended in
    the final line" ([None] when [tableCaption] was never assigned), then
    the last slide is finished off. *)
Definition finish (s : State) : option State :=
  match (if (length (tableCaptions s) <? length (tableRows s))%nat
         then option_map (fun c => set_tableCaptions (tableCaptions s ++ [c]) s)
                (tableCaption s)
         else Some s) with
  | None => None
  | Some s1 =>
      Some (if inBlock s1 || inCode s1 || inTable s1 then createSlide s1 else s1)
  end.

(** The whole pass: the [SlideInfo] values created, in order. *)
Definition compile (e : Env) (indent : Z) (lines : list string)
  : option (list Model.SlideInfo) :=
  match processLines e (initial indent) 0 lines with
  | None => None
  | Some s => option_map slides (finish s)
  end.

(** The states the pass goes through. *)
Inductive reachable (e : Env) (indent : Z) : State -> Z -> Prop :=
| reach_initial : reachable e indent (initial indent) 0
| reach_step s n rawLine s' :
    reachable e indent s n -> processLine e s n rawLine = Some s' ->
    reachable e indent s' (n + 1).

(** An environment for examples: top heading level 1, titles stripped
    of white space, a media line taken as one item. *)
Definition exampleEnv : Env :=
  mkEnv 1 (fun t => rstrip (lstrip t)) (fun line => [line])
    (fun line _ => Some line)
    (fun _ indent => indent).

(** The invariant of a compiled slide, for a slide that holds no bullet
    and no card: as many [sequence] entries as table and code blocks. *)
Definition sequenceCountsBlocks (slide : Model.SlideInfo) : Prop :=
  length (Model.sequence slide)
  = (length (Model.tableRows slide) + length (Model.code slide))%nat.

(** The bullet or numbered item a raw line is taken as, if it reaches
    one of these two branches: its type, the column of its marker and
    the text after the marker. *)
Definition itemOf (s : State) (lineNumber : Z) (rawLine : string)
  : option (string * nat * string) :=
  let line := normalise s rawLine in
  if String.eqb line "<ignoreme>" then None
  else match preamble line s with
       | None => None
       | Some (s1, line1) =>
           match branchOf lineNumber line1 s1 with
           | BulletLine k g => Some ("bulleted", k, g)
           | NumberLine k g => Some ("numbered", k, g)
           | _ => None
           end
       end.

(** The variables the bullets go through. *)
Definition core (s : State)
  : list (list Model.Bullet) * nat * option nat * bool * list CardObject * Z :=
  (store s, bullets s, cardBullets s, inCard s, cards s, indentSpaces s).

(** The list object at [r] can still be appended to: it is the slide's
    bullet list, or the bullet list of the open card. *)
Definition live (s : State) (r : nat) : Prop :=
  r = bullets s \/ (inCard s = true /\ cardBullets s = Some r).

(** What holds of the addresses in every state of the pass. *)
Definition wellFormed (s : State) : Prop :=
  (bullets s < length (store s))%nat /\
  (forall r, cardBullets s = Some r -> (r < length (store s))%nat /\ r <> bullets s) /\
  (inCard s = true ->
     exists r c, cardBullets s = Some r /\ last (cards s) = Some c /\
                 cardBulletsRef c = r) /\
  Forall (fun c => (cardBulletsRef c < length (store s))%nat
                   /\ cardBulletsRef c <> bullets s) (cards s).

(** From [s] to [s']: no list object is lost, and one that could no
    longer be appended to in [s] is the same in [s'] and still cannot. *)
Definition frame (s s' : State) : Prop :=
  (length (store s) <= length (store s'))%nat /\
  forall r, (r < length (store s))%nat -> ~ live s r ->
            ~ live s' r /\ store s' !! r = store s !! r.

(** A card of the slide that is not the open one. *)
Definition closedCard (s : State) (c : CardObject) : Prop :=
  In c (cards s) /\ ~ (inCard s = true /\ cardBullets s = Some (cardBulletsRef c)).

End Compiler.
(** ** Counting the blocks of a kind *)

Module Blocks.
Import Split.

Definition isTable (k : BlockKind) : bool :=
  match k with KTable => true | _ => false end.

Definition isCode (k : BlockKind) : bool :=
  match k with KCode => true | _ => false end.

(** The number of table blocks, and of code blocks, among the first
    [i] entries of [sequence]. *)
Definition tablesBefore (sequence : list BlockKind) (i : nat) : nat :=
  length (List.filter isTable (take i sequence)).

Definition codeBlocksBefore (sequence : list BlockKind) (i : nat) : nat :=
  length (List.filter isCode (take i sequence)).

End Blocks.

(** ** The contents of the footnote pages *)

Module FootnotePages.
Import Model Footnotes.

(** The bullet the loop appends for footnote [footnoteNumber]. *)
Definition footnoteBullet (footnoteNumber : nat) (footnote : string * string) : Bullet :=
  mkBullet 1 (pretty (S footnoteNumber) +:+ ". " +:+ snd footnote)%string "bullet".

(** All the bullets the loop has placed so far, in order: those of the
    pages created and those of the page being filled. *)
Definition contents (st : State) : list Bullet :=
  concat (map slideBullets (footnoteSlides st)) ++ pageBullets st.

(** The pages created so far are numbered from 1 in their titles. *)
Definition numbered (footnotesTitle : string) (footnoteCount : nat)
    (footnotesPerPage : Z) (st : State) : Prop :=
  footnotesSlideNumber st = length (footnoteSlides st) /\
  forall (j : nat) s, footnoteSlides st !! j = Some s ->
    titleText s = pageTitle footnotesTitle footnoteCount footnotesPerPage (S j).

End FootnotePages.

(** ** The boxes of the graphics grid *)

Module Tiles.
Import Table.

(** The box every tile of a grid is scaled into: half the height of
    the rendering rectangle plus [Inches(0.2)] when the grid has two
    rows, half its width less [marginBase] when it has two columns. *)
Definition maxPicHeight (g : GridParse) (rect : Split.Rectangle) : Q :=
  if (gridRows g =? 2)%nat
  then (inject_Z (Split.height rect) / 2 + inches02)%Q
  else inject_Z (Split.height rect).

Definition maxPicWidth (g : GridParse) (rect : Split.Rectangle) (marginBase : Q) : Q :=
  if (gridColumns g =? 2)%nat
  then (inject_Z (Split.width rect) / 2 - marginBase)%Q
  else inject_Z (Split.width rect).

(** The width and the height a shape is added with. *)
Definition extent (s : Shape) : Q * Q :=
  match s with
  | Picture _ _ _ w h | Movie _ _ _ w h => (w, h)
  end.

(** Where a shape is added: its left, its top, its width and its
    height. *)
Definition box (s : Shape) : Q * Q * Q * Q :=
  match s with
  | Picture _ x y w h | Movie _ x y w h => (x, y, w, h)
  end.

(** The media of the four corners of a grid. *)
Definition corners (g : GridParse) : list Media :=
  [topLeft g; topRight g; bottomLeft g; bottomRight g].

End Tiles.

(** ** Reading the main pass *)

Module Pass.
Import Text Compiler.

Local Open Scope string_scope.

(** A table line written out from its cells: [|c1|c2|...|cn|]. *)
Fixpoint cellsText (cells : list string) : string :=
  match cells with
  | [] => ""
  | c :: rest => c ++ "|" ++ cellsText rest
  end.

Definition tableLineOf (cells : list string) : string := "|" ++ cellsText cells.

(** The branch of the [if / elif] chain a raw line takes in a state,
    if it reaches the chain. *)
Definition branchTaken (s : State) (lineNumber : Z) (rawLine : string) : option Branch :=
  let line := normalise s rawLine in
  if String.eqb line "<ignoreme>" then None
  else match preamble line s with
       | None => None
       | Some (s1, line1) => Some (branchOf lineNumber line1 s1)
       end.

(** The pass is not inside a code block of any kind. *)
Definition outsideCode (s : State) : bool :=
  negb (inCode s) && negb (inHTMLCode s) && negb (inFencedCode s).

(** The code blocks after a line has been added to the last one (a
    first block is opened if there is none). *)
Definition codeWith (line : string) (code : list (list string)) : list (list string) :=
  match code with
  | [] => [[line]]
  | _ :: _ => (removelast code ++ [List.last code [] ++ [line]])%list
  end.

(** What the next slide to be created is known by: the slides created
    so far, the title and the subtitle of the open slide, and whether a
    slide is open. *)
Definition openSlideOf (s : State) : list Model.SlideInfo * string * string * bool :=
  (slides s, slideTitle s, slideSubtitle s, inBlock s).

End Pass.

(** ** The card frames of [createListBlock] *)

Module Cards.

Local Open Scope Z_scope.

(** The options the card geometry reads.  The gaps are the lengths
    [Inches(horizontalCardGap)], [Inches(verticalCardGap)] and
    [Inches(verticalCardGap - 0.05)], integers in EMU;
    [cardTitleHeightFull] is [cardTitleHeightRaw + Inches(0.1)]. *)
Record Options : Type := mkOptions {
  cardLayout : string;
  cardTitlePosition : string;
  horizontalCardGap : Z;
  verticalCardGap : Z;
  verticalCardGapAbove : Z;
  marginBase : Z;
  cardTitleHeightFull : Z;
  cardPercent : Q
}.

Definition horizontal (o : Options) : bool := String.eqb (cardLayout o) "horizontal".

Definition titleAbove (o : Options) : bool := String.eqb (cardTitlePosition o) "above".

(** [cardAreaTop] *)
Definition cardAreaTop (rect : Split.Rectangle) (bulletCount : nat) (bulletsHeight : Z) : Z :=
  if (0 <? bulletCount)%nat then bulletsHeight + Split.top rect else Split.top rect.

(** [cardWidth]: the horizontal space less the gaps, divided among the
    cards, or all of it. *)
Definition cardWidth (o : Options) (rect : Split.Rectangle) (cardCount : nat) : Z :=
  if horizontal o
  then Z.quot (Split.width rect - horizontalCardGap o * (Z.of_nat cardCount - 1))
              (Z.of_nat cardCount)
  else Split.width rect.

(** [paddingFactor], of the vertical layout. *)
Definition paddingFactor (o : Options) : Z :=
  if titleAbove o then verticalCardGapAbove o else verticalCardGap o.

(** [cardHeight]: the whole card area, or
    [int(cardAreaHeight / cardCount - paddingFactor)]. *)
Definition cardHeight (o : Options) (cardAreaHeight : Z) (cardCount : nat) : Z :=
  if horizontal o then cardAreaHeight
  else ListBlock.Qtrunc (inject_Z cardAreaHeight / inject_Z (Z.of_nat cardCount)
                         - inject_Z (paddingFactor o))%Q.

(** [cardTitleHeight]: zero unless some card has a printable title. *)
Definition cardTitleHeight (o : Options) (cards : list Model.Card) : Z :=
  if existsb (fun card => negb (String.eqb (Model.title card) "&nbsp;")) cards
  then cardTitleHeightFull o else 0.

(** Where a card is put: the top and the left of the card (and of its
    title), the top of its background and of its body, and the width
    and the height of the card ([cardWidth], [cardHeight]); the
    background is as wide as the card and ends where the card ends. *)
Record CardFrame : Type := mkCardFrame {
  cardTop : Z;
  cardLeft : Z;
  backgroundTop : Z;
  bodyTop : Z;
  backgroundHeight : Z;
  frameWidth : Z;
  frameHeight : Z
}.

Definition cardFrames {B : Type} (o : Options) (rect : Split.Rectangle)
    (bullets : list B) (cards : list Model.Card) : list CardFrame :=
  let '(bulletsHeight, cardAreaHeight, cardCount) :=
    ListBlock.listBlockHeights bullets cards (Split.height rect) (cardPercent o) in
  let width := cardWidth o rect cardCount in
  let height := cardHeight o cardAreaHeight cardCount in
  let areaTop := cardAreaTop rect (length bullets) bulletsHeight in
  let titleHeight := cardTitleHeight o cards in
  imap (fun c _ =>
          let top :=
            if horizontal o then areaTop
            else (height + paddingFactor o) * Z.of_nat c + areaTop in
          let bgTop := if titleAbove o then top + titleHeight else top in
          let body := if titleAbove o then bgTop else bgTop + titleHeight in
          let left :=
            if horizontal o
            then marginBase o + Z.of_nat c * (width + horizontalCardGap o)
            else marginBase o in
          mkCardFrame top left bgTop body
            (if titleAbove o then height - titleHeight else height) width height)
       cards.

(** The card area of a list block: its top and its height. *)
Definition cardArea {B : Type} (o : Options) (rect : Split.Rectangle)
    (bullets : list B) (cards : list Model.Card) : Z * Z :=
  let '(bulletsHeight, cardAreaHeight, _) :=
    ListBlock.listBlockHeights bullets cards (Split.height rect) (cardPercent o) in
  (cardAreaTop rect (length bullets) bulletsHeight, cardAreaHeight).

End Cards.

(** ** The lines shown by [createCodeBlock] *)

Module CodeBlock.
Import Text.

Local Open Scope string_scope.

(** What the text box gets for a line of code: a run with a text, or,
    in a [<pre>] block for a line that holds [<span ], the runs the
    line is broken into by its spans, which are not followed here (the
    line is kept as it is after [resolveSymbols]). *)
Inductive Line : Type :=
| TextRun (text : string)
| SpanRuns (resolved : string).

(** What the block makes of its lines: it takes the branch of a
    diagram renderer ([handleGraphViz], [handleFunnel],
    [handleRunPython]), which is not followed here, or it fills a text
    box, under a code type, line by line. *)
Inductive Outcome : Type :=
| Handed
| CodeBox (codeType : string) (lines : list Line).

(** The code type of a block, from its first line; [None] when the
    info string of a fence selects a diagram renderer.  Whether it
    does (a type that starts with [dot] while GraphViz is installed,
    with [funnel] or with [run-python]) is taken as given:
    [selectsRenderer]. *)
Definition codeTypeOf (selectsRenderer : string -> bool) (first : string) : option string :=
  if startswith "<pre" first then Some "pre"
  else if startswith "<code" first then Some "code"
  else if startswith "```" first then
    if String.eqb first "```" then Some "backticks"
    else if selectsRenderer first then None else Some "backticks"
  else Some "indented".

(** [while codeLines\[-1\] == "": codeLines.pop(-1)], as far as it goes
    without running out of lines. *)
Fixpoint dropTrailingEmpty (codeLines : list string) : list string :=
  match codeLines with
  | [] => []
  | line :: rest =>
      match dropTrailingEmpty rest with
      | [] => if String.eqb line "" then [] else [line]
      | kept => line :: kept
      end
  end.

(** The lines left after the trailing empty lines, a leading
    [<pre>], [<code>] or fence line and a trailing [</pre>], [</code>]
    or fence line have been removed.  [None] is the [IndexError] of
    [codeLines\[-1\]] and [codeLines\[0\]] on a list that has run out of
    lines. *)
Definition shownLines (codeLines : list string) : option (list string) :=
  match dropTrailingEmpty codeLines with
  | [] => None
  | first :: rest =>
      let afterFirst :=
        if startswithOneOf first ["<pre>"; "<code>"; "```"] then rest
        else first :: rest in
      match last afterFirst with
      | None => None
      | Some lastLine =>
          Some (if startswithOneOf lastLine ["</pre>"; "</code>"; "```"]
                then removelast afterFirst else afterFirst)
      end
  end.

(** The body of the loops that add the code: the line goes through
    [resolveSymbols]; it becomes one run, with a newline at its end,
    unless the block is a [<pre>] block and the line splits at
    [<span ] into more than one fragment, that is, holds [<span ]. *)
Definition addCodeLine (resolveSymbols : string -> string) (codeType : string)
    (codeLine : string) : Line :=
  let codeLine := resolveSymbols codeLine in
  if String.eqb codeType "pre" && Table.contains "<span " codeLine
  then SpanRuns codeLine
  else TextRun (codeLine ++ String newline "").

(** [createCodeBlock], up to the text of the runs of the text box.
    [resolveSymbols], which replaces entity references and the like,
    is taken as given. *)
Definition createCodeBlock (selectsRenderer : string -> bool)
    (resolveSymbols : string -> string)
    (slideCode : list (list string)) (codeBlockNumber : nat) : option Outcome :=
  match slideCode !! codeBlockNumber with
  | None => None
  | Some codeLines =>
      match codeLines with
      | [] => None
      | first :: _ =>
          match codeTypeOf selectsRenderer first with
          | None => Some Handed
          | Some codeType =>
              option_map
                (fun lines => CodeBox codeType (map (addCodeLine resolveSymbols codeType) lines))
                (shownLines codeLines)
          end
      end
  end.

End CodeBlock.

(** ** Pass 2 of [cli]: lines joined with their continuations *)

Module Concat.
Import Text.

Local Open Scope string_scope.

(** The variables of the pass. *)
Record State : Type := mkState {
  previousLine : string;
  linesAfterConcatenation : list string;
  inHTMLCode : bool;
  inCode : bool
}.

Definition blankLine : string := String newline "".

(** The state before the first line. *)
Definition initial : State := mkState blankLine [] false false.

(** [c in r"*#\|0123456789!"] *)
Definition keepsApart (c : ascii) : bool :=
  existsb (Ascii.eqb c) (list_ascii_of_string "*#\|0123456789!").

(** [linesAfterConcatenation.append(line)] *)
Definition copy (line : string) (st : State) : State :=
  mkState line (linesAfterConcatenation st ++ [line])%list (inHTMLCode st) (inCode st).

(** One iteration of the loop; [None] is an [IndexError]
    ([previousLine\[0\]] on an empty line, [\[-1\]] on an empty list). *)
Definition step (st : State) (line : string) : option State :=
  if startswithOneOf line ["<pre>"; "<code>"] then
    Some (mkState line (linesAfterConcatenation st ++ [line])%list true (inCode st))
  else if startswithOneOf line ["</pre>"; "</code>"] then
    Some (mkState line (linesAfterConcatenation st ++ [line])%list false (inCode st))
  else if startswith "```" line then
    Some (mkState line (linesAfterConcatenation st ++ [line])%list (inHTMLCode st)
            (negb (inCode st)))
  else if String.eqb line blankLine then Some (copy line st)
  else if String.eqb (previousLine st) blankLine then Some (copy line st)
  else if startswith "<!-- md2pptx: " line then Some (copy line st)
  else if startswith "<a id=" line then Some (copy line st)
  else if startswithOneOf line ["<video "; "<audio "] then Some (copy line st)
  else
    match lstrip line with
    | EmptyString => Some (copy line st)
    | String c _ =>
        if negb (keepsApart c) then
          match previousLine st with
          | EmptyString => None
          | String p0 _ =>
              if negb (String.eqb (take 2 (previousLine st)) "# ")
                 && negb (String.eqb (take 3 (previousLine st)) "## ")
                 && negb (String.eqb (take 4 (previousLine st)) "    ")
                 && negb (Ascii.eqb p0 "|")
                 && negb (inCode st) && negb (inHTMLCode st)
              then
                option_map
                  (fun joined => mkState line joined (inHTMLCode st) (inCode st))
                  (Compiler.updateLast
                     (fun last => rstrip last ++ " " ++ lstrip line)
                     (linesAfterConcatenation st))
              else Some (copy line st)
          end
        else Some (copy line st)
    end.

Fixpoint run (st : State) (lines : list string) : option State :=
  match lines with
  | [] => Some st
  | line :: rest =>
      match step st line with
      | None => None
      | Some st' => run st' rest
      end
  end.

(** The pass: the lines after concatenation. *)
Definition concatenate (afterMetadataAndHTML : list string) : option (list string) :=
  option_map linesAfterConcatenation (run initial afterMetadataAndHTML).

End Concat.

(** ** The content area of a slide *)

Module Content.

Local Open Scope Z_scope.

(** [getContentRect(presentation, slide, topOfContent, margin)]:
    [(rectLeft, rectWidth, rectTop, rectHeight)]. *)
Definition getContentRect (slide_width slide_height topOfContent margin numbersHeight : Z)
  : Z * Z * Z * Z :=
  let rectLeft := margin in
  let rectWidth := slide_width - 2 * margin in
  if topOfContent =? 0 then
    (rectLeft, rectWidth, margin, slide_height - margin - Z.max margin numbersHeight)
  else
    let rectTop := topOfContent + margin in
    (rectLeft, rectWidth, rectTop, slide_height - rectTop - Z.max margin numbersHeight).

(** The rendering rectangles of a content slide: the content area of
    [getContentRect], below a title that ends at [slideTitleBottom],
    split among the blocks of [sequence]. *)
Definition slideBlocks (direction : string)
    (slide_width slide_height slideTitleBottom marginBase numbersHeight : Z)
    (contentSplit : list Z) (sequence : list Split.BlockKind)
  : option (list Split.Rectangle) :=
  let '(contentLeft, contentWidth, contentTop, contentHeight) :=
    getContentRect slide_width slide_height slideTitleBottom marginBase numbersHeight in
  Split.renderingRectangles direction
    (Split.mkRectangle contentTop contentLeft contentHeight contentWidth)
    contentSplit sequence.

End Content.


(** ** The item size and the gaps of [createTOCSlide] *)

Module TocStyle.

Local Open Scope Q_scope.

(** [Inches(x)] of python-pptx: [int(x * 914400)] English Metric
    Units. *)
Definition Inches (x : Q) : Z := Toc.Qtrunc (x * 914400).

(** The styles that are laid out on a grid. *)
Inductive Style : Type := chevron | circle.

(** The values [createTOCSlide] computes the grid from: the item
    height from the option [TOCItemHeight] (1 inch for a chevron and
    1.25 inches for a circle when the option is 0), the item width and
    the gap between entries from the style, the gap between rows from
    the option [TOCRowGap], and the content height from
    [getContentRect] below [slideTitleBottom] (the bottom of the
    formatted title on the slide of the table of contents, [marginBase]
    on a section slide, whose title shape is deleted). *)
Definition params (tocStyle : Style) (TOCItemHeight TOCRowGap : Q)
    (slide_width slide_height marginBase numbersHeight slideTitleBottom : Z)
  : Toc.Params :=
  let '(_, _, _, contentHeight) :=
    Content.getContentRect slide_width slide_height slideTitleBottom marginBase
      numbersHeight in
  let height0 := Inches TOCItemHeight in
  let '(height, width, entryGap) :=
    match tocStyle with
    | chevron =>
        let height := if (height0 =? 0)%Z then Inches 1 else height0 in
        (height, inject_Z height * (5 # 2),
         Inches (- (1 # 2) * inject_Z height / inject_Z (Inches 1)))
    | circle =>
        let height := if (height0 =? 0)%Z then Inches (5 # 4) else height0 in
        (height, inject_Z height, Inches (1 # 2))
    end in
  Toc.mkParams (inject_Z slide_width) (inject_Z marginBase) width (inject_Z height)
    (inject_Z entryGap) (inject_Z (Inches TOCRowGap))
    (inject_Z slideTitleBottom) (inject_Z contentHeight).

End TocStyle.
(** ** Facts about picture scaling *)

Section ScaleFacts.
Import Scale.
Local Open Scope Q_scope.

Lemma Qgtb_lt (a b : Q) : Qgtb a b = true <-> b < a.
Proof.
  unfold Qgtb. rewrite negb_true_iff. split; intros H.
  - apply Qnot_le_lt. intros Hle. apply Qle_bool_iff in Hle. congruence.
  - destruct (Qle_bool a b) eqn:E; [|reflexivity].
    apply Qle_bool_iff in E. exfalso. exact (Qlt_not_le _ _ H E).
Qed.

Lemma Qgtb_le (a b : Q) : Qgtb a b = false <-> a <= b.
Proof.
  unfold Qgtb. rewrite negb_false_iff. apply Qle_bool_iff.
Qed.

Lemma nonzero_of_pos (x : Q) : 0 < x -> Qeq_bool x 0 = false.
Proof.
  intros H. destruct (Qeq_bool x 0) eqn:E; [|reflexivity].
  apply Qeq_bool_iff in E. rewrite E in H. exfalso. exact (Qlt_irrefl _ H).
Qed.

(** For a positive divisor, comparing a quotient is comparing the
    cross product. *)
Lemma div_gt_iff (a b c : Q) : 0 < c -> (b < a / c <-> b * c < a).
Proof.
  intros Hc.
  assert (Hn : ~ c == 0) by (intros E; rewrite E in Hc; exact (Qlt_irrefl _ Hc)).
  assert (E : a / c * c == a) by (field; exact Hn).
  rewrite <- (Qmult_lt_r _ _ c Hc). rewrite E. reflexivity.
Qed.

Lemma div_le_iff (a b c : Q) : 0 < c -> (a / c <= b <-> a <= b * c).
Proof.
  intros Hc. split; intros H.
  - apply Qnot_lt_le. intros Hlt. apply (div_gt_iff a b c Hc) in Hlt.
    exact (Qlt_not_le _ _ Hlt H).
  - apply Qnot_lt_le. intros Hlt. apply (div_gt_iff a b c Hc) in Hlt.
    exact (Qlt_not_le _ _ Hlt H).
Qed.

Lemma div_eq_iff (a b c : Q) : 0 < c -> (a / c == b <-> a == b * c).
Proof.
  intros Hc.
  assert (Hn : ~ c == 0) by (intros E; rewrite E in Hc; exact (Qlt_irrefl _ Hc)).
  split; intros H.
  - rewrite <- H. field. exact Hn.
  - rewrite H. field. exact Hn.
Qed.

Lemma scalePicture_by_height (maxW maxH w h : Q) :
  0 < w -> 0 < h -> maxH < maxW * h / w ->
  scalePicture maxW maxH w h = Some (maxH * w / h, maxH, true).
Proof.
  intros Hw Hh Hgt. unfold scalePicture.
  rewrite (nonzero_of_pos w Hw), (nonzero_of_pos h Hh). simpl.
  apply Qgtb_lt in Hgt. rewrite Hgt. reflexivity.
Qed.

Lemma scalePicture_by_width (maxW maxH w h : Q) :
  0 < w -> 0 < h -> maxW * h / w <= maxH ->
  scalePicture maxW maxH w h = Some (maxW, maxW * h / w, false).
Proof.
  intros Hw Hh Hle. unfold scalePicture.
  rewrite (nonzero_of_pos w Hw), (nonzero_of_pos h Hh). simpl.
  apply Qgtb_le in Hle. rewrite Hle. reflexivity.
Qed.

(** C1, as stated, fails: a picture with the aspect ratio of its box
    (here 8 x 6 in a 4 x 3 box) is scaled to the whole box, so both
    [picW == maxW] and [picH == maxH] hold, not exactly one of them. *)
Lemma scalePicture_same_ratio_touches_both :
  scalePicture 4 3 8 6 = Some (4, 4 * 6 / 8, false) /\
  4 * 6 / 8 == 3 /\
  ~ touches_exactly_one 4 3 (scalePicture 4 3 8 6).
Proof.
  split; [reflexivity|]. split; [reflexivity|].
  intros [[_ H] | [H _]]; apply H; reflexivity.
Qed.

(** C1 (amended): for positive box bounds and positive natural
    dimensions, [scalePicture] returns dimensions with [picW <= maxW] and
    [picH <= maxH], at least one of [picW == maxW], [picH == maxH] holds,
    and both hold exactly when box and picture have the same aspect
    ratio; if [maxW*h/w > maxH] the result is
    [(maxH*w/h, maxH)], else [(maxW, maxW*h/w)]. *)
Theorem scalePicture_fits_and_touches (maxW maxH w h : Q) :
  0 < maxW -> 0 < maxH -> 0 < w -> 0 < h ->
  exists picW picH usingHeightToScale,
    scalePicture maxW maxH w h = Some (picW, picH, usingHeightToScale) /\
    picW <= maxW /\ picH <= maxH /\
    (picW == maxW \/ picH == maxH) /\
    ((picW == maxW /\ picH == maxH) <-> maxW * h == maxH * w) /\
    (maxH < maxW * h / w ->
       picW = maxH * w / h /\ picH = maxH /\ usingHeightToScale = true) /\
    (maxW * h / w <= maxH ->
       picW = maxW /\ picH = maxW * h / w /\ usingHeightToScale = false).
Proof.
  intros HW HH Hw Hh.
  destruct (Qlt_le_dec maxH (maxW * h / w)) as [Hgt | Hle].
  - exists (maxH * w / h), maxH, true.
    pose proof (proj1 (div_gt_iff _ _ _ Hw) Hgt) as Hx.
    split; [apply scalePicture_by_height; assumption|].
    split; [apply div_le_iff; [exact Hh | apply Qlt_le_weak; exact Hx]|].
    split; [apply Qle_refl|].
    split; [right; reflexivity|].
    split.
    + split.
      * intros [E _]. apply div_eq_iff in E; [|exact Hh].
        rewrite E in Hx. exfalso. exact (Qlt_irrefl _ Hx).
      * intros E. rewrite E in Hx. exfalso. exact (Qlt_irrefl _ Hx).
    + split; [intros _; repeat split|].
      intros Hle. exfalso. exact (Qlt_not_le _ _ Hgt Hle).
  - exists maxW, (maxW * h / w), false.
    split; [apply scalePicture_by_width; assumption|].
    split; [apply Qle_refl|].
    split; [exact Hle|].
    split; [left; reflexivity|].
    split.
    + split.
      * intros [_ E]. apply div_eq_iff in E; assumption.
      * intros E. split; [reflexivity|]. apply div_eq_iff; assumption.
    + split; [|intros _; repeat split].
      intros Hgt. exfalso. exact (Qlt_not_le _ _ Hgt Hle).
Qed.

Lemma scalePicture_fits_and_touches_witness :
  exists picW picH usingHeightToScale,
    scalePicture 400 300 200 300 = Some (picW, picH, usingHeightToScale) /\
    picW <= 400 /\ picH <= 300 /\
    (picW == 400 \/ picH == 300) /\
    ((picW == 400 /\ picH == 300) <-> 400 * 300 == 300 * 200) /\
    (300 < 400 * 300 / 200 ->
       picW = 300 * 200 / 300 /\ picH = 300 /\ usingHeightToScale = true) /\
    (400 * 300 / 200 <= 300 ->
       picW = 400 /\ picH = 400 * 300 / 200 /\ usingHeightToScale = false).
Proof.
  apply (scalePicture_fits_and_touches 400 300 200 300); reflexivity.
Defined.

End ScaleFacts.

(** ** Facts about the content-area split *)

Section SplitFacts.
Import Split.
Local Open Scope Z_scope.

Lemma fold_left_add_acc (l : list Z) (a : Z) :
  fold_left Z.add l a = a + fold_left Z.add l 0.
Proof.
  revert a. induction l as [|x l IH]; intros a; simpl.
  - lia.
  - rewrite (IH (a + x)), (IH (0 + x)). lia.
Qed.

Lemma placeBlocks_length direction content all weights v h :
  length (placeBlocks direction content all weights v h) = length weights.
Proof.
  revert v h. induction weights as [|w ws IH]; intros v h; simpl; [reflexivity|].
  destruct (String.eqb direction "vertical"); simpl; rewrite IH; reflexivity.
Qed.

(** Block [i] of the loop: the cursor of its axis has advanced by the
    shares of the blocks before it. *)
Lemma placeBlocks_lookup direction content all weights v h (i : nat) (w : Z) :
  weights !! i = Some w ->
  placeBlocks direction content all weights v h !! i =
  Some (if String.eqb direction "vertical" then
          mkRectangle
            (v + fold_left Z.add
                   (map (fun x => share (height content) x all) (take i weights)) 0)
            (left content) (share (height content) w all) (width content)
        else
          mkRectangle (top content)
            (h + fold_left Z.add
                   (map (fun x => share (width content) x all) (take i weights)) 0)
            (height content) (share (width content) w all)).
Proof.
  revert v h i. induction weights as [|x ws IH]; intros v h i Hi; [discriminate|].
  destruct i as [|i].
  - injection Hi as ->. cbn [placeBlocks take map fold_left].
    destruct (String.eqb direction "vertical"); cbn; do 2 f_equal; lia.
  - cbn [placeBlocks take map fold_left].
    change ((x :: ws) !! S i) with (ws !! i) in Hi.
    destruct (String.eqb direction "vertical") eqn:E;
      (etransitivity; [exact (IH _ _ i Hi)|]); do 2 f_equal;
      rewrite (fold_left_add_acc _ (0 + _)); lia.
Qed.

Lemma dispatch_length kinds rects t c :
  length kinds = length rects ->
  length (dispatch kinds rects t c) = length kinds.
Proof.
  revert rects t c. induction kinds as [|k ks IH]; intros [|r rs] t c H;
    simpl in *; try discriminate; [reflexivity|].
  destruct k; simpl; rewrite IH; auto.
Qed.

Lemma dispatch_lookup kinds rects t c (i : nat) k r :
  kinds !! i = Some k -> rects !! i = Some r ->
  exists call, dispatch kinds rects t c !! i = Some call /\
               callKind call = k /\ callRectangle call = r.
Proof.
  revert rects t c i. induction kinds as [|k0 ks IH]; intros [|r0 rs] t c i Hk Hr;
    try discriminate.
  destruct i as [|i]; simpl in *.
  - injection Hk as ->. injection Hr as ->.
    destruct k; eexists; (split; [reflexivity|split; reflexivity]).
  - destruct k0; simpl; eapply IH; eassumption.
Qed.

(** C3, as stated, fails on its example: under the "vertical" split the
    source divides the height and gives every block the whole width, so
    two blocks of weights 1 and 1 in a 300 wide (and 200 high) region are
    both 300 wide, not 150.  The last part fails too when the only
    block's weight is 0: the share is a division by that weight. *)
Lemma vertical_split_keeps_full_width :
  renderingRectangles "vertical" (mkRectangle 0 0 200 300)
    [1; 1; 1; 1; 1; 1; 1; 1; 1; 1] [KList; KTable]
  = Some [mkRectangle 0 0 100 300; mkRectangle 100 0 100 300] /\
  width (mkRectangle 0 0 100 300) <> 150 /\
  renderingRectangles "vertical" (mkRectangle 0 0 200 300)
    [0; 1; 1; 1; 1; 1; 1; 1; 1; 1] [KList] = None.
Proof.
  split; [reflexivity|]. split; [|reflexivity]. simpl. lia.
Qed.

(** C3 (amended): with enough weights and a non-zero sum of the weights
    of the rendered blocks, block [i] receives
    [int(totalExtent * weight_i / sum)] along the configured split axis
    (the height under "vertical", the width otherwise), starting where
    the blocks before it end, and the full extent along the other axis;
    the blocks are handed out in [sequence] order; a slide with exactly
    one block receives the full region. *)
Theorem content_split_shares direction content (contentSplit : list Z)
    (sequence : list BlockKind) (all : Z) :
  (blocksToRender sequence <= length contentSplit)%nat ->
  fold_left Z.add (take (blocksToRender sequence) contentSplit) 0 = all ->
  all <> 0 ->
  exists rects calls,
    renderingRectangles direction content contentSplit sequence = Some rects /\
    renderBlocks direction content contentSplit sequence = Some calls /\
    length rects = blocksToRender sequence /\
    (forall (i : nat) (w : Z) k,
        contentSplit !! i = Some w -> sequence !! i = Some k ->
        (i < blocksToRender sequence)%nat ->
        rects !! i = Some (blockRectangle direction content all contentSplit i w) /\
        exists call, calls !! i = Some call /\ callKind call = k /\
          callRectangle call = blockRectangle direction content all contentSplit i w) /\
    (blocksToRender sequence = 1%nat -> rects = [content]).
Proof.
  intros Hlen Hsum Hall.
  set (n := blocksToRender sequence) in *.
  assert (HR : renderingRectangles direction content contentSplit sequence =
               Some (placeBlocks direction content all (take n contentSplit)
                       (top content) (left content))).
  { unfold renderingRectangles, allContentSplit. fold n.
    destruct (Nat.leb_spec n (length contentSplit)) as [_|Hlt]; [|lia].
    rewrite Hsum. destruct (Z.eqb_spec all 0) as [E|_]; [contradiction|].
    reflexivity. }
  assert (Hrect : forall (i : nat) (w : Z), contentSplit !! i = Some w -> (i < n)%nat ->
            placeBlocks direction content all (take n contentSplit)
              (top content) (left content) !! i =
            Some (blockRectangle direction content all contentSplit i w)).
  { intros i w Hw Hi.
    rewrite (placeBlocks_lookup _ _ _ _ _ _ i w).
    - unfold blockRectangle, offsetBefore.
      rewrite take_take, Nat.min_l by lia. reflexivity.
    - rewrite lookup_take_lt by exact Hi. exact Hw. }
  eexists. eexists.
  split; [exact HR|].
  split; [unfold renderBlocks; rewrite HR; reflexivity|].
  split; [rewrite placeBlocks_length, length_take; lia|].
  split.
  - intros i w k Hw Hk Hi. split; [apply Hrect; assumption|].
    apply dispatch_lookup; [|apply Hrect; assumption].
    fold n. rewrite lookup_take_lt by exact Hi. exact Hk.
  - intros Hone. rewrite Hone in *.
    destruct contentSplit as [|w cs]; [simpl in Hlen; lia|].
    simpl in Hsum. simpl.
    assert (Hw : w = all) by lia. subst w.
    unfold share. rewrite !Z.quot_mul by exact Hall.
    destruct content; destruct (String.eqb direction "vertical"); reflexivity.
Qed.

(** The example of C3 with the axis the source divides the width on:
    weights 1 and 1 over two blocks in a 300 wide region under the
    "horizontal" split give two blocks 150 wide. *)
Lemma content_split_shares_witness :
  exists rects calls,
    renderingRectangles "horizontal" (mkRectangle 0 0 200 300)
      [1; 1; 1; 1; 1; 1; 1; 1; 1; 1] [KList; KTable] = Some rects /\
    renderBlocks "horizontal" (mkRectangle 0 0 200 300)
      [1; 1; 1; 1; 1; 1; 1; 1; 1; 1] [KList; KTable] = Some calls /\
    length rects = blocksToRender [KList; KTable] /\
    (forall (i : nat) (w : Z) k,
        [1; 1; 1; 1; 1; 1; 1; 1; 1; 1] !! i = Some w ->
        [KList; KTable] !! i = Some k ->
        (i < blocksToRender [KList; KTable])%nat ->
        rects !! i = Some (blockRectangle "horizontal" (mkRectangle 0 0 200 300) 2
                             [1; 1; 1; 1; 1; 1; 1; 1; 1; 1] i w) /\
        exists call, calls !! i = Some call /\ callKind call = k /\
          callRectangle call = blockRectangle "horizontal" (mkRectangle 0 0 200 300) 2
                                 [1; 1; 1; 1; 1; 1; 1; 1; 1; 1] i w) /\
    (blocksToRender [KList; KTable] = 1%nat -> rects = [mkRectangle 0 0 200 300]).
Proof.
  apply (content_split_shares "horizontal" (mkRectangle 0 0 200 300)
           [1; 1; 1; 1; 1; 1; 1; 1; 1; 1] [KList; KTable] 2).
  - vm_compute. lia.
  - reflexivity.
  - lia.
Defined.

Example horizontal_split_300_gives_150 :
  renderingRectangles "horizontal" (mkRectangle 0 0 200 300)
    [1; 1; 1; 1; 1; 1; 1; 1; 1; 1] [KList; KTable]
  = Some [mkRectangle 0 0 200 150; mkRectangle 0 150 200 150].
Proof. reflexivity. Qed.

End SplitFacts.

(** ** Facts about the card apportionment of [createListBlock] *)

Section ListBlockFacts.
Import ListBlock.
Local Open Scope Z_scope.

(** C10: when a slide has at least one card, an empty bullet list gives
    the card area the full height of the rendering rectangle (and the
    bullets shape height 0); the [cardPercent] apportionment, bullets
    region [int(height * (100 - cardPercent) / 100)] and cards the
    remainder, is applied only when there is at least one bullet. *)
Theorem card_area_full_height_without_bullets {B C : Type}
    (bullets : list B) (cards : list C) (rectHeight : Z) (cardPercent : Q) :
  cards <> [] ->
  (bullets = [] ->
     listBlockHeights bullets cards rectHeight cardPercent
     = (0, rectHeight, length cards)) /\
  (bullets <> [] ->
     listBlockHeights bullets cards rectHeight cardPercent
     = (Qtrunc (inject_Z rectHeight * (100 - cardPercent) / 100)%Q,
        rectHeight - Qtrunc (inject_Z rectHeight * (100 - cardPercent) / 100)%Q,
        length cards)).
Proof.
  intros Hc. destruct cards as [|c cs]; [contradiction|].
  split; intros Hb.
  - subst bullets. reflexivity.
  - destruct bullets as [|b bs]; [contradiction|]. reflexivity.
Qed.

Lemma card_area_full_height_without_bullets_witness :
  (@nil nat = [] ->
     listBlockHeights (@nil nat) [7%nat; 8%nat] 1000 80
     = (0, 1000, 2%nat)) /\
  (@nil nat <> [] ->
     listBlockHeights (@nil nat) [7%nat; 8%nat] 1000 80
     = (Qtrunc (inject_Z 1000 * (100 - 80) / 100)%Q,
        1000 - Qtrunc (inject_Z 1000 * (100 - 80) / 100)%Q,
        2%nat)).
Proof.
  apply (card_area_full_height_without_bullets (@nil nat) [7%nat; 8%nat] 1000 80).
  discriminate.
Defined.

Example card_percent_with_bullets :
  listBlockHeights [1%nat] [7%nat; 8%nat] 1000 80 = (200, 800, 2%nat).
Proof. reflexivity. Qed.

End ListBlockFacts.

(** ** Facts about footnote pagination *)

Section FootnoteFacts.
Import Model Footnotes.

Variables (footnotesTitle : string) (cardsArg : list Card) (p : nat).
Hypothesis p_pos : 0 < p.

Lemma mod_zero_iff_full (q r : nat) :
  1 <= r <= p ->
  (Z.of_nat (q * p + r) mod Z.of_nat p =? 0)%Z = true <-> r = p.
Proof using p_pos.
  intros Hr. rewrite Z.eqb_eq. split.
  - intros H. destruct (Nat.eq_dec r p) as [|Hne]; [assumption|exfalso].
    assert (Hm : (Z.of_nat (q * p + r) mod Z.of_nat p = Z.of_nat r)%Z)
      by (symmetry; apply Z.mod_unique with (q := Z.of_nat q); lia).
    lia.
  - intros ->. symmetry.
    apply Z.mod_unique with (q := Z.of_nat (S q)); lia.
Qed.

Lemma step_paged (count k : nat) (st : State) (f : string * string) :
  1 <= k -> paged p k st ->
  paged p (S k) (step footnotesTitle cardsArg count (Z.of_nat p) st k f).
Proof using p_pos.
  intros Hk (q & r & Hkq & Hr & Hs & Hall & Hb).
  unfold step.
  destruct (Z.of_nat k mod Z.of_nat p =? 0)%Z eqn:E.
  - rewrite Hkq in E. apply mod_zero_iff_full in E; [|exact Hr].
    destruct (Nat.ltb_spec 0 k) as [_|]; [|lia].
    exists (S q), 1. cbn. repeat split; try lia.
    + rewrite length_app. cbn. lia.
    + apply Forall_app. split; [exact Hall|].
      constructor; [cbn; lia|constructor].
  - assert (Hne : r <> p).
    { intros ->. rewrite Hkq in E.
      assert (H' : (Z.of_nat (q * p + p) mod Z.of_nat p =? 0)%Z = true)
        by (apply mod_zero_iff_full; lia).
      congruence. }
    exists q, (S r). cbn. repeat split; try lia; try assumption.
    rewrite length_app. cbn. lia.
Qed.

Lemma loop_paged (count : nat) (fs : list (string * string)) (k : nat) (st : State) :
  1 <= k -> paged p k st ->
  paged p (k + length fs) (loop footnotesTitle cardsArg count (Z.of_nat p) fs k st).
Proof using p_pos.
  revert k st. induction fs as [|f fs IH]; intros k st Hk Hp; cbn.
  - rewrite Nat.add_0_r. exact Hp.
  - replace (k + S (length fs)) with (S k + length fs) by lia.
    apply IH; [lia|]. apply step_paged; assumption.
Qed.

Lemma first_step_paged (count : nat) (f : string * string) :
  paged p 1 (step footnotesTitle cardsArg count (Z.of_nat p) (mkState [] [] 0) 0 f).
Proof using p_pos.
  unfold step. change (Z.of_nat 0) with 0%Z. rewrite Z.mod_0_l by lia.
  exists 0, 1. cbn. repeat split; try lia. constructor.
Qed.

Lemma ceilDiv_pages (q r : nat) : 1 <= r <= p -> ceilDiv (q * p + r) p = S q.
Proof using p_pos.
  intros Hr. unfold ceilDiv. symmetry.
  apply (Nat.div_unique _ _ _ (r - 1)); lia.
Qed.

(** C8: for a non-empty list of N footnote definitions and a page size
    P = footnotesPerPage > 0, [createFootnoteSlides] creates exactly
    ceil(N/P) slides; every slide except the last holds exactly P items,
    and the last holds between 1 and P. *)
Theorem footnote_pages (footnoteDefinitions : list (string * string)) :
  footnoteDefinitions <> [] ->
  exists slides,
    createFootnoteSlides footnotesTitle cardsArg (Z.of_nat p) footnoteDefinitions
      = Some slides /\
    length slides = ceilDiv (length footnoteDefinitions) p /\
    (forall (i : nat) s, slides !! i = Some s -> S i < length slides ->
       length (slideBullets s) = p) /\
    (forall s, last slides = Some s -> 1 <= length (slideBullets s) <= p).
Proof using p_pos.
  intros Hne. destruct footnoteDefinitions as [|f fs]; [contradiction|].
  unfold createFootnoteSlides.
  destruct (Z.eqb_spec (Z.of_nat p) 0) as [E|_]; [lia|].
  cbn [loop].
  pose proof (loop_paged (length (f :: fs)) fs 1 _ (Nat.le_refl 1)
                (first_step_paged (length (f :: fs)) f))
    as (q & r & Hk & Hr & Hs & Hall & Hb).
  eexists. split; [reflexivity|].
  cbn [emitPage footnoteSlides].
  split; [|split].
  - rewrite length_app, Hs. cbn [length].
    assert (HN : length (f :: fs) = q * p + r) by (cbn [length]; lia).
    transitivity (S q); [lia|]. rewrite <- (ceilDiv_pages q r Hr).
    f_equal. exact (eq_sym HN).
  - intros i s Hi Hlt. rewrite length_app, Hs in Hlt.
    change (length [_]) with 1 in Hlt.
    rewrite lookup_app_l in Hi by (rewrite Hs; lia).
    rewrite Forall_lookup in Hall. exact (Hall i s Hi).
  - intros s Hlast. rewrite last_snoc in Hlast. injection Hlast as <-.
    change (1 <= length (pageBullets
              (loop footnotesTitle cardsArg (length (f :: fs)) (Z.of_nat p) fs 1
                 (step footnotesTitle cardsArg (length (f :: fs)) (Z.of_nat p)
                    (mkState [] [] 0) 0 f))) <= p).
    rewrite Hb. lia.
Qed.

End FootnoteFacts.

Lemma footnote_pages_witness :
  exists slides,
    Footnotes.createFootnoteSlides "Footnotes" [] (Z.of_nat 2)
      [("a", "one"); ("b", "two"); ("c", "three")]%string = Some slides /\
    length slides = Footnotes.ceilDiv (length [("a", "one"); ("b", "two"); ("c", "three")]%string) 2 /\
    (forall (i : nat) s, slides !! i = Some s -> S i < length slides ->
       length (Model.slideBullets s) = 2) /\
    (forall s, last slides = Some s -> 1 <= length (Model.slideBullets s) <= 2).
Proof.
  apply (footnote_pages "Footnotes" [] 2); [lia | discriminate].
Defined.

Example footnote_pages_three_by_two :
  option_map (map (fun s => map Model.bulletText (Model.slideBullets s)))
    (Footnotes.createFootnoteSlides "Footnotes" [] 2
       [("a", "one"); ("b", "two"); ("c", "three")]%string)
  = Some [["1. one"; "2. two"]; ["3. three"]]%string.
Proof. reflexivity. Qed.

(** ** Facts about the table-of-contents wrap grid *)

Section TocFacts.
Import Toc.
Local Open Scope Q_scope.

Lemma succ_div_mod (E k : nat) :
  (0 < E)%nat ->
  (S (k mod E) = E -> (S k mod E = 0 /\ S k / E = S (k / E))%nat) /\
  (S (k mod E) <> E -> (S k mod E = S (k mod E) /\ S k / E = k / E)%nat).
Proof.
  intros HE.
  pose proof (Nat.div_mod_eq k E) as Hk.
  pose proof (Nat.mod_upper_bound k E ltac:(lia)) as Hlt.
  split; intros H.
  - split.
    + symmetry. apply (Nat.mod_unique _ _ (S (k / E))); lia.
    + symmetry. apply (Nat.div_unique _ _ _ 0%nat); lia.
  - split.
    + symmetry. apply (Nat.mod_unique _ _ (k / E)); lia.
    + symmetry. apply (Nat.div_unique _ _ _ (S (k mod E))); lia.
Qed.

(** The loop places the entry at index [k + i] in the cell of column
    [(k + i) mod E] and row [(k + i) / E], when it is entered at index [k]
    in the state the loop has there. *)
Lemma place_lookup {A : Type} (g : Params) (E : nat) (left top : Q)
    (entries : list A) (k : nat) (x y : Q) (i : nat) (e : A) :
  (0 < E)%nat ->
  x == fst (cell g E left top k) ->
  y == snd (cell g E left top k) ->
  entries !! i = Some e ->
  exists c,
    place g (Z.of_nat E) left entries x y (Z.of_nat (k mod E) + 1)%Z !! i = Some c /\
    sameCell c (cell g E left top (k + i)).
Proof.
  intros HE. revert k x y i.
  induction entries as [|a rest IH]; intros k x y i Hx Hy Hi; [discriminate|].
  cbn [place].
  destruct (succ_div_mod E k HE) as [Hfull Hpart].
  destruct i as [|i].
  - exists (x, y). rewrite Nat.add_0_r.
    split; [destruct (_ =? _)%Z; reflexivity|]. split; assumption.
  - change ((a :: rest) !! S i) with (rest !! i) in Hi.
    replace (k + S i)%nat with (S k + i)%nat by lia.
    destruct (Z.eqb_spec (Z.of_nat (k mod E) + 1 + 1) (Z.of_nat E + 1)) as [Heq|Hne].
    + destruct Hfull as [Hm Hd]; [lia|].
      change ((?c :: ?l) !! S i) with (l !! i).
      replace 1%Z with (Z.of_nat (S k mod E) + 1)%Z by (rewrite Hm; reflexivity).
      apply IH; [| |exact Hi]; unfold cell; cbn [fst snd]; rewrite ?Hm, ?Hd.
      * change (inject_Z (Z.of_nat 0)) with 0. ring.
      * rewrite Hy. unfold cell. cbn [snd].
        rewrite Nat2Z.inj_succ, <- Z.add_1_r, inject_Z_plus.
        change (inject_Z 1) with 1. ring.
    + destruct Hpart as [Hm Hd]; [lia|].
      change ((?c :: ?l) !! S i) with (l !! i).
      replace (Z.of_nat (k mod E) + 1 + 1)%Z with (Z.of_nat (S k mod E) + 1)%Z
        by (rewrite Hm; lia).
      apply IH; [| |exact Hi]; unfold cell; cbn [fst snd]; rewrite ?Hm, ?Hd.
      * rewrite Hx. unfold cell. cbn [fst].
        rewrite Nat2Z.inj_succ, <- Z.add_1_r, inject_Z_plus.
        change (inject_Z 1) with 1. ring.
      * rewrite Hy. unfold cell. cbn [snd]. reflexivity.
Qed.

(** With a positive number [E] of entries per row, entry [i] is drawn
    in column [i mod E] of row [i / E]: the position advances by
    [width + entryGap] along a row and wraps (x back to the left edge, y
    advanced by [rowGap + height]) after every [E] entries. *)
Lemma grid_positions {A : Type} (g : Params) (TOCEntries : list A) (G : Grid)
    (E : nat) (i : nat) (e : A) :
  grid g TOCEntries = Some G -> entriesPerRow G = Z.of_nat E -> (0 < E)%nat ->
  TOCEntries !! i = Some e ->
  exists c, positions G !! i = Some c /\ sameCell c (cell g E (left G) (top G) i).
Proof.
  unfold grid. intros HG HE Hpos Hi.
  destruct (TOCEntriesPerRow g) as [perRow|]; [|discriminate].
  destruct (rowCount (length TOCEntries) perRow) as [rc|]; [|discriminate].
  injection HG as <-. cbn [entriesPerRow] in HE. subst perRow.
  cbn [positions left top].
  pose proof (place_lookup g E (TOCleft g (Z.of_nat E)) (TOCtop g rc)
                TOCEntries 0 (TOCleft g (Z.of_nat E)) (TOCtop g rc) i e Hpos) as H.
  rewrite Nat.Div0.mod_0_l in H. apply H; [| |exact Hi];
    unfold cell; cbn [fst snd]; rewrite ?Nat.Div0.mod_0_l, ?Nat.Div0.div_0_l;
    change (inject_Z (Z.of_nat 0)) with 0; ring.
Qed.

(** The entries-per-row count is the truncated quotient of the available
    width by the item pitch. *)
Lemma entries_per_row_formula (g : Params) :
  ~ width g + entryGap g == 0 ->
  TOCEntriesPerRow g =
  Some (Qtrunc ((slide_width g - 2 * marginBase g) / (width g + entryGap g))).
Proof.
  intros H. unfold TOCEntriesPerRow.
  destruct (Qeq_bool (width g + entryGap g) 0) eqn:E; [|reflexivity].
  apply Qeq_bool_iff in E. contradiction.
Qed.

(** C4 at values [createTOCSlide] derives.  A chevron table of
    contents with [TOCItemHeight] 1.25 and the default [TOCRowGap] 0.75
    on a section slide of 10 by 7.5 inches, with the default margin of
    0.2 inches and page-number height of 0.4 inches: the items are
    2857500 wide with a gap of -571500, so [TOCEntriesPerRow] is
    [int(8778240 / 2286000) = 3].  With 7 entries the loop wraps after
    the 3rd and the 6th entry and lays out 3 rows, but [rowCount], from
    which the height to centre is computed, is [1 + 7/3 = 10/3], not
    [ceil(7/3) = 3]; with 6 entries it is 3 although 2 rows are laid
    out, and the grid starts where a grid of three rows would.  With
    the default circles (items and pitch of 1143000 and 1600200) 5
    entries fill the one row, and [rowCount] is 2. *)
Theorem toc_row_count_is_not_the_ceiling :
  let g := TocStyle.params TocStyle.chevron (5 # 4) (3 # 4)
             9144000 6858000 182880 365760 182880 in
  let gc := TocStyle.params TocStyle.circle 0 (3 # 4)
              9144000 6858000 182880 365760 182880 in
  (width g == 2857500 /\ height g == 1143000 /\ entryGap g == -571500 /\
   rowGap g == 685800 /\ contentHeight g == 6126480) /\
  (width gc == 1143000 /\ height gc == 1143000 /\ entryGap gc == 457200) /\
  exists G G6 G5,
    grid g [1; 2; 3; 4; 5; 6; 7]%nat = Some G /\
    entriesPerRow G = 3%Z /\
    map normal (positions G) =
      [(857250, 1112520); (3143250, 1112520); (5429250, 1112520);
       (857250, 2941320); (3143250, 2941320); (5429250, 2941320);
       (857250, 4770120)] /\
    rows G == 10 # 3 /\ ~ rows G == 3 /\
    grid g [1; 2; 3; 4; 5; 6]%nat = Some G6 /\
    entriesPerRow G6 = 3%Z /\
    rows G6 == 3 /\ ~ rows G6 == 2 /\
    map normal (positions G6) =
      [(857250, 1417320); (3143250, 1417320); (5429250, 1417320);
       (857250, 3246120); (3143250, 3246120); (5429250, 3246120)] /\
    grid gc [1; 2; 3; 4; 5]%nat = Some G5 /\
    entriesPerRow G5 = 5%Z /\
    rows G5 == 2 /\ ~ rows G5 == 1 /\
    map normal (positions G5) =
      [(800100, 2331720); (2400300, 2331720); (4000500, 2331720);
       (5600700, 2331720); (7200900, 2331720)].
Proof.
  cbv zeta. split; [repeat split; reflexivity|]. split; [repeat split; reflexivity|].
  eexists. eexists. eexists.
  split; [reflexivity|]. split; [reflexivity|]. split; [reflexivity|].
  split; [reflexivity|]. split; [intros H; discriminate H|].
  split; [reflexivity|]. split; [reflexivity|]. split; [reflexivity|].
  split; [intros H; discriminate H|]. split; [reflexivity|].
  split; [reflexivity|]. split; [reflexivity|]. split; [reflexivity|].
  split; [intros H; discriminate H|]. reflexivity.
Qed.

End TocFacts.

(** ** Facts about strings *)

Section TextFacts.
Import Text.
Local Open Scope string_scope.

Lemma endswith_cons (p : string) (a : ascii) (s : string) :
  endswith p (String a s) = String.eqb (String a s) p || endswith p s.
Proof. reflexivity. Qed.

Lemma count_replicate_same (c : ascii) (n : nat) : count c (replicate n c) = n.
Proof.
  induction n as [|n IH]; [reflexivity|].
  cbn [replicate count]. rewrite Ascii.eqb_refl, IH. reflexivity.
Qed.

Lemma startswith_colon_dash (s : string) :
  startswith ":-" (String ":" (String "-" s)) = true.
Proof. destruct s; reflexivity. Qed.

Lemma startswith_dash (s : string) : startswith "-" (String "-" s) = true.
Proof. destruct s; reflexivity. Qed.

Lemma count_replicate_other (c a : ascii) (n : nat) :
  Ascii.eqb a c = false -> count c (replicate n a) = 0%nat.
Proof.
  intros H. induction n as [|n IH]; [reflexivity|].
  cbn [replicate count]. rewrite H, IH. reflexivity.
Qed.

Lemma append_cons (a : ascii) (s t : string) : String a s ++ t = String a (s ++ t).
Proof. reflexivity. Qed.

Lemma append_empty_r (s : string) : s ++ "" = s.
Proof.
  induction s as [|a s IH]; [reflexivity|]. rewrite append_cons, IH. reflexivity.
Qed.

Lemma count_app (c : ascii) (s t : string) : count c (s ++ t) = (count c s + count c t)%nat.
Proof.
  induction s as [|a s IH]; [reflexivity|].
  rewrite append_cons. cbn [count]. rewrite IH. lia.
Qed.

(** A string without a colon does not end with ["-:"]. *)
Lemma endswith_no_colon (s : string) : count ":" s = 0%nat -> endswith "-:" s = false.
Proof.
  induction s as [|a s IH]; intros H; [reflexivity|].
  rewrite endswith_cons. cbn [count] in H.
  destruct (Ascii.eqb a ":") eqn:Ea; [discriminate|].
  rewrite IH by exact H. rewrite orb_false_r.
  destruct (String.eqb (String a s) "-:") eqn:E; [|reflexivity].
  apply String.eqb_eq in E. injection E as -> ->. cbn in H. discriminate.
Qed.

Lemma endswith_dashes_colon (n : nat) :
  endswith "-:" (replicate (S n) "-" ++ ":") = true.
Proof.
  induction n as [|n IH]; [reflexivity|].
  change (replicate (S (S n)) "-" ++ ":") with (String "-" (replicate (S n) "-" ++ ":")).
  rewrite endswith_cons, IH. apply orb_true_r.
Qed.

End TextFacts.

(** ** Facts about the ruled table *)

Section RuledTableFacts.
Import Text Table.
Local Open Scope string_scope.

Lemma specCell_count (t : bool * nat * bool) :
  Z.of_nat (count "-" (specCellOf t)) = specWeight t.
Proof.
  destruct t as [[lc n] rc]. unfold specCellOf, specWeight, specCell. cbn [fst snd].
  rewrite !count_app, count_replicate_same.
  destruct lc, rc; cbn; lia.
Qed.

Lemma specCell_alignment (t : bool * nat * bool) :
  (1 <= snd (fst t))%nat -> alignmentOf (specCellOf t) = specAlignment t.
Proof.
  destruct t as [[lc n] rc]. cbn [fst snd]. intros Hn.
  destruct n as [|n]; [lia|].
  unfold specCellOf, specAlignment, alignmentOf, specCell. cbn [fst snd].
  assert (Hno : endswith "-:" (replicate (S n) "-") = false).
  { apply endswith_no_colon. apply count_replicate_other. reflexivity. }
  destruct lc, rc.
  - change (":" ++ replicate (S n) "-" ++ ":")
      with (String ":" (String "-" (replicate n "-" ++ ":"))).
    rewrite startswith_colon_dash.
    change (String ":" (String "-" (replicate n "-" ++ ":")))
      with (String ":" (replicate (S n) "-" ++ ":")).
    rewrite endswith_cons, endswith_dashes_colon, orb_true_r. reflexivity.
  - change (":" ++ replicate (S n) "-" ++ "")
      with (String ":" (String "-" (replicate n "-" ++ ""))).
    rewrite startswith_colon_dash.
    change (String ":" (String "-" (replicate n "-" ++ "")))
      with (String ":" (replicate (S n) "-" ++ "")).
    rewrite endswith_cons, append_empty_r, Hno. reflexivity.
  - change ("" ++ replicate (S n) "-" ++ ":") with (replicate (S n) "-" ++ ":").
    change (startswith ":-" (replicate (S n) "-" ++ ":")) with false.
    cbv iota. rewrite endswith_dashes_colon. reflexivity.
  - change ("" ++ replicate (S n) "-" ++ "") with (replicate (S n) "-" ++ "").
    change (startswith ":-" (replicate (S n) "-" ++ "")) with false.
    cbv iota. rewrite append_empty_r, Hno. reflexivity.
Qed.

Lemma specCell_heads_row (t : bool * nat * bool) :
  (1 <= snd (fst t))%nat ->
  startswith "-" (specCellOf t) || startswith ":-" (specCellOf t) = true.
Proof.
  destruct t as [[lc n] rc]. cbn [fst snd]. intros Hn.
  destruct n as [|n]; [lia|]. unfold specCellOf, specCell. cbn [fst snd].
  destruct lc.
  - change (":" ++ replicate (S n) "-" ++ (if rc then ":" else ""))
      with (String ":" (String "-" (replicate n "-" ++ (if rc then ":" else "")))).
    rewrite startswith_colon_dash. apply orb_true_r.
  - change ("" ++ replicate (S n) "-" ++ (if rc then ":" else ""))
      with (String "-" (replicate n "-" ++ (if rc then ":" else ""))).
    rewrite startswith_dash. reflexivity.
Qed.

Lemma repeat_lookup {A : Type} (x : A) (n i : nat) :
  (i < n)%nat -> List.repeat x n !! i = Some x.
Proof.
  revert i. induction n as [|n IH]; intros i Hi; [lia|].
  destruct i as [|i]; [reflexivity|]. cbn. apply IH. lia.
Qed.

Lemma columns_ge_acc (tableRows : list (list string)) (c : nat) :
  (c <= fold_left (fun c row => Nat.max c (length row)) tableRows c)%nat.
Proof.
  revert c. induction tableRows as [|r rs IH]; intros c; cbn; [lia|].
  etransitivity; [|apply IH]. lia.
Qed.

Lemma columns_ge_row (tableRows : list (list string)) (c : nat) (row : list string) :
  In row tableRows ->
  (length row <= fold_left (fun c row => Nat.max c (length row)) tableRows c)%nat.
Proof.
  revert c. induction tableRows as [|r rs IH]; intros c Hin; [destruct Hin|].
  destruct Hin as [<-|H]; cbn.
  - etransitivity; [|apply columns_ge_acc]. lia.
  - apply IH. exact H.
Qed.

(** The number of columns is the length of one of the rows, unless it
    is the value the count started from. *)
Lemma columns_attained_acc (tableRows : list (list string)) (c : nat) :
  fold_left (fun c row => Nat.max c (length row)) tableRows c = c \/
  exists row, In row tableRows /\
    length row = fold_left (fun c row => Nat.max c (length row)) tableRows c.
Proof.
  revert c. induction tableRows as [|r rs IH]; intros c; [left; reflexivity|].
  cbn [fold_left]. destruct (IH (Nat.max c (length r))) as [E|(row & Hin & E)].
  - rewrite E. destruct (Nat.max_spec c (length r)) as [[_ Hm]|[_ Hm]]; rewrite Hm.
    + right. exists r. split; [left; reflexivity|reflexivity].
    + left. reflexivity.
  - right. exists row. split; [right; exact Hin|exact E].
Qed.

Lemma columns_attained (tableRows : list (list string)) :
  tableRows <> [] ->
  exists row, In row tableRows /\
    length row = fold_left (fun c row => Nat.max c (length row)) tableRows 0%nat.
Proof.
  intros Hne. destruct (columns_attained_acc tableRows 0) as [E|H]; [|exact H].
  destruct tableRows as [|r rs]; [contradiction|].
  exists r. split; [left; reflexivity|].
  pose proof (columns_ge_row (r :: rs) 0 r ltac:(left; reflexivity)). lia.
Qed.

Lemma sum_ge_one (l : list Z) :
  l <> [] -> Forall (fun x => (1 <= x)%Z) l -> (1 <= fold_left Z.add l 0)%Z.
Proof.
  intros Hne Hall. destruct l as [|x l]; [contradiction|].
  apply Forall_cons in Hall as [Hx Hl]. cbn.
  rewrite fold_left_add_acc.
  assert (0 <= fold_left Z.add l 0)%Z; [|lia].
  clear Hne Hx. induction l as [|y l IH]; cbn; [lia|].
  apply Forall_cons in Hl as [Hy Hl]. rewrite fold_left_add_acc.
  specialize (IH Hl). lia.
Qed.

Lemma fillRow_cells (alignments : list string) (columns : nat) (row : list string) :
  map fst (fillRow alignments columns row) = padded columns row.
Proof.
  unfold fillRow, padded. generalize (row ++ List.repeat "" (columns - length row))%list.
  intros l. generalize (cellAlignment alignments). revert l.
  induction l as [|c l IH]; intros f; [reflexivity|].
  cbn. f_equal. apply (IH (fun i => f (S i))).
Qed.

Lemma fillRow_alignment (alignments : list string) (columns : nat) (row : list string)
    (i : nat) (c : string) (al : PP_ALIGN) :
  fillRow alignments columns row !! i = Some (c, al) ->
  al = cellAlignment alignments i.
Proof.
  unfold fillRow. rewrite list_lookup_imap.
  destruct ((row ++ List.repeat "" (columns - length row))%list !! i); cbn; [|discriminate].
  intros H. injection H as _ <-. reflexivity.
Qed.

(** C5: when the second row of a ruled table is an alignment row (every
    cell an optional colon, one or more dashes, an optional colon), the
    row is consumed: it is not among the rendered data rows.  The table
    has as many columns as its longest row, the alignment row included.
    Column [i] takes the alignment of its cell ([:-] left, [-:] right,
    both colons centre) and a weight equal to the number of dashes;
    columns beyond the alignment row are left-aligned with weight 1.
    Every rendered cell of a column is aligned accordingly: right under
    [-:], centred under [:-:], left otherwise.  The width of each
    column is [int(shapeWidth * weight / total weight)], with
    [shapeWidth] the width of the rendering rectangle less twice
    [tableMargin - marginBase]. *)
Theorem alignment_row_is_consumed (header : list string) (spec : list (bool * nat * bool))
    (rest : list (list string)) (rect : Split.Rectangle) (tableMargin marginBase : Z) :
  spec <> [] ->
  Forall (fun t => (1 <= snd (fst t))%nat) spec ->
  exists T,
    renderRuledTable (header :: map specCellOf spec :: rest) rect tableMargin marginBase
      = Some T /\
    haveTableHeading T = true /\
    rows T = S (length rest) /\
    (forall row, In row (header :: map specCellOf spec :: rest) ->
        (length row <= columns T)%nat) /\
    (exists row, In row (header :: map specCellOf spec :: rest) /\
        length row = columns T) /\
    map (map fst) (cells T) = map (padded (columns T)) (header :: rest) /\
    (forall (r : nat) row (i : nat) c al,
        cells T !! r = Some row -> row !! i = Some (c, al) ->
        al = match spec !! i with
             | Some (true, _, true) => CENTER
             | Some (false, _, true) => RIGHT
             | _ => LEFT
             end) /\
    (forall (i : nat) t, spec !! i = Some t ->
        alignments T !! i = Some (match t with
                                  | (true, _, true) => "c"
                                  | (false, _, true) => "r"
                                  | _ => "l"
                                  end) /\
        widths T !! i = Some (Z.of_nat (snd (fst t)))) /\
    (forall i : nat, (length spec <= i < columns T)%nat ->
        alignments T !! i = Some "l" /\ widths T !! i = Some 1%Z) /\
    widths_total T = fold_left Z.add (widths T) 0%Z /\
    (0 < widths_total T)%Z /\
    shapeWidth T = (Split.width rect - 2 * (tableMargin - marginBase))%Z /\
    length (columnWidths T) = columns T /\
    (forall (i : nat) wd, widths T !! i = Some wd ->
        columnWidths T !! i = Some (Z.quot (shapeWidth T * wd) (widths_total T))).
Proof.
  intros Hne Hall.
  set (tableRows := header :: map specCellOf spec :: rest).
  set (cols := fold_left (fun c row => Nat.max c (length row)) tableRows 0%nat).
  assert (Hcols : (length spec <= cols)%nat).
  { unfold cols, tableRows. cbn [fold_left].
    etransitivity; [|apply columns_ge_acc]. rewrite length_map. lia. }
  set (ws := (map (fun cell => Z.of_nat (count "-" cell)) (map specCellOf spec)
              ++ List.repeat 1%Z (cols - length (map specCellOf spec)))%list).
  assert (Hws : ws = (map specWeight spec ++ List.repeat 1%Z (cols - length spec))%list).
  { unfold ws. rewrite length_map, map_map. f_equal.
    apply map_ext. intros t. apply specCell_count. }
  assert (Hlenws : length ws = cols).
  { rewrite Hws, length_app, length_map, repeat_length. lia. }
  assert (Hpos : (1 <= fold_left Z.add ws 0)%Z).
  { apply sum_ge_one.
    - rewrite Hws. destruct spec; [contradiction|discriminate].
    - rewrite Hws. apply Forall_app. split.
      + apply Forall_map. eapply Forall_impl; [exact Hall|].
        intros t Ht. unfold specWeight. cbn in Ht. lia.
      + apply List.Forall_forall. intros x Hx. apply repeat_spec in Hx. lia. }
  assert (Hhead : exists t0 spec', spec = t0 :: spec' /\ (1 <= snd (fst t0))%nat).
  { destruct spec as [|t0 spec']; [contradiction|].
    exists t0, spec'. split; [reflexivity|]. apply Forall_cons in Hall. tauto. }
  destruct Hhead as (t0 & spec' & Hspec & Ht0).
  assert (HR : renderRuledTable tableRows rect tableMargin marginBase =
    Some (mkRuledTable true (S (length rest)) cols
            (map alignmentOf (map specCellOf spec) ++
               List.repeat "l" (cols - length (map specCellOf spec)))%list
            ws (fold_left Z.add ws 0%Z)
            (Split.top rect) (Split.left rect + tableMargin - marginBase)%Z
            (Z.min (Split.height rect) (inches025 * Z.of_nat (S (length rest))))
            (Split.width rect - 2 * (tableMargin - marginBase))%Z
            (map (fun wd => Z.quot ((Split.width rect - 2 * (tableMargin - marginBase)) * wd)%Z
                              (fold_left Z.add ws 0%Z)) (firstn cols ws))
            (map (fillRow (map alignmentOf (map specCellOf spec) ++
                    List.repeat "l" (cols - length (map specCellOf spec)))%list cols)
               (header :: rest)))).
  { unfold renderRuledTable. fold cols.
    unfold tableRows at 1 2. cbn [length Nat.ltb Nat.leb lookup list_lookup].
    rewrite Hspec at 1. cbn [map].
    rewrite (specCell_heads_row t0 Ht0).
    change (nth 1 tableRows []) with (map specCellOf spec). fold ws.
    destruct (Z.eqb_spec (fold_left Z.add ws 0%Z) 0%Z) as [E|_]; [lia|].
    reflexivity. }
  eexists. split; [exact HR|].
  cbn [haveTableHeading rows columns cells alignments widths widths_total
       columnWidths shapeWidth].
  split; [reflexivity|]. split; [reflexivity|].
  split; [intros row Hin; apply columns_ge_row; exact Hin|].
  split; [apply columns_attained; discriminate|].
  split; [rewrite map_map; apply map_ext; intros row; apply fillRow_cells|].
  assert (Hal : forall (i : nat) t, spec !! i = Some t ->
            (map alignmentOf (map specCellOf spec) ++
               List.repeat "l" (cols - length (map specCellOf spec)))%list !! i
            = Some (specAlignment t)).
  { intros i t Hi.
    rewrite lookup_app_l by (rewrite !length_map; eapply lookup_lt_Some; exact Hi).
    rewrite !list_lookup_fmap, Hi. cbn. f_equal. apply specCell_alignment.
    rewrite Forall_lookup in Hall. exact (Hall i t Hi). }
  split.
  { intros r row i c al Hr Hi. rewrite list_lookup_fmap in Hr.
    destruct ((header :: rest) !! r); [|discriminate]. injection Hr as <-.
    apply fillRow_alignment in Hi. subst al. unfold cellAlignment.
    destruct (spec !! i) as [t|] eqn:Es.
    - rewrite (Hal i t Es). destruct t as [[[] n] []]; reflexivity.
    - apply lookup_ge_None in Es.
      destruct (Nat.lt_ge_cases i cols) as [Hlt|Hge].
      + rewrite lookup_app_r by (rewrite !length_map; lia).
        rewrite !length_map, repeat_lookup by lia. reflexivity.
      + rewrite lookup_ge_None_2; [reflexivity|].
        rewrite length_app, !length_map, repeat_length. lia. }
  split.
  { intros i t Hi. split.
    - rewrite (Hal i t Hi). destruct t as [[[] n] []]; reflexivity.
    - rewrite Hws, lookup_app_l by (rewrite length_map; eapply lookup_lt_Some; exact Hi).
      rewrite list_lookup_fmap, Hi. reflexivity. }
  split.
  { intros i [Hlo Hhi]. split.
    - rewrite lookup_app_r by (rewrite !length_map; lia).
      rewrite !length_map. apply repeat_lookup. lia.
    - rewrite Hws, lookup_app_r by (rewrite length_map; lia).
      rewrite length_map. apply repeat_lookup. lia. }
  split; [reflexivity|]. split; [lia|]. split; [reflexivity|].
  split; [rewrite length_map, firstn_all2 by lia; exact Hlenws|].
  intros i wd Hi.
  rewrite firstn_all2 by lia.
  rewrite list_lookup_fmap, Hi. reflexivity.
Qed.

End RuledTableFacts.

Lemma alignment_row_is_consumed_witness :
  exists T,
    Table.renderRuledTable [["a"; "b"]; [":-"; "-:"]; ["1"; "2"]]%string
      (Split.mkRectangle 0 0 6000000 9000000) 0 0 = Some T /\
    Table.columns T = 2%nat /\
    Table.alignments T !! 0%nat = Some "l"%string /\
    Table.alignments T !! 1%nat = Some "r"%string /\
    Table.widths T !! 0%nat = Some 1%Z /\
    map (map fst) (Table.cells T) = [["a"; "b"]; ["1"; "2"]]%string /\
    (forall (r : nat) row c al,
        Table.cells T !! r = Some row -> row !! 0%nat = Some (c, al) ->
        al = Table.LEFT) /\
    (forall (r : nat) row c al,
        Table.cells T !! r = Some row -> row !! 1%nat = Some (c, al) ->
        al = Table.RIGHT).
Proof.
  destruct (alignment_row_is_consumed ["a"; "b"]%string
              [(true, 1%nat, false); (false, 1%nat, true)] [["1"; "2"]%string]
              (Split.mkRectangle 0 0 6000000 9000000) 0 0)
    as (T & HT & _ & _ & Hle & (row & Hrow & Hlen) & Hcells & Hal & Hspec & _).
  - discriminate.
  - repeat constructor.
  - assert (Hc : Table.columns T = 2%nat).
    { rewrite <- Hlen. destruct Hrow as [<-|[<-|[<-|[]]]]; reflexivity. }
    exists T. split; [exact HT|]. split; [exact Hc|].
    pose proof (Hspec 0%nat (true, 1%nat, false) eq_refl) as [Ha0 Hw0].
    pose proof (Hspec 1%nat (false, 1%nat, true) eq_refl) as [Ha1 _].
    split; [exact Ha0|]. split; [exact Ha1|]. split; [exact Hw0|].
    split; [rewrite Hcells, Hc; reflexivity|].
    split; intros r row' c al Hr Hi.
    + exact (Hal r row' 0%nat c al Hr Hi).
    + exact (Hal r row' 1%nat c al Hr Hi).
Defined.

Example two_column_alignment_row :
  option_map
    (fun b => match b with
              | Table.Ruled T => (Table.alignments T, Table.cells T)
              | Table.GraphicsGrid _ _ => ([], [])
              end)
    (Table.createTableBlock Table.exampleWorld
       [[["a"; "b"]; [":-"; "-:"]; ["1"; "2"]]]%string
       (Split.mkRectangle 0 0 6000000 9000000) 0 0 0)
  = Some (["l"; "r"]%string,
          [[("a", Table.LEFT); ("b", Table.RIGHT)];
           [("1", Table.LEFT); ("2", Table.RIGHT)]]%string).
Proof. reflexivity. Qed.

(** ** Facts about the graphics grid *)

Section GraphicsGridFacts.
Import Text Table.
Local Open Scope string_scope.

Variable w : World.

Lemma parseMedia_eq (cellString : string) (n : nat) :
  parseMedia w cellString n
  = (mediaOf w cellString, if isMediaReference cellString then S n else n).
Proof.
  unfold mediaOf, isMediaReference, parseMedia.
  destruct (rematch videoRE cellString); [reflexivity|].
  destruct (rematch audioRE cellString); [reflexivity|].
  destruct (rematch clickableGraphicRE cellString); [reflexivity|].
  destruct (rematch graphicRE cellString); reflexivity.
Qed.

Lemma count_after_two (a b : string) :
  negb ((if isMediaReference b
         then S (if isMediaReference a then 1 else 0)
         else if isMediaReference a then 1 else 0) =? 0)%nat
  = isMediaReference a || isMediaReference b.
Proof. destruct (isMediaReference a), (isMediaReference b); reflexivity. Qed.

Ltac media_step :=
  repeat (rewrite parseMedia_eq; cbv beta iota).

Ltac media_done :=
  change (isMediaReference "") with false; cbv beta iota;
  repeat match goal with
         | |- context [isMediaReference ?x] => destruct (isMediaReference x)
         end;
  reflexivity.

Lemma parseGrid_one_row (row0 : list string) :
  (1 <= length row0 <= 2)%nat ->
  parseGrid w [row0] = Some (smallGrid w row0 None).
Proof.
  intros Hlen. destruct row0 as [|a [|b [|c r]]]; cbn [length] in Hlen; try lia;
    unfold parseGrid, smallGrid;
    cbn [length Nat.leb Nat.eqb andb lookup list_lookup nth rowHasMedia];
    media_step; media_done.
Qed.

Lemma parseGrid_two_rows (row0 row1 : list string) :
  (1 <= length row0 <= 2)%nat -> row1 <> [] ->
  parseGrid w [row0; row1] = Some (smallGrid w row0 (Some row1)).
Proof.
  intros Hlen Hne.
  destruct row1 as [|c r1]; [contradiction|].
  destruct row0 as [|a [|b [|x r]]]; cbn [length] in Hlen; try lia;
    unfold parseGrid, smallGrid;
    cbn [length Nat.leb Nat.eqb andb lookup list_lookup nth option_map rowHasMedia];
    media_step.
  - destruct r1 as [|d r1]; [cbn [length Nat.max Nat.eqb]; media_step; media_done|].
    cbn [length]. destruct (Nat.max 1 (S (S (length r1))) =? 2)%nat;
      cbn [Nat.eqb nth]; media_step; media_done.
  - destruct r1 as [|d r1]; [cbn [length Nat.max Nat.eqb]; media_step; media_done|].
    cbn [length]. destruct (Nat.max 2 (S (S (length r1))) =? 2)%nat;
      cbn [Nat.eqb nth]; media_step; media_done.
Qed.

Lemma tile_length (g : GridParse) rect marginBase c m neighbour shapes :
  tile w g rect marginBase c m neighbour = Some shapes -> (length shapes <= 1)%nat.
Proof.
  unfold tile. destruct (negb (hasMedia m)); [intros [= <-]; cbn; lia|].
  destruct (mediaDimensions w m) as [[mw mh]|]; [|intros [= <-]; cbn; lia].
  destruct (Scale.scalePicture _ _ _ _) as [[[pw ph] u]|]; [|discriminate].
  intros [= <-]. unfold tileShape.
  destruct (negb _); [cbn; lia|]. destruct (video m); cbn; lia.
Qed.

Lemma andThen_length {A : Type} (a b : option (list A)) (l : list A) (n k : nat) :
  andThen a b = Some l ->
  (forall x, a = Some x -> (length x <= n)%nat) ->
  (forall y, b = Some y -> (length y <= k)%nat) ->
  (length l <= n + k)%nat.
Proof.
  destruct a as [x|], b as [y|]; try discriminate.
  intros [= <-] Hx Hy. rewrite length_app.
  specialize (Hx x eq_refl). specialize (Hy y eq_refl). lia.
Qed.

Lemma renderGraphicsGrid_at_most_four (g : GridParse) rect marginBase shapes printed :
  renderGraphicsGrid w g rect marginBase = Some (shapes, printed) ->
  (length shapes <= 4)%nat.
Proof.
  unfold renderGraphicsGrid.
  destruct (checkCorners w (checkedCorners g)) as [|c m|];
    [discriminate|intros [= <- _]; cbn; lia|].
  destruct (andThen _ _) as [l|] eqn:E; [|discriminate].
  intros [= <- _].
  assert (Hopt : forall (b : bool) c m n (y : list Shape),
             (if b then tile w g rect marginBase c m n else Some []) = Some y ->
             (length y <= 1)%nat).
  { intros [] c m n y H; [eapply tile_length; exact H|].
    injection H as <-. cbn. lia. }
  apply (andThen_length _ _ _ 1 3 E); [intros x Hx; eapply tile_length; exact Hx|].
  intros y Hy. apply (andThen_length _ _ _ 1 2 Hy); [intros x Hx; eapply Hopt; exact Hx|].
  intros z Hz. apply (andThen_length _ _ _ 1 1 Hz); intros x Hx; eapply Hopt; exact Hx.
Qed.

Lemma all_media_row_has_media (b : bool) (row : list string) :
  row <> [] -> forallb isMediaReference row = true -> rowHasMedia b row = true.
Proof.
  destruct row as [|c0 rest]; [contradiction|]. intros _ H.
  cbn [forallb] in H. apply andb_true_iff in H as [H _].
  cbn [rowHasMedia]. rewrite H. reflexivity.
Qed.

Lemma parseGrid_wide_first_row (row0 : list string) (rest : list (list string)) :
  (2 < length row0)%nat ->
  parseGrid w (row0 :: rest)
  = Some (mkGridParse false 0 0 noMedia noMedia noMedia noMedia).
Proof.
  intros H. unfold parseGrid.
  replace (length row0 <=? 2)%nat with false by (symmetry; apply Nat.leb_gt; lia).
  rewrite andb_false_r. reflexivity.
Qed.

(** The parse never fails on a table without empty rows, and classifies
    by [graphicsGridCondition]. *)
Lemma parseGrid_classifies (tableRows : list (list string)) :
  tableRows <> [] -> Forall (fun row => row <> []) tableRows ->
  exists g, parseGrid w tableRows = Some g /\
            isGraphicsGrid g = graphicsGridCondition tableRows.
Proof.
  intros Hne Hall.
  destruct tableRows as [|row0 [|row1 [|row2 more]]]; [contradiction| | |].
  - apply Forall_cons in Hall as [H0 _].
    destruct (Nat.leb_spec (length row0) 2) as [Hle|Hgt].
    + exists (smallGrid w row0 None). split.
      * apply parseGrid_one_row. destruct row0; [contradiction|cbn in *; lia].
      * cbn [smallGrid isGraphicsGrid graphicsGridCondition].
        destruct (Nat.leb_spec (length row0) 2); [reflexivity|lia].
    + eexists. split.
      * apply parseGrid_wide_first_row. exact Hgt.
      * cbn [isGraphicsGrid graphicsGridCondition].
        destruct (Nat.leb_spec (length row0) 2); [lia|reflexivity].
  - apply Forall_cons in Hall as [H0 Hall]. apply Forall_cons in Hall as [H1 _].
    destruct (Nat.leb_spec (length row0) 2) as [Hle|Hgt].
    + exists (smallGrid w row0 (Some row1)). split.
      * apply parseGrid_two_rows; [|exact H1].
        destruct row0; [contradiction|cbn in *; lia].
      * cbn [smallGrid isGraphicsGrid graphicsGridCondition].
        destruct (Nat.leb_spec (length row0) 2); [reflexivity|lia].
    + eexists. split.
      * apply parseGrid_wide_first_row. exact Hgt.
      * cbn [isGraphicsGrid graphicsGridCondition].
        destruct (Nat.leb_spec (length row0) 2); [lia|reflexivity].
  - eexists. split.
    + unfold parseGrid. cbn [length Nat.leb andb]. reflexivity.
    + reflexivity.
Qed.

(** C6, as stated, fails: a row of a media reference and a text cell is
    classified as a graphics grid although not every cell is a media
    reference (the text cell is dropped, one picture is placed). *)
Lemma mixed_row_is_a_graphics_grid :
  option_map isGraphicsGrid (parseGrid exampleWorld [["![a](a.png)"; "plain text"]])
    = Some true /\
  smallAllMedia [["![a](a.png)"; "plain text"]] = false /\
  exists shape printed,
    createTableBlock exampleWorld [[["![a](a.png)"; "plain text"]]]
      (Split.mkRectangle 0 0 6000000 9000000) 0 0 0
    = Some (GraphicsGrid [shape] printed).
Proof.
  split; [reflexivity|]. split; [reflexivity|].
  eexists. eexists. vm_compute. reflexivity.
Qed.

(** C6 (amended): a table without empty rows is classified as a graphics
    grid if and only if it has at most 2 rows, its first row has at most
    2 cells, and every row holds a media reference among the cells
    examined (the first cell, and the second cell of a row when the grid
    is two cells wide); so every table of at most 2 rows and 2 columns
    whose cells are all media references is a graphics grid.  A graphics
    grid adds at most 4 shapes; any other table is rendered as a ruled
    table. *)
Theorem graphics_grid_classification (tableRows : list (list string)) :
  tableRows <> [] -> Forall (fun row => row <> []) tableRows ->
  exists g,
    parseGrid w tableRows = Some g /\
    isGraphicsGrid g = graphicsGridCondition tableRows /\
    (smallAllMedia tableRows = true -> isGraphicsGrid g = true) /\
    (forall slideTableRows rect (n : nat) tableMargin marginBase b,
        slideTableRows !! n = Some tableRows ->
        createTableBlock w slideTableRows rect n tableMargin marginBase = Some b ->
        match b with
        | GraphicsGrid shapes _ =>
            graphicsGridCondition tableRows = true /\ (length shapes <= 4)%nat
        | Ruled _ => graphicsGridCondition tableRows = false
        end).
Proof.
  intros Hne Hall.
  destruct (parseGrid_classifies tableRows Hne Hall) as (g & Hg & Hcls).
  exists g. split; [exact Hg|]. split; [exact Hcls|]. split.
  - intros Hsmall. rewrite Hcls. unfold smallAllMedia in Hsmall.
    apply andb_true_iff in Hsmall as [Hlen Hrows].
    destruct tableRows as [|row0 [|row1 [|row2 more]]]; [contradiction| | |discriminate].
    + apply Forall_cons in Hall as [H0 _]. cbn [forallb] in Hrows.
      rewrite andb_true_r in Hrows. apply andb_true_iff in Hrows as [Hl Hm].
      cbn [graphicsGridCondition]. rewrite Hl.
      apply all_media_row_has_media; assumption.
    + apply Forall_cons in Hall as [H0 Hall]. apply Forall_cons in Hall as [H1 _].
      cbn [forallb] in Hrows. rewrite andb_true_r in Hrows.
      apply andb_true_iff in Hrows as [Hr0 Hr1].
      apply andb_true_iff in Hr0 as [Hl0 Hm0]. apply andb_true_iff in Hr1 as [Hl1 Hm1].
      cbn [graphicsGridCondition]. rewrite Hl0.
      rewrite !all_media_row_has_media by assumption. reflexivity.
  - intros sl rect n tm mb b Hn Hb. unfold createTableBlock in Hb.
    rewrite Hn in Hb.
    destruct (existsb (parseMediaRaises w) (examinedCells tableRows)); [discriminate|].
    rewrite Hg in Hb. rewrite <- Hcls.
    destruct (isGraphicsGrid g).
    + destruct (renderGraphicsGrid w g rect (inject_Z mb)) as [[shapes printed]|] eqn:E;
        [|discriminate].
      injection Hb as <-. split; [reflexivity|].
      eapply renderGraphicsGrid_at_most_four. exact E.
    + destruct (renderRuledTable tableRows rect tm mb); [|discriminate].
      injection Hb as <-. reflexivity.
Qed.

Lemma checkCorners_first (corners : list (Corner * Media)) (c : Corner) (m : Media) :
  Forall (fun cm => malformed w (snd cm) = false) corners ->
  In (c, m) corners -> missing w m = true ->
  exists c' m', checkCorners w corners = Missing c' m' /\ missing w m' = true.
Proof.
  induction corners as [|[c0 m0] rest IH]; intros Hall Hin Hm; [contradiction|].
  apply Forall_cons in Hall as [H0 Hall]. cbn [snd] in H0.
  cbn [checkCorners]. rewrite H0. destruct (missing w m0) eqn:E.
  - exists c0, m0. split; [reflexivity|exact E].
  - destruct Hin as [[= -> ->]|Hin]; [congruence|]. exact (IH Hall Hin Hm).
Qed.

Lemma missing_empty_cell : missing w (mediaOf w "") = false.
Proof. reflexivity. Qed.

Lemma malformed_empty_cell : malformed w (mediaOf w "") = false.
Proof. reflexivity. Qed.

Lemma malformed_noMedia : malformed w noMedia = false.
Proof. reflexivity. Qed.

(** A missing file in a corner whose dimensions are checked: the block
    prints the message and returns without adding a shape. *)
Lemma skipped_when_checked_corner_missing (slideTableRows : list (list (list string)))
    (rect : Split.Rectangle) (n : nat) (tableMargin marginBase : Z)
    (tableRows : list (list string)) (g : GridParse) (c : Corner) (m : Media) :
  slideTableRows !! n = Some tableRows ->
  existsb (parseMediaRaises w) (examinedCells tableRows) = false ->
  parseGrid w tableRows = Some g -> isGraphicsGrid g = true ->
  Forall (fun cm => malformed w (snd cm) = false) (checkedCorners g) ->
  In (c, m) (checkedCorners g) -> missing w m = true ->
  exists printed c' m',
    createTableBlock w slideTableRows rect n tableMargin marginBase
      = Some (GraphicsGrid [] printed) /\
    last printed = Some (missingMessage c' (gridRows g) m') /\
    missing w m' = true.
Proof.
  intros Hn Hex Hg Hcls Hall Hin Hmiss.
  destruct (checkCorners_first (checkedCorners g) c m Hall Hin Hmiss)
    as (c' & m' & Hfind & Hm').
  exists (reports g ++ [missingMessage c' (gridRows g) m'])%list, c', m'.
  split; [|split; [apply last_snoc|exact Hm']].
  unfold createTableBlock. rewrite Hn, Hex, Hg, Hcls.
  unfold renderGraphicsGrid. rewrite Hfind. reflexivity.
Qed.

(** The path of a missing file.  In a graphics-grid block of one or
    two rows of one or two cells, on none of which [parseMedia] raises
    and none of them an image file in which [getGraphicDimensions]
    finds nothing, when the dimensions of a referenced medium come back
    as -1 the block reports it and returns normally without adding any
    shape to the slide. *)
Lemma missing_media_skips_block (slideTableRows : list (list (list string)))
    (rect : Split.Rectangle) (n : nat) (tableMargin marginBase : Z)
    (tableRows : list (list string)) (row : list string) (cell : string) :
  slideTableRows !! n = Some tableRows ->
  existsb (parseMediaRaises w) (examinedCells tableRows) = false ->
  (1 <= length tableRows <= 2)%nat ->
  Forall (fun r => (1 <= length r <= 2)%nat) tableRows ->
  graphicsGridCondition tableRows = true ->
  (forall r c, In r tableRows -> In c r -> malformed w (mediaOf w c) = false) ->
  In row tableRows -> In cell row -> missing w (mediaOf w cell) = true ->
  exists printed corner m,
    createTableBlock w slideTableRows rect n tableMargin marginBase
      = Some (GraphicsGrid [] printed) /\
    last printed = Some (missingMessage corner (length tableRows) m) /\
    missing w m = true.
Proof.
  intros Hn Hex Hrows Hall Hcls Hok Hrow Hcell Hmiss.
  pose proof malformed_empty_cell as Hempty. pose proof malformed_noMedia as Hnone.
  destruct tableRows as [|row0 [|row1 [|row2 more]]]; cbn [length] in Hrows; try lia.
  - apply Forall_cons in Hall as [H0 _].
    destruct Hrow as [<-|[]].
    assert (Hin : (exists c, In (c, mediaOf w cell) (checkedCorners (smallGrid w row0 None)))
                  /\ Forall (fun cm => malformed w (snd cm) = false)
                       (checkedCorners (smallGrid w row0 None))).
    { destruct row0 as [|a [|b [|x r]]]; cbn [length] in H0; try lia.
      - destruct Hcell as [<-|[]]. split; [exists TopLeft; left; reflexivity|].
        repeat constructor. cbn. apply (Hok [a] a); left; reflexivity.
      - split.
        + destruct Hcell as [<-|[<-|[]]].
          * exists TopLeft. left. reflexivity.
          * exists TopRight. right. left. reflexivity.
        + repeat constructor; cbn.
          * apply (Hok [a; b] a); [left; reflexivity|left; reflexivity].
          * apply (Hok [a; b] b); [left; reflexivity|right; left; reflexivity]. }
    destruct Hin as [[c Hin] Hgood].
    apply (skipped_when_checked_corner_missing slideTableRows rect n tableMargin
             marginBase [row0] (smallGrid w row0 None) c (mediaOf w cell) Hn Hex);
      [apply parseGrid_one_row; exact H0| |exact Hgood|exact Hin|exact Hmiss].
    cbn [graphicsGridCondition] in Hcls. apply andb_true_iff in Hcls as [_ Hcls].
    exact Hcls.
  - apply Forall_cons in Hall as [H0 Hall]. apply Forall_cons in Hall as [H1 _].
    assert (Hcells : forall c, In c row0 \/ In c row1 -> malformed w (mediaOf w c) = false).
    { intros c [H|H]; [apply (Hok row0 c)|apply (Hok row1 c)]; cbn; tauto. }
    assert (Hin : (exists c, In (c, mediaOf w cell)
                          (checkedCorners (smallGrid w row0 (Some row1))))
                  /\ Forall (fun cm => malformed w (snd cm) = false)
                       (checkedCorners (smallGrid w row0 (Some row1)))).
    { destruct row0 as [|a [|b [|x r]]]; cbn [length] in H0; try lia;
        destruct row1 as [|c [|d [|y r']]]; cbn [length] in H1; try lia;
        (split;
         [ destruct Hrow as [<-|[<-|[]]];
           repeat match goal with
                  | H : In _ (_ :: _) |- _ => destruct H as [<-|H]
                  | H : In _ [] |- _ => destruct H
                  end;
           first [ exists TopLeft; cbn; tauto
                 | exists TopRight; cbn; tauto
                 | exists BottomLeft; cbn; tauto
                 | exists BottomRight; cbn; tauto ]
         | repeat constructor; cbn [snd];
           first [ exact Hempty | exact Hnone | apply Hcells; cbn; tauto ] ]). }
    destruct Hin as [[c Hin] Hgood].
    replace (length [row0; row1]) with (gridRows (smallGrid w row0 (Some row1)))
      by reflexivity.
    apply (skipped_when_checked_corner_missing slideTableRows rect n tableMargin
             marginBase [row0; row1] (smallGrid w row0 (Some row1)) c (mediaOf w cell) Hn Hex);
      [apply parseGrid_two_rows; [exact H0|destruct row1; [cbn in H1; lia|discriminate]]
      | |exact Hgood|exact Hin|exact Hmiss].
    cbn [graphicsGridCondition] in Hcls.
    apply andb_true_iff in Hcls as [Hcls Hb]. apply andb_true_iff in Hcls as [_ Ht].
    cbn [smallGrid isGraphicsGrid]. rewrite Ht, Hb. reflexivity.
Qed.

(** An image file in which [getGraphicDimensions] finds nothing, in
    the first cell: the unpacking of the result raises before anything
    is reported for it. *)
Lemma unreadable_first_image_raises (g : GridParse) (rect : Split.Rectangle)
    (marginBase : Q) :
  malformed w (topLeft g) = true -> renderGraphicsGrid w g rect marginBase = None.
Proof.
  intros H. unfold renderGraphicsGrid, checkedCorners.
  cbn [app checkCorners]. rewrite H. reflexivity.
Qed.

End GraphicsGridFacts.

Lemma missing_media_skips_block_witness :
  exists printed corner m,
    Table.createTableBlock Table.exampleWorld
      [[["![a](a.png)"; "![b](gone.png)"]]]%string
      (Split.mkRectangle 0 0 6000000 9000000) 0 0 0
      = Some (Table.GraphicsGrid [] printed) /\
    last printed = Some (Table.missingMessage corner 1 m) /\
    Table.missing Table.exampleWorld m = true.
Proof.
  apply (missing_media_skips_block Table.exampleWorld
           [[["![a](a.png)"; "![b](gone.png)"]]]%string
           (Split.mkRectangle 0 0 6000000 9000000) 0 0 0
           [["![a](a.png)"; "![b](gone.png)"]]%string
           ["![a](a.png)"; "![b](gone.png)"]%string "![b](gone.png)"%string).
  - reflexivity.
  - reflexivity.
  - cbn. lia.
  - repeat constructor; cbn; lia.
  - reflexivity.
  - intros r c [<-|[]] [<-|[<-|[]]]; reflexivity.
  - left. reflexivity.
  - right. left. reflexivity.
  - reflexivity.
Defined.

(** The lines printed on the way: the file names, the left one filled
    up to thirty characters, then the missing file. *)
Example missing_media_message :
  Table.createTableBlock Table.exampleWorld
    [[["![a](a.png)"; "![b](gone.png)"]]]%string
    (Split.mkRectangle 0 0 6000000 9000000) 0 0 0
  = Some (Table.GraphicsGrid []
            ["             ---> a.png                          , gone.png";
             "Missing right image file: gone.png"]%string).
Proof. reflexivity. Qed.

(** C9, at failing inputs.  A graphics grid whose image is a JPEG file
    that can be opened but in which the scan finds no frame header:
    [getGraphicDimensions] returns without a value, the unpacking of
    its result raises, and [createTableBlock] does not return; nothing
    is reported as missing and no later block is reached.  The same
    with the file in the second cell, after a readable one.  A missing
    [.svg] file ends the block earlier still, inside [parseMedia].
    Beside them, the missing [gone.png] is reported and the block
    skipped, as for every file whose width comes back as -1. *)
Theorem unreadable_jpeg_aborts_the_block :
  let rect := Split.mkRectangle 0 0 6000000 9000000 in
  Table.getGraphicDimensions Table.exampleWorld "cut.jpg" = None /\
  option_map Table.isGraphicsGrid
    (Table.parseGrid Table.exampleWorld [["![a](cut.jpg)"]]%string) = Some true /\
  Table.createTableBlock Table.exampleWorld [[["![a](cut.jpg)"]]]%string rect 0 0 0
    = None /\
  Table.createTableBlock Table.exampleWorld
    [[["![a](a.png)"; "![b](cut.jpg)"]]]%string rect 0 0 0 = None /\
  Table.graphicTypeFails Table.exampleWorld "gone.svg" = true /\
  Table.createTableBlock Table.exampleWorld [[["![a](gone.svg)"]]]%string rect 0 0 0
    = None /\
  Table.createTableBlock Table.exampleWorld [[["![a](gone.png)"]]]%string rect 0 0 0
    = Some (Table.GraphicsGrid []
              ["             ---> gone.png                      ";
               "Missing left image file: gone.png"]%string).
Proof.
  cbv zeta. repeat split; reflexivity.
Qed.

Lemma graphics_grid_classification_witness :
  exists g,
    Table.parseGrid Table.exampleWorld
      [["![a](a.png)"; "![b](b.png)"]; ["![c](c.png)"]]%string = Some g /\
    Table.isGraphicsGrid g = true.
Proof.
  destruct (graphics_grid_classification Table.exampleWorld
              [["![a](a.png)"; "![b](b.png)"]; ["![c](c.png)"]]%string)
    as (g & Hg & Hcls & Hall & _).
  - discriminate.
  - repeat constructor; discriminate.
  - exists g. split; [exact Hg|]. apply Hall. reflexivity.
Defined.


(** ** Facts about the main pass *)

Section CompilerFacts.
Import Text Compiler.
Local Open Scope string_scope.
Local Open Scope list_scope.

(** C2 on a slide with an indented code block: the block is opened
    ([code] holds it) but no ["code"] entry is appended to [sequence],
    so the slide is created with one code block and an empty
    [sequence]; the same code inside a fence gets its entry. *)
Theorem indented_code_block_has_no_sequence_entry :
  compile exampleEnv 2 ["### T"; ""; "    x = 1"; "    y = 2"]
  = Some [Model.mkSlideInfo "T" "" "code" [] [] []
            [["x = 1"; "    y = 2"]] []] /\
  ~ sequenceCountsBlocks
      (Model.mkSlideInfo "T" "" "code" [] [] [] [["x = 1"; "    y = 2"]] []) /\
  compile exampleEnv 2 ["### T"; "```"; "x = 1"; "```"]
  = Some [Model.mkSlideInfo "T" "" "code" [] [] []
            [["```"; "x = 1"; "```"]] ["code"]] /\
  sequenceCountsBlocks
      (Model.mkSlideInfo "T" "" "code" [] [] [] [["```"; "x = 1"; "```"]] ["code"]).
Proof.
  split; [vm_compute; reflexivity|]. split; [intros H; discriminate H|].
  split; [vm_compute; reflexivity|]. reflexivity.
Qed.

(** Two more ways the count is missed: a media line after the end of a
    table appends ["table"] to [sequence] but its row joins the table
    already there; and what precedes the first heading leaves its
    entries in [sequence] while the lists are reset. *)
Example media_line_after_table :
  compile exampleEnv 2 ["### T"; "|a|b|"; "text"; "![p](p.png)"; ""]
  = Some [Model.mkSlideInfo "T" "" "table" []
            [[["a"; "b"]; ["![p](p.png)"]]] [] [] ["table"; "table"]].
Proof. vm_compute. reflexivity. Qed.

Example bullets_before_first_heading :
  compile exampleEnv 2 ["* early"; "### T"; ""]
  = Some [Model.mkSlideInfo "T" "" "content" [] [] [] [] ["list"]].
Proof. vm_compute. reflexivity. Qed.

(** *** The code-block bookkeeping leaves the bullets alone *)

Lemma htmlCodeOpen_core line s : core (htmlCodeOpen line s) = core s.
Proof. unfold htmlCodeOpen. destruct (startswithOneOf _ _); reflexivity. Qed.

Lemma htmlCodeClose_core line s : core (htmlCodeClose line s) = core s.
Proof. unfold htmlCodeClose. destruct (startswithOneOf _ _); reflexivity. Qed.

Lemma fence_core line s s' : fence line s = Some s' -> core s' = core s.
Proof.
  unfold fence. destruct (startswith _ _); [|intros [= <-]; reflexivity].
  destruct (inCode (set_inCode (negb (inCode s)) s)).
  - intros [= <-]. reflexivity.
  - destruct (appendToLast _ _); [|discriminate]. intros [= <-]. reflexivity.
Qed.

Lemma codeLine_core line s s' : codeLine line s = Some s' -> core s' = core s.
Proof.
  unfold codeLine. destruct (_ || _); [|intros [= <-]; reflexivity].
  destruct (appendToLast _ _); [|discriminate].
  intros [= <-]. destruct (length (code s) =? 0)%nat, (length _ =? 1)%nat; reflexivity.
Qed.

Lemma blankEndsCode_core line s : core (blankEndsCode line s) = core s.
Proof. unfold blankEndsCode. destruct (_ && _); reflexivity. Qed.

Lemma indentedCode_core line s : core (indentedCode line s) = core s.
Proof.
  unfold indentedCode. destruct (_ && _); [|reflexivity].
  destruct (negb (inCode s)); reflexivity.
Qed.

Lemma horizontalRule_core line s : core (fst (horizontalRule line s)) = core s.
Proof. unfold horizontalRule. destruct (startswithOneOf _ _); reflexivity. Qed.

Lemma preamble_core line s s1 line1 :
  preamble line s = Some (s1, line1) -> core s1 = core s.
Proof.
  unfold preamble.
  destruct (fence _ _) as [sa|] eqn:Ef; [|discriminate].
  destruct (codeLine _ _) as [sb|] eqn:Ec; [|discriminate].
  intros H. injection H as H. apply (f_equal fst) in H. cbn [fst] in H. subst s1.
  rewrite horizontalRule_core, indentedCode_core, blankEndsCode_core.
  rewrite (codeLine_core _ _ _ Ec), (fence_core _ _ _ Ef).
  rewrite htmlCodeClose_core. apply htmlCodeOpen_core.
Qed.

Lemma core_fields s1 s :
  core s1 = core s ->
  store s1 = store s /\ bullets s1 = bullets s /\ cardBullets s1 = cardBullets s /\
  inCard s1 = inCard s /\ cards s1 = cards s /\ indentSpaces s1 = indentSpaces s.
Proof. unfold core. intros [= -> -> -> -> -> ->]. repeat split. Qed.

Lemma wellFormed_core s1 s : core s1 = core s -> wellFormed s -> wellFormed s1.
Proof.
  intros H. apply core_fields in H as (Hs & Hb & Hc & Hi & Hcs & _).
  unfold wellFormed. rewrite Hs, Hb, Hc, Hi, Hcs. tauto.
Qed.

Lemma live_core s1 s r : core s1 = core s -> (live s1 r <-> live s r).
Proof.
  intros H. apply core_fields in H as (Hs & Hb & Hc & Hi & Hcs & _).
  unfold live. rewrite Hb, Hc, Hi. tauto.
Qed.

(** *** Every step keeps the addresses well formed and the closed lists
    frozen *)

Lemma frame_refl s : frame s s.
Proof. split; [lia|]. intros r _ H. split; [exact H|reflexivity]. Qed.

Lemma frame_trans s1 s2 s3 : frame s1 s2 -> frame s2 s3 -> frame s1 s3.
Proof.
  intros [L12 F12] [L23 F23]. split; [lia|].
  intros r Hr Hl. destruct (F12 r Hr Hl) as [Hl2 E12].
  destruct (F23 r ltac:(lia) Hl2) as [Hl3 E23].
  split; [exact Hl3|]. rewrite E23. exact E12.
Qed.

(** A step that leaves the store, the two addresses and the cards as
    they are, and does not open a card. *)
Lemma quiet_step s s' :
  store s' = store s -> bullets s' = bullets s -> cardBullets s' = cardBullets s ->
  cards s' = cards s -> (inCard s' = true -> inCard s = true) ->
  wellFormed s -> wellFormed s' /\ frame s s'.
Proof.
  intros Hs Hb Hc Hcs Hi (W1 & W2 & W3 & W4). split.
  - unfold wellFormed. rewrite Hs, Hb, Hc, Hcs.
    split; [exact W1|]. split; [exact W2|]. split; [|exact W4].
    intros H. apply W3, Hi, H.
  - split; [rewrite Hs; lia|]. intros r _ Hl. rewrite Hs. split; [|reflexivity].
    unfold live in *. rewrite Hb, Hc. intros [H|[H1 H2]]; apply Hl; [left; exact H|].
    right. split; [apply Hi, H1|exact H2].
Qed.

Lemma core_step s s' : core s' = core s -> wellFormed s -> wellFormed s' /\ frame s s'.
Proof.
  intros H. apply core_fields in H as (Hs & Hb & Hc & Hi & Hcs & _).
  apply quiet_step; try assumption. rewrite Hi. tauto.
Qed.

Lemma createSlide_core s : core (createSlide s) = core s.
Proof. reflexivity. Qed.

Lemma openCard_step e line s :
  wellFormed s -> wellFormed (openCard e line s) /\ frame s (openCard e line s).
Proof.
  intros (W1 & W2 & W3 & W4). unfold openCard, alloc. cbn.
  split; [split; [|split; [|split]]|split].
  - cbn. rewrite length_app. cbn. lia.
  - cbn. intros r [= <-]. rewrite length_app. cbn. lia.
  - cbn. intros _. eexists. eexists. split; [reflexivity|].
    split; [apply last_snoc|reflexivity].
  - cbn. apply Forall_app. split.
    + eapply Forall_impl; [exact W4|]. cbn. intros c [H1 H2].
      rewrite length_app. cbn. lia.
    + constructor; [|constructor]. cbn. rewrite length_app. cbn. lia.
  - cbn. rewrite length_app. lia.
  - cbn. intros r Hr Hl. split.
    + unfold live. cbn. intros [H|[_ [= H]]]; [apply Hl; left; exact H|lia].
    + apply lookup_app_l. exact Hr.
Qed.

Lemma openSlide_step e line s s' :
  wellFormed s -> openSlide e line s = Some s' -> wellFormed s' /\ frame s s'.
Proof.
  intros W. unfold openSlide.
  set (s0 := if inBlock s then createSlide s else s).
  assert (H0 : core s0 = core s) by (unfold s0; destruct (inBlock s); reflexivity).
  match goal with
  | |- context [thisLevel ?x] => set (s1 := x)
  end.
  assert (H1 : core s1 = core s0).
  { unfold s1. repeat (destruct (String.eqb _ _); [reflexivity|]). reflexivity. }
  destruct (thisLevel s1) as [level|]; [|discriminate].
  unfold alloc. cbn. intros [= <-].
  rewrite H0 in H1. apply core_fields in H1 as (Hs & Hb & Hc & Hi & Hcs & _).
  destruct W as (W1 & W2 & W3 & W4).
  split; [split; [|split; [|split]]|split]; cbn; rewrite ?Hs, ?Hc.
  - rewrite length_app. cbn. lia.
  - intros r Hr. destruct (W2 r Hr) as [Hlt _]. rewrite length_app. cbn. lia.
  - discriminate.
  - constructor.
  - rewrite length_app. lia.
  - intros r Hr Hl. split.
    + unfold live. cbn. intros [H|[H _]]; [lia|discriminate].
    + apply lookup_app_l. exact Hr.
Qed.

Lemma deref_appendAt_same s r b :
  (r < length (store s))%nat -> deref (appendAt r b s) r = deref s r ++ [b].
Proof.
  intros Hr. unfold deref, appendAt. cbn.
  destruct (lookup_lt_is_Some_2 (store s) r Hr) as [l Hl].
  rewrite list_lookup_alter_eq, Hl. reflexivity.
Qed.

Lemma store_appendAt_other s r r' b :
  r' <> r -> store (appendAt r b s) !! r' = store s !! r'.
Proof.
  intros Hne. unfold appendAt. cbn. apply list_lookup_alter_ne. congruence.
Qed.

Lemma length_store_appendAt s r b : length (store (appendAt r b s)) = length (store s).
Proof. unfold appendAt. cbn. apply length_alter. Qed.

Lemma last_removelast {A : Type} (l : list A) (x : A) :
  last l = Some x -> l = removelast l ++ [x].
Proof.
  intros H. apply last_Some in H as [l' ->]. rewrite removelast_last. reflexivity.
Qed.

(** A bullet outside a card goes to the slide's list. *)
Lemma bulletItem_on_slide kind k g s s' :
  wellFormed s -> inCard s = false -> bulletItem kind k g s = Some s' ->
  exists level,
    calculateIndentationLevel k (indentSpaces s) = Some level /\
    store s' = store (appendAt (bullets s) (Model.mkBullet level (lstrip g) kind) s) /\
    bullets s' = bullets s /\ cardBullets s' = cardBullets s /\
    cards s' = cards s /\ inCard s' = false.
Proof.
  intros W Hi. unfold bulletItem. rewrite Hi.
  destruct (calculateIndentationLevel k (indentSpaces s)) as [level|]; [|discriminate].
  intros [= <-]. exists level. split; [reflexivity|].
  match goal with
  | |- context [if ?b then _ else _] => destruct b
  end; cbn; rewrite ?Hi; repeat split.
Qed.

(** A bullet inside a card goes to the list of the open card. *)
Lemma bulletItem_on_card kind k g s :
  wellFormed s -> inCard s = true -> indentSpaces s <> 0%Z ->
  exists s' r c cs,
    bulletItem kind k g s = Some s' /\
    cardBullets s = Some r /\ (r < length (store s))%nat /\ r <> bullets s /\
    cards s = cs ++ [c] /\
    cards s' = cs ++ [mkCardObject (cardTitle c) r (cardGraphic c)] /\
    store s' = store (appendAt r
                 (Model.mkBullet (Z.quot (Z.of_nat k) (indentSpaces s)) (lstrip g) kind) s) /\
    bullets s' = bullets s /\ cardBullets s' = cardBullets s /\ inCard s' = true.
Proof.
  intros (W1 & W2 & W3 & W4) Hi Hn.
  destruct (W3 Hi) as (r & c & Hr & Hlast & Hc).
  destruct (W2 r Hr) as [Hlt Hne].
  unfold bulletItem, calculateIndentationLevel.
  destruct (Z.eqb_spec (indentSpaces s) 0) as [|_]; [contradiction|].
  rewrite Hi, Hr. unfold updateLast.
  change (cards (appendAt r _ s)) with (cards s). rewrite Hlast.
  cbn [option_map].
  eexists. exists r, c, (removelast (cards s)).
  split; [reflexivity|]. split; [reflexivity|]. split; [exact Hlt|]. split; [exact Hne|].
  split; [apply last_removelast; exact Hlast|].
  match goal with
  | |- context [if ?b then _ else _] => destruct b
  end; cbn; rewrite ?Hi; repeat split; exact Hr.
Qed.

Lemma bulletItem_step kind k g s s' :
  wellFormed s -> bulletItem kind k g s = Some s' -> wellFormed s' /\ frame s s'.
Proof.
  intros W H. destruct (inCard s) eqn:Hi.
  - assert (Hn : indentSpaces s <> 0%Z).
    { intros E. unfold bulletItem, calculateIndentationLevel in H.
      rewrite E in H. discriminate. }
    destruct (bulletItem_on_card kind k g s W Hi Hn)
      as (s2 & r & c & cs & H2 & Hr & Hlt & Hne & Hcs & Hcs' & Hst & Hb & Hcb & Hi').
    rewrite H in H2. injection H2 as <-.
    destruct W as (W1 & W2 & W3 & W4).
    assert (Hlen : length (store s') = length (store s))
      by (rewrite Hst; apply length_store_appendAt).
    split; [split; [|split; [|split]]|split].
    + rewrite Hlen, Hb. exact W1.
    + rewrite Hcb, Hlen, Hb. exact W2.
    + intros _. eexists. eexists. rewrite Hcb, Hcs'.
      split; [exact Hr|]. split; [apply last_snoc|reflexivity].
    + rewrite Hcs', Hlen, Hb. rewrite Hcs in W4.
      apply Forall_app in W4 as [W4 _]. apply Forall_app. split; [exact W4|].
      constructor; [|constructor]. cbn. split; assumption.
    + lia.
    + intros r' Hr' Hl. split.
      * unfold live in *. rewrite Hb, Hcb, Hi'. rewrite Hi in Hl. exact Hl.
      * rewrite Hst. apply store_appendAt_other. intros ->. apply Hl.
        right. split; [exact Hi|exact Hr].
  - destruct (bulletItem_on_slide kind k g s s' W Hi H)
      as (level & _ & Hst & Hb & Hcb & Hcs & Hi').
    destruct W as (W1 & W2 & W3 & W4).
    assert (Hlen : length (store s') = length (store s))
      by (rewrite Hst; apply length_store_appendAt).
    split; [split; [|split; [|split]]|split].
    + rewrite Hlen, Hb. exact W1.
    + rewrite Hcb, Hlen, Hb. exact W2.
    + rewrite Hi'. discriminate.
    + rewrite Hcs, Hlen, Hb. exact W4.
    + lia.
    + intros r' Hr' Hl. split.
      * unfold live in *. rewrite Hb, Hcb, Hi'. rewrite Hi in Hl. exact Hl.
      * rewrite Hst. apply store_appendAt_other. intros ->. apply Hl. left. reflexivity.
Qed.

Lemma mediaLine_step e line s s' :
  wellFormed s -> mediaLine e line s = Some s' -> wellFormed s' /\ frame s s'.
Proof.
  intros W. unfold mediaLine. destruct (inCard s) eqn:Hi.
  - destruct (last (cards s)) as [c|] eqn:Hlast; [|discriminate].
    destruct (cardMedia e line (cardGraphic c)) as [g|]; [|discriminate].
    intros [= <-]. destruct W as (W1 & W2 & W3 & W4).
    pose proof (last_removelast _ _ Hlast) as Hcs.
    split; [split; [|split; [|split]]|split]; cbn.
    + exact W1.
    + exact W2.
    + intros _. destruct (W3 Hi) as (r & c0 & Hr & Hl0 & Hc0).
      rewrite Hlast in Hl0. injection Hl0 as <-.
      exists r. eexists. split; [exact Hr|]. split; [apply last_snoc|exact Hc0].
    + rewrite Hcs in W4. apply Forall_app in W4 as [W4 Wc]. apply Forall_app.
      split; [exact W4|]. apply Forall_cons in Wc as [Wc _].
      constructor; [exact Wc|constructor].
    + lia.
    + intros r _ Hl. split; [exact Hl|reflexivity].
  - match goal with
    | |- context [appendToLast _ ?rows] => destruct (appendToLast (mediaItems e line) rows)
    end; [|discriminate].
    intros [= <-]. apply quiet_step; try exact W;
      destruct (inTable s); cbn; try reflexivity; try discriminate; rewrite Hi; tauto.
Qed.

Lemma tableLine_step n line s s' :
  wellFormed s -> tableLine n line s = Some s' -> wellFormed s' /\ frame s s'.
Proof.
  intros W. unfold tableLine.
  match goal with
  | |- context [appendToLast _ ?rows] => destruct (appendToLast (tableCells line) rows)
  end; [|discriminate].
  intros [= <-]. apply quiet_step; try exact W;
    cbn; destruct (inTable s); cbn; try reflexivity; try discriminate; tauto.
Qed.

Lemma otherLine_core line s : core (otherLine line s) = core s.
Proof.
  unfold otherLine.
  repeat match goal with
         | |- context [if ?b then _ else _] => destruct b
         end; reflexivity.
Qed.

Lemma dispatch_step e n line s s' :
  wellFormed s -> dispatch e n line s = Some s' -> wellFormed s' /\ frame s s'.
Proof.
  intros W. unfold dispatch. destruct (branchOf n line s).
  - intros [= <-]. apply core_step; [reflexivity|exact W].
  - intros [= <-]. apply core_step; [reflexivity|exact W].
  - intros [= <-]. apply quiet_step; try exact W; try reflexivity. tauto.
  - unfold heading. destruct (String.eqb _ _).
    + intros [= <-]. apply openCard_step. exact W.
    + apply openSlide_step. exact W.
  - apply bulletItem_step. exact W.
  - apply bulletItem_step. exact W.
  - apply mediaLine_step. exact W.
  - apply tableLine_step. exact W.
  - intros [= <-]. apply core_step; [reflexivity|exact W].
  - intros [= <-]. apply core_step; [apply otherLine_core|exact W].
Qed.

Lemma processLine_step e s n rawLine s' :
  wellFormed s -> processLine e s n rawLine = Some s' -> wellFormed s' /\ frame s s'.
Proof.
  intros W. unfold processLine. destruct (String.eqb _ _).
  - intros [= <-]. split; [exact W|apply frame_refl].
  - destruct (preamble _ s) as [[s1 line1]|] eqn:Ep; [|discriminate].
    intros H. pose proof (preamble_core _ _ _ _ Ep) as Hc.
    destruct (core_step s s1 Hc W) as [W1 F1].
    destruct (dispatch_step e n line1 s1 s' W1 H) as [W' F'].
    split; [exact W'|]. eapply frame_trans; eassumption.
Qed.

Lemma processLines_step e lines s n s' :
  wellFormed s -> processLines e s n lines = Some s' -> wellFormed s' /\ frame s s'.
Proof.
  revert s n. induction lines as [|l rest IH]; intros s n W; cbn [processLines].
  - intros [= <-]. split; [exact W|apply frame_refl].
  - destruct (processLine e s n l) as [s1|] eqn:E; [|discriminate].
    intros H. destruct (processLine_step e s n l s1 W E) as [W1 F1].
    destruct (IH s1 _ W1 H) as [W' F']. split; [exact W'|].
    eapply frame_trans; eassumption.
Qed.

Lemma initial_wellFormed indent : wellFormed (initial indent).
Proof.
  unfold wellFormed, initial. cbn. split; [lia|]. split; [discriminate|].
  split; [discriminate|constructor].
Qed.

Lemma reachable_wellFormed e indent s n : reachable e indent s n -> wellFormed s.
Proof.
  induction 1 as [|s n rawLine s' _ IH Hstep]; [apply initial_wellFormed|].
  exact (proj1 (processLine_step e s n rawLine s' IH Hstep)).
Qed.

Lemma processLines_reachable e indent lines s n s' :
  reachable e indent s n -> processLines e s n lines = Some s' ->
  reachable e indent s' (n + Z.of_nat (length lines)).
Proof.
  revert s n. induction lines as [|l rest IH]; intros s n R; cbn [processLines length].
  - intros [= <-]. replace (n + Z.of_nat 0)%Z with n by lia. exact R.
  - destruct (processLine e s n l) as [s1|] eqn:E; [|discriminate].
    intros H. replace (n + Z.of_nat (S (length rest)))%Z
      with ((n + 1) + Z.of_nat (length rest))%Z by lia.
    apply (IH s1); [|exact H]. eapply reach_step; eassumption.
Qed.

Lemma startswith_first_char (b a : ascii) (p rest : string) :
  startswith (String b p) (String a rest) = true -> a = b.
Proof.
  unfold startswith. cbn [String.prefix].
  destruct (ascii_dec b a) as [->|]; [reflexivity|discriminate].
Qed.

Lemma bulletMatch_first_char line k g :
  bulletMatch line = Some (k, g) ->
  exists a rest, line = String a rest /\ (a = "*"%char \/ isSpace a = true).
Proof.
  unfold bulletMatch. destruct line as [|a rest]; [discriminate|]. intros H.
  exists a, rest. split; [reflexivity|].
  cbn [span] in H. destruct (isSpace a); [right; reflexivity|].
  cbn [drop] in H. destruct (Ascii.eqb_spec a "*"); [left; assumption|discriminate].
Qed.

(** A line whose first character other than white space is a star, and
    which is not a horizontal rule, is taken as a bulleted item whatever
    the state. *)
Lemma star_line_is_a_bulleted_item s n rawLine k g :
  bulletMatch (normalise s rawLine) = Some (k, g) ->
  startswith "***" (normalise s rawLine) = false ->
  itemOf s n rawLine = Some ("bulleted", k, g).
Proof.
  intros Hm Hrule. unfold itemOf.
  destruct (bulletMatch_first_char _ _ _ Hm) as (a & rest & Hline & Ha).
  set (line := normalise s rawLine) in *. clearbody line. subst line.
  assert (Hnot : forall b p, b <> "*"%char -> isSpace b = false ->
                   startswith (String b p) (String a rest) = false).
  { intros b p Hb1 Hb2.
    destruct (startswith (String b p) (String a rest)) eqn:E; [|reflexivity].
    apply startswith_first_char in E. subst a.
    destruct Ha as [Ha|Ha]; [contradiction|congruence]. }
  assert (Hfirst : forall b, b <> "*"%char -> isSpace b = false ->
                     String.eqb (take 1 (String a rest)) (String b "") = false).
  { intros b Hb1 Hb2. cbn [take]. apply String.eqb_neq. intros [= ->].
    destruct Ha as [Ha|Ha]; [contradiction|congruence]. }
  assert (Hig : String.eqb (String a rest) "<ignoreme>" = false).
  { apply String.eqb_neq. intros [= -> _].
    destruct Ha as [Ha|Ha]; discriminate. }
  rewrite Hig. unfold preamble, fence.
  rewrite (Hnot "`"%char _ ltac:(discriminate) eq_refl).
  destruct (codeLine _ _) as [s2|] eqn:Ec.
  2:{ unfold codeLine in Ec. destruct (_ || _); [|discriminate].
      match type of Ec with
      | context [appendToLast _ ?c] => assert (Hc : c <> [])
      end.
      { destruct (length _ =? 0)%nat eqn:El; cbn.
        - destruct (code _); discriminate.
        - apply Nat.eqb_neq in El. intros E0.
          match type of El with length ?c <> 0%nat => destruct c end;
            [contradiction|discriminate]. }
      unfold appendToLast in Ec.
      match type of Ec with
      | context [last ?c] => destruct (last c) eqn:El
      end; [discriminate|].
      apply last_None in El. contradiction. }
  unfold horizontalRule, startswithOneOf. cbn [existsb].
  rewrite (Hnot "<"%char _ ltac:(discriminate) eq_refl).
  rewrite (Hnot "-"%char _ ltac:(discriminate) eq_refl).
  rewrite Hrule.
  rewrite (Hnot "_"%char _ ltac:(discriminate) eq_refl).
  cbn [orb]. unfold branchOf.
  rewrite (Hfirst "-"%char ltac:(discriminate) eq_refl).
  rewrite (Hnot "<"%char _ ltac:(discriminate) eq_refl).
  rewrite (Hnot "<"%char _ ltac:(discriminate) eq_refl).
  rewrite (Hnot "#"%char _ ltac:(discriminate) eq_refl).
  cbn [andb]. rewrite Hm. reflexivity.
Qed.

(** C7: in every state of the pass, (a) a bullet or numbered-item line
    met while a card is open is appended to the bullet list of that open
    card, with level [int(markerColumn / indentSpaces)] (the floor, for
    a positive [indentSpaces]), and the slide's own bullet list is left
    as it is; (b) the bullet list of a card that is not the open one
    never changes again, whatever lines follow. *)
Theorem card_bullets_stay_on_the_card (e : Env) (indent : Z) (s : State) (n : Z) :
  reachable e indent s n ->
  (forall rawLine kind k g,
      itemOf s n rawLine = Some (kind, k, g) ->
      inCard s = true -> indentSpaces s <> 0%Z ->
      exists s' r c cs,
        processLine e s n rawLine = Some s' /\
        cardBullets s = Some r /\
        cards s = cs ++ [c] /\ cardBulletsRef c = r /\
        cards s' = cs ++ [mkCardObject (cardTitle c) r (cardGraphic c)] /\
        deref s' r
          = deref s r
            ++ [Model.mkBullet (Z.quot (Z.of_nat k) (indentSpaces s)) (lstrip g) kind] /\
        ((0 < indentSpaces s)%Z ->
           Z.quot (Z.of_nat k) (indentSpaces s) = (Z.of_nat k / indentSpaces s)%Z) /\
        bullets s' = bullets s /\
        deref s' (bullets s') = deref s (bullets s)) /\
  (forall c lines s',
      closedCard s c -> processLines e s n lines = Some s' ->
      deref s' (cardBulletsRef c) = deref s (cardBulletsRef c)).
Proof.
  intros R. pose proof (reachable_wellFormed e indent s n R) as W. split.
  - intros rawLine kind k g Hitem Hi Hn.
    unfold itemOf in Hitem. unfold processLine.
    destruct (String.eqb (normalise s rawLine) "<ignoreme>"); [discriminate|].
    destruct (preamble (normalise s rawLine) s) as [[s1 line1]|] eqn:Ep; [|discriminate].
    pose proof (preamble_core _ _ _ _ Ep) as Hc.
    pose proof (wellFormed_core s1 s Hc W) as W1.
    apply core_fields in Hc as (Hs & Hb & Hcb & Hi1 & Hcs & Hind).
    assert (Hd : dispatch e n line1 s1 = bulletItem kind k g s1).
    { unfold dispatch. destruct (branchOf n line1 s1); try discriminate;
        injection Hitem as <- <- <-; reflexivity. }
    rewrite Hd.
    destruct (bulletItem_on_card kind k g s1 W1 ltac:(congruence) ltac:(congruence))
      as (s' & r & c & cs & H' & Hr & Hlt & Hne & Hcards & Hcards' & Hst & Hb' & Hcb' & Hi').
    exists s', r, c, cs.
    destruct W1 as (_ & _ & W3 & _).
    destruct (W3 ltac:(congruence)) as (r0 & c0 & Hr0 & Hlast & Hc0).
    assert (c0 = c /\ r0 = r) as [-> ->].
    { rewrite Hcards, last_snoc in Hlast. injection Hlast as <-.
      split; [reflexivity|congruence]. }
    split; [exact H'|]. split; [congruence|]. split; [congruence|].
    split; [exact Hc0|]. split; [exact Hcards'|].
    split.
    { unfold deref at 1. rewrite Hst. fold (deref (appendAt r
        (Model.mkBullet (Z.quot (Z.of_nat k) (indentSpaces s1)) (lstrip g) kind) s1) r).
      rewrite deref_appendAt_same by exact Hlt.
      unfold deref. rewrite Hs, Hind. reflexivity. }
    split; [intros Hpos; apply Z.quot_div_nonneg; lia|].
    split; [congruence|].
    unfold deref. rewrite Hst, Hb', store_appendAt_other by congruence.
    rewrite Hs, Hb. reflexivity.
  - intros c lines s' [Hin Hclosed] Hrun.
    destruct (processLines_step e lines s n s' W Hrun) as [_ [_ F]].
    destruct W as (_ & _ & _ & W4).
    rewrite List.Forall_forall in W4. destruct (W4 c Hin) as [Hlt Hne].
    destruct (F (cardBulletsRef c) Hlt) as [_ E].
    + intros [H|H]; [exact (Hne H)|exact (Hclosed H)].
    + unfold deref. rewrite E. reflexivity.
Qed.

End CompilerFacts.

Lemma card_bullets_stay_on_the_card_witness :
  exists s s',
    Compiler.processLines Compiler.exampleEnv (Compiler.initial 2) 0
      ["### T"; "* on the slide"; "#### Card"]%string = Some s /\
    Compiler.processLine Compiler.exampleEnv s 3 "  * item"%string = Some s' /\
    map (Compiler.snapshotCard s') (Compiler.cards s')
      = [Model.mkCard "Card" [Model.mkBullet 1 "item" "bulleted"] ""]%string /\
    Compiler.deref s' (Compiler.bullets s')
      = [Model.mkBullet 0 "on the slide" "bulleted"]%string.
Proof.
  destruct (Compiler.processLines Compiler.exampleEnv (Compiler.initial 2) 0
              ["### T"; "* on the slide"; "#### Card"]%string) as [s|] eqn:Es;
    [|vm_compute in Es; discriminate].
  assert (R : Compiler.reachable Compiler.exampleEnv 2 s 3).
  { change 3%Z with (0 + Z.of_nat (length ["### T"; "* on the slide"; "#### Card"]%string))%Z.
    eapply processLines_reachable; [constructor|exact Es]. }
  vm_compute in Es. injection Es as <-.
  destruct (card_bullets_stay_on_the_card _ _ _ _ R) as [Hitem _].
  destruct (Hitem "  * item"%string "bulleted"%string 2%nat " item"%string)
    as (s' & r & c & cs & Hs' & _); [reflexivity|reflexivity|discriminate|].
  eexists. exists s'. split; [reflexivity|]. split; [exact Hs'|].
  vm_compute in Hs'. injection Hs' as <-. split; reflexivity.
Defined.

(** ** More about picture scaling *)

Section ScaleMore.
Import Scale.
Local Open Scope Q_scope.

Lemma scalePicture_nonzero (maxW maxH w h : Q) r :
  scalePicture maxW maxH w h = Some r -> ~ w == 0 /\ ~ h == 0.
Proof.
  unfold scalePicture. intros H.
  destruct (Qeq_bool w 0) eqn:Ew; [discriminate|].
  destruct (Qeq_bool h 0) eqn:Eh; [discriminate|].
  split; intros E; apply Qeq_bool_iff in E; congruence.
Qed.

(** X1: whatever the box, a picture that [scalePicture] scales keeps
    its aspect ratio: [picW * imageHeight == picH * imageWidth]. *)
Theorem scalePicture_keeps_aspect_ratio (maxW maxH w h picW picH : Q) (u : bool) :
  scalePicture maxW maxH w h = Some (picW, picH, u) ->
  picW * h == picH * w.
Proof.
  intros H. destruct (scalePicture_nonzero _ _ _ _ _ H) as [Hw Hh].
  unfold scalePicture in H.
  destruct (Qeq_bool w 0 || Qeq_bool h 0); [discriminate|].
  cbv zeta in H. destruct (Qgtb (maxW * h / w) maxH); injection H as <- <- _.
  - field. exact Hh.
  - field. exact Hw.
Qed.

Lemma scalePicture_keeps_aspect_ratio_witness :
  (1200 * 3 / 4) * 4 == 1200 * 3.
Proof.
  apply (scalePicture_keeps_aspect_ratio 1600 1200 3 4 (1200 * 3 / 4) 1200 true).
  reflexivity.
Defined.

(** X2: scaling is idempotent, over exact rationals.  For a positive
    box and a positive picture, scaling the scaled picture into the
    same box again takes the same branch and returns dimensions equal
    as rationals; the floating-point quotients of the source can differ
    from them in the last bits. *)
Theorem scalePicture_idempotent (maxW maxH w h picW picH : Q) (u : bool) :
  0 < maxW -> 0 < maxH -> 0 < w -> 0 < h ->
  scalePicture maxW maxH w h = Some (picW, picH, u) ->
  exists picW' picH',
    scalePicture maxW maxH picW picH = Some (picW', picH', u) /\
    picW' == picW /\ picH' == picH.
Proof.
  intros HW HH Hw Hh H.
  assert (Hwn : ~ w == 0) by (intros E; rewrite E in Hw; exact (Qlt_irrefl _ Hw)).
  assert (Hhn : ~ h == 0) by (intros E; rewrite E in Hh; exact (Qlt_irrefl _ Hh)).
  assert (HWn : ~ maxW == 0) by (intros E; rewrite E in HW; exact (Qlt_irrefl _ HW)).
  assert (HHn : ~ maxH == 0) by (intros E; rewrite E in HH; exact (Qlt_irrefl _ HH)).
  destruct (Qlt_le_dec maxH (maxW * h / w)) as [Hgt | Hle].
  - rewrite (scalePicture_by_height _ _ _ _ Hw Hh Hgt) in H. injection H as <- <- <-.
    assert (Hp : 0 < maxH * w / h).
    { apply div_gt_iff; [exact Hh|]. rewrite Qmult_0_l.
      rewrite <- (Qmult_0_l w). apply Qmult_lt_r; assumption. }
    assert (Hgt' : maxH < maxW * maxH / (maxH * w / h)).
    { assert (E : maxW * maxH / (maxH * w / h) == maxW * h / w)
        by (field; repeat split; assumption).
      rewrite E. exact Hgt. }
    rewrite (scalePicture_by_height _ _ _ _ Hp HH Hgt').
    eexists. eexists. split; [reflexivity|]. split; [|reflexivity].
    field. split; assumption.
  - rewrite (scalePicture_by_width _ _ _ _ Hw Hh Hle) in H. injection H as <- <- <-.
    assert (Hp : 0 < maxW * h / w).
    { apply div_gt_iff; [exact Hw|]. rewrite Qmult_0_l.
      rewrite <- (Qmult_0_l h). apply Qmult_lt_r; assumption. }
    assert (Hle' : maxW * (maxW * h / w) / maxW <= maxH).
    { assert (E : maxW * (maxW * h / w) / maxW == maxW * h / w)
        by (field; split; assumption).
      rewrite E. exact Hle. }
    rewrite (scalePicture_by_width _ _ _ _ HW Hp Hle').
    eexists. eexists. split; [reflexivity|]. split; [reflexivity|].
    field. split; assumption.
Qed.

Lemma scalePicture_idempotent_witness :
  exists picW' picH',
    scalePicture 400 300 400 (400 * 300 / 800) = Some (picW', picH', false) /\
    picW' == 400 /\ picH' == 400 * 300 / 800.
Proof.
  apply (scalePicture_idempotent 400 300 800 300 400 (400 * 300 / 800) false);
    reflexivity.
Defined.

End ScaleMore.

(** ** More about the content-area split *)

Section SplitMore.
Import Split.
Local Open Scope Z_scope.

Lemma sum_nonneg (l : list Z) :
  Forall (fun w => 0 <= w) l -> 0 <= fold_left Z.add l 0.
Proof.
  induction 1 as [|x l Hx _ IH]; simpl; [lia|].
  rewrite fold_left_add_acc. lia.
Qed.

Lemma sum_take_le (l : list Z) (i : nat) :
  Forall (fun w => 0 <= w) l ->
  fold_left Z.add (take i l) 0 <= fold_left Z.add l 0.
Proof.
  intros H. revert i. induction H as [|x l Hx Hl IH]; intros [|i]; simpl; try lia.
  - rewrite fold_left_add_acc. pose proof (sum_nonneg l Hl). lia.
  - rewrite (fold_left_add_acc (take i l)), (fold_left_add_acc l). specialize (IH i). lia.
Qed.

(** The shares handed out never add up to more than the extent. *)
Lemma shares_le (total all : Z) (l : list Z) :
  0 <= total -> 0 < all -> Forall (fun w => 0 <= w) l ->
  0 <= fold_left Z.add (map (fun w => share total w all) l) 0 /\
  all * fold_left Z.add (map (fun w => share total w all) l) 0
  <= total * fold_left Z.add l 0.
Proof.
  intros Ht Ha H. induction H as [|x l Hx _ [IH0 IH]]; simpl; [lia|].
  rewrite (fold_left_add_acc (map _ l)), (fold_left_add_acc l).
  unfold share at 1 3. rewrite Z.quot_div_nonneg by nia.
  pose proof (Z.mul_div_le (total * x) all Ha).
  pose proof (Z.div_pos (total * x) all ltac:(nia) Ha). nia.
Qed.

Lemma share_bounds (total all x : Z) :
  0 <= total -> 0 < all -> 0 <= x ->
  0 <= share total x all /\ all * share total x all <= total * x.
Proof.
  intros Ht Ha Hx. unfold share. rewrite Z.quot_div_nonneg by nia.
  pose proof (Z.mul_div_le (total * x) all Ha).
  pose proof (Z.div_pos (total * x) all ltac:(nia) Ha). lia.
Qed.

(** A rectangle the split hands out lies inside the area it splits. *)
Lemma placed_inside direction content (contentSplit : list Z)
    (sequence : list BlockKind) rects (i : nat) r :
  0 <= height content -> 0 <= width content ->
  Forall (fun w => 0 <= w) contentSplit ->
  renderingRectangles direction content contentSplit sequence = Some rects ->
  rects !! i = Some r ->
  if String.eqb direction "vertical" then
    top content <= top r /\ 0 <= height r /\
    top r + height r <= top content + height content /\
    left r = left content /\ width r = width content
  else
    left content <= left r /\ 0 <= width r /\
    left r + width r <= left content + width content /\
    top r = top content /\ height r = height content.
Proof.
  intros Hh Hw Hpos HR Hi. unfold renderingRectangles, allContentSplit in HR.
  set (n := blocksToRender sequence) in *.
  destruct (Nat.leb_spec n (length contentSplit)) as [Hn|]; [|discriminate].
  set (all := fold_left Z.add (take n contentSplit) 0) in *.
  destruct ((all =? 0) && negb (n =? 0)%nat) eqn:E; [discriminate|].
  injection HR as <-.
  assert (Hlt : (i < n)%nat).
  { apply lookup_lt_Some in Hi. rewrite placeBlocks_length, length_take in Hi. lia. }
  assert (Hposn : Forall (fun w => 0 <= w) (take n contentSplit))
    by (apply Forall_take; exact Hpos).
  assert (Hall : 0 < all).
  { pose proof (sum_nonneg _ Hposn) as H0. fold all in H0.
    destruct (Z.eqb_spec all 0) as [E0|]; [|lia].
    destruct (Nat.eqb_spec n 0); [lia|discriminate]. }
  destruct (lookup_lt_is_Some_2 (take n contentSplit) i) as [w Hwi];
    [rewrite length_take; lia|].
  rewrite (placeBlocks_lookup _ _ _ _ _ _ i w Hwi) in Hi. injection Hi as <-.
  assert (Hw0 : 0 <= w).
  { rewrite Forall_lookup in Hposn. exact (Hposn i w Hwi). }
  assert (Hsplit : take (S i) (take n contentSplit) = take i (take n contentSplit) ++ [w]).
  { apply take_S_r. exact Hwi. }
  assert (Hbound : forall total, 0 <= total ->
            0 <= fold_left Z.add
                   (map (fun x => share total x all) (take i (take n contentSplit))) 0 /\
            0 <= share total w all /\
            fold_left Z.add
              (map (fun x => share total x all) (take i (take n contentSplit))) 0
            + share total w all <= total).
  { intros total Ht.
    assert (Hpi : Forall (fun w => 0 <= w) (take (S i) (take n contentSplit)))
      by (apply Forall_take; exact Hposn).
    pose proof (shares_le total all _ Ht Hall Hpi) as [_ Hs].
    pose proof (sum_take_le (take n contentSplit) (S i) Hposn) as Hle. fold all in Hle.
    assert (Hpi' : Forall (fun w => 0 <= w) (take i (take n contentSplit)))
      by (apply Forall_take; exact Hposn).
    pose proof (shares_le total all _ Ht Hall Hpi') as [H0 _].
    pose proof (share_bounds total all w Ht Hall Hw0) as [Hs0 _].
    assert (Hsum : fold_left Z.add
                     (map (fun x => share total x all) (take (S i) (take n contentSplit))) 0
                   = fold_left Z.add
                       (map (fun x => share total x all) (take i (take n contentSplit))) 0
                     + share total w all).
    { rewrite Hsplit, map_app, fold_left_app. reflexivity. }
    rewrite Hsum in Hs.
    split; [exact H0|]. split; [exact Hs0|].
    assert (Hm : total * fold_left Z.add (take (S i) (take n contentSplit)) 0 <= total * all)
      by (apply Z.mul_le_mono_nonneg_l; assumption).
    apply (Z.mul_le_mono_pos_l _ _ all Hall). lia. }
  destruct (String.eqb direction "vertical"); cbn [top left height width].
  - destruct (Hbound (height content) Hh) as (H1 & H2 & H3). lia.
  - destruct (Hbound (width content) Hw) as (H1 & H2 & H3). lia.
Qed.

(** X3: with non-negative weights and a content area of non-negative
    extent, every rendering rectangle of the split lies inside the
    content area: along the split axis it starts at or after the start
    of the area and ends at or before its end, and along the other axis
    it has the position and the extent of the area. *)
Theorem rendering_rectangles_stay_inside direction content (contentSplit : list Z)
    (sequence : list BlockKind) rects (i : nat) r :
  0 <= height content -> 0 <= width content ->
  Forall (fun w => 0 <= w) contentSplit ->
  renderingRectangles direction content contentSplit sequence = Some rects ->
  rects !! i = Some r ->
  if String.eqb direction "vertical" then
    top content <= top r /\ 0 <= height r /\
    top r + height r <= top content + height content /\
    left r = left content /\ width r = width content
  else
    left content <= left r /\ 0 <= width r /\
    left r + width r <= left content + width content /\
    top r = top content /\ height r = height content.
Proof.
  intros Hh Hw Hpos HR Hi.
  exact (placed_inside direction content contentSplit sequence rects i r Hh Hw Hpos HR Hi).
Qed.

Lemma rendering_rectangles_stay_inside_witness :
  if String.eqb "vertical" "vertical" then
    top (mkRectangle 10 20 600 900) <= top (mkRectangle 210 20 400 900) /\
    0 <= height (mkRectangle 210 20 400 900) /\
    top (mkRectangle 210 20 400 900) + height (mkRectangle 210 20 400 900)
    <= top (mkRectangle 10 20 600 900) + height (mkRectangle 10 20 600 900) /\
    left (mkRectangle 210 20 400 900) = left (mkRectangle 10 20 600 900) /\
    width (mkRectangle 210 20 400 900) = width (mkRectangle 10 20 600 900)
  else
    left (mkRectangle 10 20 600 900) <= left (mkRectangle 210 20 400 900) /\
    0 <= width (mkRectangle 210 20 400 900) /\
    left (mkRectangle 210 20 400 900) + width (mkRectangle 210 20 400 900)
    <= left (mkRectangle 10 20 600 900) + width (mkRectangle 10 20 600 900) /\
    top (mkRectangle 210 20 400 900) = top (mkRectangle 10 20 600 900) /\
    height (mkRectangle 210 20 400 900) = height (mkRectangle 10 20 600 900).
Proof.
  apply (rendering_rectangles_stay_inside "vertical" (mkRectangle 10 20 600 900)
           [1; 2; 1] [KList; KTable]
           [mkRectangle 10 20 200 900; mkRectangle 210 20 400 900] 1).
  - simpl. lia.
  - simpl. lia.
  - repeat constructor; lia.
  - reflexivity.
  - reflexivity.
Defined.

(** X4: consecutive rendering rectangles abut along the split axis:
    every block starts exactly where the block before it ends. *)
Theorem rendering_rectangles_abut direction content (contentSplit : list Z)
    (sequence : list BlockKind) rects (i : nat) r r' :
  renderingRectangles direction content contentSplit sequence = Some rects ->
  rects !! i = Some r -> rects !! S i = Some r' ->
  if String.eqb direction "vertical"
  then top r' = top r + height r
  else left r' = left r + width r.
Proof.
  intros HR Hi Hi'. unfold renderingRectangles, allContentSplit in HR.
  set (n := blocksToRender sequence) in *.
  destruct (n <=? length contentSplit)%nat; [|discriminate].
  set (all := fold_left Z.add (take n contentSplit) 0) in *.
  destruct ((all =? 0) && negb (n =? 0)%nat); [discriminate|].
  injection HR as <-.
  assert (Hl : (S i < length (take n contentSplit))%nat).
  { apply lookup_lt_Some in Hi'. rewrite placeBlocks_length in Hi'. exact Hi'. }
  destruct (lookup_lt_is_Some_2 (take n contentSplit) i) as [w Hw]; [lia|].
  destruct (lookup_lt_is_Some_2 (take n contentSplit) (S i)) as [w' Hw']; [lia|].
  rewrite (placeBlocks_lookup _ _ _ _ _ _ i w Hw) in Hi. injection Hi as <-.
  rewrite (placeBlocks_lookup _ _ _ _ _ _ (S i) w' Hw') in Hi'. injection Hi' as <-.
  rewrite (take_S_r _ _ _ Hw), !map_app, !fold_left_app.
  destruct (String.eqb direction "vertical");
    cbn [top left height width map fold_left]; lia.
Qed.

Lemma rendering_rectangles_abut_witness :
  if String.eqb "horizontal" "vertical"
  then top (mkRectangle 0 225 600 450) = top (mkRectangle 0 0 600 225)
                                          + height (mkRectangle 0 0 600 225)
  else left (mkRectangle 0 225 600 450) = left (mkRectangle 0 0 600 225)
                                          + width (mkRectangle 0 0 600 225).
Proof.
  apply (rendering_rectangles_abut "horizontal" (mkRectangle 0 0 600 900)
           [1; 2; 1] [KList; KTable; KCode]
           [mkRectangle 0 0 600 225; mkRectangle 0 225 600 450;
            mkRectangle 0 675 600 225] 0); reflexivity.
Defined.

(** The counters of the dispatch loop count the table and the code
    blocks met so far. *)
Lemma dispatch_numbers kinds rects (t c i : nat) call :
  dispatch kinds rects t c !! i = Some call ->
  match call with
  | CreateTableBlock _ k => k = (t + Blocks.tablesBefore kinds i)%nat
  | CreateCodeBlock _ k => k = (c + Blocks.codeBlocksBefore kinds i)%nat
  | CreateListBlock _ => True
  end.
Proof.
  unfold Blocks.tablesBefore, Blocks.codeBlocksBefore.
  revert rects t c i. induction kinds as [|k0 ks IH]; intros [|r0 rs] t c i H;
    try (destruct k0; discriminate); try discriminate.
  destruct i as [|i].
  - destruct k0; cbn in H; injection H as <-; cbn; try exact I; lia.
  - destruct k0; cbn [dispatch] in H;
      change ((?x :: ?l) !! S i) with (l !! i) in H;
      specialize (IH _ _ _ _ H); destruct call; try exact I;
      cbn [take List.filter Blocks.isTable Blocks.isCode length]; lia.
Qed.

(** X5: the table blocks of a slide are numbered in order from 0, and
    so are its code blocks: the call made for block [i] carries the
    number of table (code) entries of [sequence] before entry [i],
    whatever other blocks lie in between. *)
Theorem blocks_are_numbered_per_kind direction content (contentSplit : list Z)
    (sequence : list BlockKind) calls (i : nat) call :
  renderBlocks direction content contentSplit sequence = Some calls ->
  calls !! i = Some call ->
  match call with
  | CreateTableBlock _ tableBlockNumber =>
      tableBlockNumber = Blocks.tablesBefore sequence i
  | CreateCodeBlock _ codeBlockNumber =>
      codeBlockNumber = Blocks.codeBlocksBefore sequence i
  | CreateListBlock _ => True
  end.
Proof.
  unfold renderBlocks. intros H Hi.
  destruct (renderingRectangles direction content contentSplit sequence) as [rects|] eqn:HR;
    [|discriminate].
  injection H as <-.
  assert (Hlt : (i < blocksToRender sequence)%nat).
  { apply lookup_lt_Some in Hi.
    assert (Hd : forall kinds rs t c, (length (dispatch kinds rs t c) <= length kinds)%nat).
    { induction kinds as [|k ks IH]; intros [|r0 rs] t c; simpl; try lia.
      destruct k; simpl; specialize (IH rs); [specialize (IH t c)
        |specialize (IH (S t) c)|specialize (IH t (S c))]; lia. }
    specialize (Hd (take (blocksToRender sequence) sequence) rects 0%nat 0%nat).
    rewrite length_take in Hd. lia. }
  pose proof (dispatch_numbers _ _ 0 0 i call Hi) as Hnum.
  unfold Blocks.tablesBefore, Blocks.codeBlocksBefore in *.
  rewrite take_take, Nat.min_l in Hnum by lia. exact Hnum.
Qed.

Lemma blocks_are_numbered_per_kind_witness :
  1%nat = Blocks.tablesBefore [KTable; KList; KTable] 2.
Proof.
  apply (blocks_are_numbered_per_kind "vertical" (mkRectangle 0 0 600 900)
           [1; 1; 1] [KTable; KList; KTable]
           [CreateTableBlock (mkRectangle 0 0 200 900) 0;
            CreateListBlock (mkRectangle 200 0 200 900);
            CreateTableBlock (mkRectangle 400 0 200 900) 1] 2
           (CreateTableBlock (mkRectangle 400 0 200 900) 1)); reflexivity.
Defined.

(** X6: at most [maxBlocks] blocks are rendered: a slide gets
    [min(10, len(sequence))] block calls, in the order of [sequence],
    and the entries after the tenth are never rendered. *)
Theorem at_most_ten_blocks_rendered direction content (contentSplit : list Z)
    (sequence : list BlockKind) calls :
  renderBlocks direction content contentSplit sequence = Some calls ->
  length calls = Nat.min 10 (length sequence) /\
  map callKind calls = take 10 sequence.
Proof.
  unfold renderBlocks. intros H.
  destruct (renderingRectangles direction content contentSplit sequence) as [rects|] eqn:HR;
    [|discriminate].
  injection H as <-.
  assert (Hlen : length rects = blocksToRender sequence).
  { unfold renderingRectangles, allContentSplit in HR.
    destruct (Nat.leb_spec (blocksToRender sequence) (length contentSplit)); [|discriminate].
    destruct (_ && _); [discriminate|]. injection HR as <-.
    rewrite placeBlocks_length, length_take. lia. }
  assert (Hk : length (take (blocksToRender sequence) sequence) = length rects).
  { rewrite Hlen, length_take. unfold blocksToRender. lia. }
  split.
  - rewrite dispatch_length by exact Hk. rewrite Hk, Hlen. reflexivity.
  - change 10%nat with maxBlocks.
    assert (Ht : take (blocksToRender sequence) sequence = take maxBlocks sequence).
    { unfold blocksToRender. destruct (Nat.le_ge_cases maxBlocks (length sequence)).
      - rewrite Nat.min_l by assumption. reflexivity.
      - rewrite Nat.min_r by assumption. rewrite !take_ge by lia. reflexivity. }
    rewrite <- Ht. clear Ht Hlen HR.
    generalize dependent rects. generalize 0%nat at 1. generalize 0%nat.
    induction (take (blocksToRender sequence) sequence) as [|k ks IH];
      intros c t [|r rs] Hk; try discriminate; [reflexivity|].
    destruct k; cbn [dispatch map callKind]; f_equal; apply IH; simpl in Hk; lia.
Qed.

Lemma at_most_ten_blocks_rendered_witness :
  exists calls,
    renderBlocks "vertical" (mkRectangle 0 0 6000 900) [1; 1; 1; 1; 1; 1; 1; 1; 1; 1]
      [KTable; KList; KCode; KTable; KCode; KCode; KTable; KList; KCode; KTable;
       KCode; KTable]
    = Some calls /\
    length calls = 10%nat /\
    map callKind calls
    = [KTable; KList; KCode; KTable; KCode; KCode; KTable; KList; KCode; KTable].
Proof.
  eexists. split; [reflexivity|].
  apply (at_most_ten_blocks_rendered "vertical" (mkRectangle 0 0 6000 900)
           [1; 1; 1; 1; 1; 1; 1; 1; 1; 1]
           [KTable; KList; KCode; KTable; KCode; KCode; KTable; KList; KCode; KTable;
            KCode; KTable]).
  reflexivity.
Defined.

(** The split fails exactly in two cases: the weight vector is
    shorter than the number of blocks to render ([IndexError]), or
    there is a block to render and the weights of the rendered blocks
    add up to zero ([ZeroDivisionError]). *)
Lemma content_split_fails_iff direction content (contentSplit : list Z)
    (sequence : list BlockKind) :
  renderBlocks direction content contentSplit sequence = None <->
  (length contentSplit < blocksToRender sequence)%nat \/
  (sequence <> [] /\
   fold_left Z.add (take (blocksToRender sequence) contentSplit) 0 = 0).
Proof.
  unfold renderBlocks, renderingRectangles, allContentSplit.
  assert (Hn : blocksToRender sequence = 0%nat <-> sequence = []).
  { unfold blocksToRender, maxBlocks. destruct sequence; simpl; split;
      intros; try reflexivity; try discriminate; lia. }
  remember (blocksToRender sequence) as n eqn:En. clear En.
  destruct (Nat.leb_spec n (length contentSplit)) as [Hle|Hlt].
  - destruct (Z.eqb_spec (fold_left Z.add (take n contentSplit) 0) 0) as [E|E];
      destruct (Nat.eqb_spec n 0) as [E0|E0]; cbn; split; intros H;
        try discriminate; try reflexivity.
    + destruct H as [H|[H _]]; [lia|]. apply Hn in E0. contradiction.
    + right. split; [|exact E]. intros Hs. apply Hn in Hs. contradiction.
    + destruct H as [H|[_ H]]; [lia|contradiction].
    + destruct H as [H|[_ H]]; [lia|contradiction].
  - split; [intros _; left; lia|reflexivity].
Qed.

End SplitMore.

(** ** More about the heights of the list block *)

Section ListBlockMore.
Import ListBlock.
Local Open Scope Z_scope.

Lemma Qtrunc_comp (q q' : Q) : (q == q')%Q -> Qtrunc q = Qtrunc q'.
Proof.
  intros E. unfold Qtrunc.
  assert (Hb : Qle_bool 0 q = Qle_bool 0 q').
  { destruct (Qle_bool 0 q) eqn:A; destruct (Qle_bool 0 q') eqn:B; try reflexivity.
    - apply Qle_bool_iff in A. rewrite E in A. apply Qle_bool_iff in A. congruence.
    - apply Qle_bool_iff in B. rewrite <- E in B. apply Qle_bool_iff in B. congruence. }
  rewrite Hb. destruct (Qle_bool 0 q'); [apply Qfloor_comp|apply Qceiling_comp]; exact E.
Qed.

Lemma Qtrunc_inject (h : Z) (q : Q) :
  0 <= h -> (0 <= q)%Q -> (q <= 1)%Q ->
  0 <= Qtrunc (inject_Z h * q) <= h.
Proof.
  intros Hh H0 H1. unfold Qtrunc.
  assert (Hq : (0 <= inject_Z h * q)%Q).
  { apply Qmult_le_0_compat; [|exact H0].
    change 0%Q with (inject_Z 0). rewrite <- Zle_Qle. exact Hh. }
  apply Qle_bool_iff in Hq as Hb. rewrite Hb. split.
  - rewrite <- (Qfloor_Z 0). apply Qfloor_resp_le. exact Hq.
  - rewrite <- (Qfloor_Z h) at 2. apply Qfloor_resp_le.
    rewrite (Qmult_comm (inject_Z h) q).
    apply Qle_trans with (1 * inject_Z h)%Q; [|rewrite Qmult_1_l; apply Qle_refl].
    apply Qmult_le_compat_r; [exact H1|].
    change 0%Q with (inject_Z 0). rewrite <- Zle_Qle. exact Hh.
Qed.

(** X8: the bullets shape and the card area share the height of the
    rendering rectangle: their heights always add up to it, and for a
    non-negative height and a card percentage between 0 and 100 none of
    the two is negative or higher than the rectangle. *)
Theorem list_block_heights_partition {B C : Type} (bullets : list B) (cards : list C)
    (rectHeight : Z) (cardPercent : Q) :
  0 <= rectHeight -> (0 <= cardPercent)%Q -> (cardPercent <= 100)%Q ->
  let '(bulletsHeight, cardAreaHeight, _) :=
    listBlockHeights bullets cards rectHeight cardPercent in
  bulletsHeight + cardAreaHeight = rectHeight /\
  0 <= bulletsHeight <= rectHeight /\ 0 <= cardAreaHeight <= rectHeight.
Proof.
  intros Hh H0 H1. unfold listBlockHeights.
  destruct cards as [|c cs]; [lia|].
  destruct (0 <? length bullets)%nat; [|lia].
  assert (E : (inject_Z rectHeight * (100 - cardPercent) / 100
               == inject_Z rectHeight * ((100 - cardPercent) / 100))%Q) by field.
  assert (Hb : 0 <= Qtrunc (inject_Z rectHeight * ((100 - cardPercent) / 100)) <= rectHeight).
  { apply Qtrunc_inject; [exact Hh| |].
    - apply Qle_shift_div_l; [reflexivity|]. rewrite Qmult_0_l.
      rewrite <- (Qplus_opp_r cardPercent). apply Qplus_le_l. exact H1.
    - apply Qle_shift_div_r; [reflexivity|]. rewrite Qmult_1_l.
      rewrite <- (Qplus_0_r 100) at 2. apply Qplus_le_r.
      rewrite <- (Qplus_le_l _ _ cardPercent). ring_simplify. exact H0. }
  assert (Et : Qtrunc (inject_Z rectHeight * (100 - cardPercent) / 100)
               = Qtrunc (inject_Z rectHeight * ((100 - cardPercent) / 100))).
  { apply Qtrunc_comp. exact E. }
  rewrite Et. lia.
Qed.

Lemma list_block_heights_partition_witness :
  let '(bulletsHeight, cardAreaHeight, _) :=
    listBlockHeights [tt] [tt; tt] 1000 (80 # 1) in
  bulletsHeight + cardAreaHeight = 1000 /\
  0 <= bulletsHeight <= 1000 /\ 0 <= cardAreaHeight <= 1000.
Proof.
  apply (list_block_heights_partition [tt] [tt; tt] 1000 (80 # 1)).
  - lia.
  - discriminate.
  - discriminate.
Defined.

End ListBlockMore.
(** ** More about the footnote pages *)

Section FootnotePagesFacts.
Import Model Footnotes FootnotePages.

Variable footnotesTitle : string.
Variable cardsArg : list Card.
Variable p : nat.
Hypothesis p_pos : 0 < p.

(** In a list of pages that all hold [p] items but the last, item [k]
    is item [k mod p] of page [k / p]. *)
Lemma lookup_concat_pages {A : Type} (pages : list (list A)) (lastPage : list A)
    (k : nat) (x : A) :
  Forall (fun l => length l = p) pages -> length lastPage <= p ->
  (concat pages ++ lastPage) !! k = Some x ->
  exists l, (pages ++ [lastPage]) !! (k / p) = Some l /\ l !! (k mod p) = Some x.
Proof using p_pos.
  intros Hall Hlast. revert k. induction Hall as [|l pages Hl _ IH]; intros k Hk.
  - cbn in Hk. apply lookup_lt_Some in Hk as Hlt.
    rewrite Nat.div_small, Nat.mod_small by lia. exists lastPage. split; [reflexivity|exact Hk].
  - cbn [concat] in Hk. rewrite <- app_assoc in Hk.
    destruct (Nat.lt_ge_cases k p) as [Hlt|Hge].
    + rewrite lookup_app_l in Hk by lia.
      rewrite Nat.div_small, Nat.mod_small by lia. exists l. split; [reflexivity|exact Hk].
    + rewrite lookup_app_r in Hk by lia. rewrite Hl in Hk.
      destruct (IH _ Hk) as (l' & Hl' & Hx). exists l'.
      assert (Hd : k / p = S ((k - p) / p)).
      { symmetry. apply (Nat.div_unique _ _ _ ((k - p) mod p)).
        - apply Nat.mod_upper_bound. lia.
        - pose proof (Nat.div_mod_eq (k - p) p). lia. }
      assert (Hm : k mod p = (k - p) mod p).
      { symmetry. apply (Nat.mod_unique _ _ (S ((k - p) / p))).
        - apply Nat.mod_upper_bound. lia.
        - pose proof (Nat.div_mod_eq (k - p) p). lia. }
      rewrite Hd, Hm. split; [exact Hl'|exact Hx].
Qed.

Lemma step_contents (count k : nat) (st : State) (f : string * string) :
  1 <= k \/ pageBullets st = [] ->
  contents (step footnotesTitle cardsArg count (Z.of_nat p) st k f)
  = contents st ++ [footnoteBullet k f].
Proof.
  intros Hk. unfold step, contents.
  destruct (Z.of_nat k mod Z.of_nat p =? 0)%Z.
  - destruct (Nat.ltb_spec 0 k) as [_|H0]; cbn.
    + rewrite map_app, concat_app. cbn. rewrite ?app_nil_r, <- ?app_assoc. reflexivity.
    + destruct Hk as [Hk|Hk]; [lia|]. rewrite Hk, ?app_nil_r. reflexivity.
  - cbn. rewrite <- ?app_assoc. reflexivity.
Qed.

Lemma loop_contents (count : nat) (fs : list (string * string)) (k : nat) (st : State) :
  1 <= k \/ pageBullets st = [] ->
  contents (loop footnotesTitle cardsArg count (Z.of_nat p) fs k st)
  = contents st ++ imap (fun i f => footnoteBullet (k + i) f) fs.
Proof.
  revert k st. induction fs as [|f fs IH]; intros k st Hk; cbn [loop imap].
  - rewrite app_nil_r. reflexivity.
  - rewrite IH by (left; lia). rewrite step_contents by exact Hk.
    rewrite <- app_assoc. cbn. rewrite Nat.add_0_r. do 2 f_equal.
    apply imap_ext. intros i x _. cbn. f_equal. lia.
Qed.

Lemma step_numbered (count k : nat) (st : State) (f : string * string) :
  numbered footnotesTitle count (Z.of_nat p) st ->
  numbered footnotesTitle count (Z.of_nat p)
    (step footnotesTitle cardsArg count (Z.of_nat p) st k f).
Proof.
  intros [Hn Ht]. unfold step.
  destruct (Z.of_nat k mod Z.of_nat p =? 0)%Z; [|split; [exact Hn|exact Ht]].
  destruct (0 <? k); [|split; [exact Hn|exact Ht]].
  split; cbn.
  - rewrite length_app. cbn. lia.
  - intros j s Hj. destruct (Nat.lt_ge_cases j (length (footnoteSlides st))) as [Hlt|Hge].
    + rewrite lookup_app_l in Hj by exact Hlt. exact (Ht j s Hj).
    + rewrite lookup_app_r in Hj by exact Hge.
      destruct (j - length (footnoteSlides st)) as [|d] eqn:Ed; [|destruct d; discriminate].
      injection Hj as <-. cbn. rewrite Hn. f_equal. lia.
Qed.

Lemma loop_numbered (count : nat) (fs : list (string * string)) (k : nat) (st : State) :
  numbered footnotesTitle count (Z.of_nat p) st ->
  numbered footnotesTitle count (Z.of_nat p)
    (loop footnotesTitle cardsArg count (Z.of_nat p) fs k st).
Proof.
  revert k st. induction fs as [|f fs IH]; intros k st H; cbn [loop]; [exact H|].
  apply IH. apply step_numbered. exact H.
Qed.

(** X9: every footnote is listed, in order and under its number: with
    a positive page size [P], footnote [k] (from 0) is item [k mod P]
    of the slide at index [k / P] (rounded down), and its text is
    ["<k+1>. <definition>"]. *)
Theorem footnote_is_on_its_page (footnoteDefinitions : list (string * string))
    (slides : list SlideInfo) (k : nat) (footnote : string * string) :
  createFootnoteSlides footnotesTitle cardsArg (Z.of_nat p) footnoteDefinitions
    = Some slides ->
  footnoteDefinitions !! k = Some footnote ->
  exists slide,
    slides !! (k / p)%nat = Some slide /\
    slideBullets slide !! (k mod p) = Some (footnoteBullet k footnote).
Proof using p_pos.
  intros H Hk. destruct footnoteDefinitions as [|f fs]; [discriminate|].
  unfold createFootnoteSlides in H.
  destruct (Z.eqb_spec (Z.of_nat p) 0) as [E|_]; [lia|].
  injection H as <-. cbn [loop].
  set (st1 := step footnotesTitle cardsArg (length (f :: fs)) (Z.of_nat p)
                (mkState [] [] 0) 0 f).
  set (st := loop footnotesTitle cardsArg (length (f :: fs)) (Z.of_nat p) fs 1 st1).
  pose proof (loop_paged footnotesTitle cardsArg p p_pos (length (f :: fs)) fs 1 _
                (Nat.le_refl 1)
                (first_step_paged footnotesTitle cardsArg p p_pos (length (f :: fs)) f))
    as (q & r & Hq & Hr & Hs & Hall & Hb).
  fold st1 in Hall, Hb, Hs. fold st in Hall, Hb, Hs.
  assert (Hc : contents st = imap footnoteBullet (f :: fs)).
  { unfold st. rewrite loop_contents by (left; lia).
    unfold st1. rewrite step_contents by (right; reflexivity).
    cbn. f_equal. }
  assert (Hx : (concat (map slideBullets (footnoteSlides st)) ++ pageBullets st) !! k
               = Some (footnoteBullet k footnote)).
  { change (contents st !! k = Some (footnoteBullet k footnote)).
    rewrite Hc, list_lookup_imap, Hk. reflexivity. }
  apply lookup_concat_pages in Hx.
  - destruct Hx as (l & Hl & Hlk).
    cbn [emitPage footnoteSlides].
    assert (Hmap : map slideBullets
                     (footnoteSlides st ++
                      [mkSlideInfo
                         (pageTitle footnotesTitle (length (f :: fs)) (Z.of_nat p)
                            (S (footnotesSlideNumber st)))
                         "" "content" (pageBullets st) [] cardsArg [] ["list"%string]])
                   = map slideBullets (footnoteSlides st) ++ [pageBullets st]).
    { rewrite map_app. reflexivity. }
    rewrite <- Hmap in Hl. rewrite list_lookup_fmap in Hl.
    destruct (_ !! (k / p)) as [slide|] eqn:Es; [|discriminate].
    exists slide. split; [reflexivity|]. cbn in Hl. injection Hl as ->. exact Hlk.
  - apply Forall_fmap. exact Hall.
  - lia.
Qed.

(** X10: the footnote slides are titled by their number: when there
    are more footnotes than fit on a page, the slide at index [j] is
    titled ["<footnotesTitle> - <j+1>"]; otherwise the only slide
    carries the plain title. *)
Theorem footnote_slides_are_numbered (footnoteDefinitions : list (string * string))
    (slides : list SlideInfo) (j : nat) (slide : SlideInfo) :
  createFootnoteSlides footnotesTitle cardsArg (Z.of_nat p) footnoteDefinitions
    = Some slides ->
  slides !! j = Some slide ->
  titleText slide =
    if (p <? length footnoteDefinitions)%nat
    then (footnotesTitle +:+ " - " +:+ pretty (S j))%string
    else footnotesTitle.
Proof using p_pos.
  intros H Hj. destruct footnoteDefinitions as [|f fs]; [discriminate|].
  unfold createFootnoteSlides in H.
  destruct (Z.eqb_spec (Z.of_nat p) 0) as [E|_]; [lia|].
  injection H as <-. cbn [loop] in Hj.
  set (st := loop footnotesTitle cardsArg (length (f :: fs)) (Z.of_nat p) fs 1
               (step footnotesTitle cardsArg (length (f :: fs)) (Z.of_nat p)
                  (mkState [] [] 0) 0 f)) in *.
  assert (Hnum : numbered footnotesTitle (length (f :: fs)) (Z.of_nat p) st).
  { apply loop_numbered. apply step_numbered. split; [reflexivity|].
    intros j' s' Hj'. discriminate. }
  assert (Hn : numbered footnotesTitle (length (f :: fs)) (Z.of_nat p)
                 (emitPage footnotesTitle cardsArg (length (f :: fs)) (Z.of_nat p) st)).
  { destruct Hnum as [Hn Ht]. split; cbn.
    - rewrite length_app. cbn. lia.
    - intros j' s' Hj'.
      destruct (Nat.lt_ge_cases j' (length (footnoteSlides st))) as [Hlt|Hge].
      + rewrite lookup_app_l in Hj' by exact Hlt. exact (Ht j' s' Hj').
      + rewrite lookup_app_r in Hj' by exact Hge.
        destruct (j' - length (footnoteSlides st)) as [|d] eqn:Ed;
          [|destruct d; discriminate].
        injection Hj' as <-. cbn. rewrite Hn. f_equal. lia. }
  destruct Hn as [_ Ht]. rewrite (Ht j slide Hj). unfold pageTitle.
  destruct (Z.ltb_spec (Z.of_nat p) (Z.of_nat (length (f :: fs))));
    destruct (Nat.ltb_spec p (length (f :: fs))); try lia; reflexivity.
Qed.

End FootnotePagesFacts.

Lemma footnote_is_on_its_page_witness :
  exists slide,
    [Model.mkSlideInfo "Footnotes - 1" "" "content"
       [FootnotePages.footnoteBullet 0 ("a", "one"); FootnotePages.footnoteBullet 1 ("b", "two")]
       [] [] [] ["list"];
     Model.mkSlideInfo "Footnotes - 2" "" "content"
       [FootnotePages.footnoteBullet 2 ("c", "three")] [] [] [] ["list"]]%string
      !! (2 / 2)%nat = Some slide /\
    Model.slideBullets slide !! (2 mod 2)
    = Some (FootnotePages.footnoteBullet 2 ("c", "three")%string).
Proof.
  apply (footnote_is_on_its_page "Footnotes" [] 2 ltac:(lia)
           [("a", "one"); ("b", "two"); ("c", "three")]%string); reflexivity.
Defined.

Lemma footnote_slides_are_numbered_witness :
  Model.titleText
    (Model.mkSlideInfo "Footnotes - 2" "" "content"
       [FootnotePages.footnoteBullet 2 ("c", "three")] [] [] [] ["list"])%string
  = if (2 <? length [("a", "one"); ("b", "two"); ("c", "three")]%string)%nat
    then ("Footnotes" +:+ " - " +:+ pretty 2)%string
    else "Footnotes"%string.
Proof.
  apply (footnote_slides_are_numbered "Footnotes" [] 2 ltac:(lia)
           [("a", "one"); ("b", "two"); ("c", "three")]%string
           [Model.mkSlideInfo "Footnotes - 1" "" "content"
              [FootnotePages.footnoteBullet 0 ("a", "one");
               FootnotePages.footnoteBullet 1 ("b", "two")] [] [] [] ["list"];
            Model.mkSlideInfo "Footnotes - 2" "" "content"
              [FootnotePages.footnoteBullet 2 ("c", "three")] [] [] [] ["list"]]%string 1);
    reflexivity.
Defined.

(** ** More about the table-of-contents grid *)

Section TocMore.
Import Toc.
Local Open Scope Q_scope.

Lemma place_length {A : Type} (g : Params) (perRow : Z) (left : Q)
    (entries : list A) (x y : Q) (n : Z) :
  length (place g perRow left entries x y n) = length entries.
Proof.
  revert x y n. induction entries as [|e rest IH]; intros x y n; cbn [place]; [reflexivity|].
  destruct (_ =? _)%Z; cbn [length]; rewrite IH; reflexivity.
Qed.

(** A positive truncated quotient is below the quotient. *)
Lemma Qtrunc_pos_le (q : Q) : (0 < Qtrunc q)%Z -> inject_Z (Qtrunc q) <= q.
Proof.
  unfold Qtrunc, ListBlock.Qtrunc. destruct (Qle_bool 0 q) eqn:E; intros H.
  - apply Qfloor_le.
  - exfalso. assert (Hq : q < 0).
    { apply Qnot_le_lt. intros Hle. apply Qle_bool_iff in Hle. congruence. }
    assert (Hc : (Qceiling q <= 0)%Z).
    { rewrite <- (Qceiling_Z 0). apply Qceiling_resp_le. apply Qlt_le_weak. exact Hq. }
    lia.
Qed.

(** X11: the chevrons or circles of a table of contents stay between
    the margins.  With a positive pitch [width + entryGap] and a
    positive number of entries per row, every entry is drawn in column
    [i mod E] of row [i / E], and its horizontal extent, widened by half
    a gap on either side, lies between [marginBase] and
    [slide_width - marginBase]. *)
Theorem toc_entries_stay_within_margins {A : Type} (g : Params) (TOCEntries : list A)
    (G : Grid) (i : nat) (c : Q * Q) :
  0 < width g + entryGap g ->
  grid g TOCEntries = Some G -> (0 < entriesPerRow G)%Z ->
  positions G !! i = Some c ->
  sameCell c (cell g (Z.to_nat (entriesPerRow G)) (left G) (top G) i) /\
  marginBase g + entryGap g / 2 <= fst c /\
  fst c + width g <= slide_width g - marginBase g - entryGap g / 2.
Proof.
  intros Hpitch HG HE Hc.
  set (E := Z.to_nat (entriesPerRow G)).
  assert (HEn : (0 < E)%nat) by (unfold E; lia).
  assert (HEz : entriesPerRow G = Z.of_nat E) by (unfold E; lia).
  assert (Hlen : length (positions G) = length TOCEntries).
  { unfold grid in HG. destruct (TOCEntriesPerRow g); [|discriminate].
    destruct (rowCount _ _); [|discriminate]. injection HG as <-.
    apply place_length. }
  destruct (lookup_lt_is_Some_2 TOCEntries i) as [e He].
  { rewrite <- Hlen. apply lookup_lt_Some in Hc. exact Hc. }
  destruct (grid_positions g TOCEntries G E i e HG HEz HEn He) as (c' & Hc' & Hcell).
  rewrite Hc in Hc'. injection Hc' as <-.
  split; [exact Hcell|].
  destruct Hcell as [Hx _]. unfold cell in Hx. cbn [fst] in Hx.
  (* the row fits between the margins *)
  assert (Hfit : inject_Z (Z.of_nat E) * (width g + entryGap g)
                 <= slide_width g - 2 * marginBase g).
  { unfold grid in HG. destruct (TOCEntriesPerRow g) as [perRow|] eqn:Ep; [|discriminate].
    destruct (rowCount _ _); [|discriminate]. injection HG as <-.
    cbn [entriesPerRow] in HEz, HE.
    unfold TOCEntriesPerRow in Ep. destruct (Qeq_bool _ _); [discriminate|].
    injection Ep as Ep. rewrite <- HEz, <- Ep.
    rewrite <- Ep in HE. apply Qtrunc_pos_le in HE.
    apply (Qmult_le_compat_r _ _ (width g + entryGap g)) in HE;
      [|apply Qlt_le_weak; exact Hpitch].
    eapply Qle_trans; [exact HE|].
    apply Qle_lteq. right. field.
    intros Hz. rewrite Hz in Hpitch. exact (Qlt_irrefl _ Hpitch). }
  assert (Hleft : left G == (slide_width g - inject_Z (Z.of_nat E) * (width g + entryGap g)
                             + entryGap g) / 2).
  { unfold grid in HG. destruct (TOCEntriesPerRow g) as [perRow|]; [|discriminate].
    destruct (rowCount _ _); [|discriminate]. injection HG as <-.
    cbn [entriesPerRow] in HEz. cbn [left]. unfold TOCleft, TOCWidth. rewrite HEz.
    reflexivity. }
  assert (Hcol0 : 0 <= inject_Z (Z.of_nat (i mod E))).
  { change 0 with (inject_Z 0). rewrite <- Zle_Qle. lia. }
  assert (Hcol1 : inject_Z (Z.of_nat (i mod E)) <= inject_Z (Z.of_nat E) - 1).
  { change 1 with (inject_Z 1). unfold Qminus. rewrite <- inject_Z_opp, <- inject_Z_plus.
    rewrite <- Zle_Qle. pose proof (Nat.mod_upper_bound i E). lia. }
  assert (Hlo : 0 <= inject_Z (Z.of_nat (i mod E)) * (width g + entryGap g)).
  { apply Qmult_le_0_compat; [exact Hcol0|apply Qlt_le_weak; exact Hpitch]. }
  assert (Hhi : inject_Z (Z.of_nat (i mod E)) * (width g + entryGap g)
                <= (inject_Z (Z.of_nat E) - 1) * (width g + entryGap g)).
  { apply Qmult_le_compat_r; [exact Hcol1|apply Qlt_le_weak; exact Hpitch]. }
  rewrite Hx, Hleft.
  set (P := inject_Z (Z.of_nat E) * (width g + entryGap g)) in *.
  set (K := inject_Z (Z.of_nat (i mod E)) * (width g + entryGap g)) in *.
  assert (Hhi' : K <= P - (width g + entryGap g)).
  { eapply Qle_trans; [exact Hhi|]. apply Qle_lteq. right. unfold P. ring. }
  split.
  - apply Qle_trans with ((slide_width g - P + entryGap g) / 2 + 0).
    + rewrite Qplus_0_r. apply Qle_shift_div_l; [reflexivity|].
      apply Qle_trans with (slide_width g - (slide_width g - 2 * marginBase g) + entryGap g).
      * apply Qle_lteq. right. field.
      * apply Qplus_le_l. apply Qplus_le_r. apply Qopp_le_compat. exact Hfit.
    + apply Qplus_le_r. exact Hlo.
  - apply Qle_trans with ((slide_width g - P + entryGap g) / 2
                          + (P - (width g + entryGap g)) + width g).
    + apply Qplus_le_l. apply Qplus_le_r. exact Hhi'.
    + apply Qle_trans with ((slide_width g + P - entryGap g) / 2).
      * apply Qle_lteq. right. field.
      * apply Qle_shift_div_r; [reflexivity|].
        apply Qle_trans with (slide_width g + (slide_width g - 2 * marginBase g) - entryGap g).
        -- apply Qplus_le_l. apply Qplus_le_r. exact Hfit.
        -- apply Qle_lteq. right. field.
Qed.

Lemma toc_entries_stay_within_margins_witness :
  exists G c,
    grid (mkParams 330 0 100 50 10 20 0 400) [1; 2; 3; 4; 5; 6]%nat = Some G /\
    positions G !! 4%nat = Some c /\
    sameCell c (cell (mkParams 330 0 100 50 10 20 0 400)
                  (Z.to_nat (entriesPerRow G)) (left G) (top G) 4) /\
    0 + 10 / 2 <= fst c /\ fst c + 100 <= 330 - 0 - 10 / 2.
Proof.
  eexists. eexists. split; [reflexivity|]. split; [reflexivity|].
  apply (toc_entries_stay_within_margins (mkParams 330 0 100 50 10 20 0 400)
           [1; 2; 3; 4; 5; 6]%nat _ 4 _); reflexivity.
Defined.

End TocMore.

(** ** More about the ruled table *)

Section RuledTableMore.
Import Text Table.
Local Open Scope string_scope.

Lemma sum_repeat_one (n : nat) : fold_left Z.add (List.repeat 1%Z n) 0%Z = Z.of_nat n.
Proof.
  induction n as [|n IH]; [reflexivity|].
  cbn [List.repeat fold_left]. rewrite fold_left_add_acc, IH. lia.
Qed.

Lemma In_deleteSecond {A : Type} (l : list A) (x : A) : In x (deleteSecond l) -> In x l.
Proof.
  destruct l as [|a [|b rest]]; cbn; try tauto.
Qed.

(** The column weights the branch computes: as many as columns, none
    negative, with their declared total. *)
Lemma ruled_table_weights (tableRows : list (list string)) rect tableMargin marginBase t :
  renderRuledTable tableRows rect tableMargin marginBase = Some t ->
  length (widths t) = columns t /\
  Forall (fun wd => (0 <= wd)%Z) (widths t) /\
  widths_total t = fold_left Z.add (widths t) 0%Z /\
  ((columns t = 0)%nat \/ (0 < widths_total t)%Z) /\
  columnWidths t
  = map (fun wd => Z.quot (shapeWidth t * wd) (widths_total t)) (widths t).
Proof.
  unfold renderRuledTable.
  set (cols := fold_left (fun c row => Nat.max c (length row)) tableRows 0%nat).
  destruct (if (1 <? length tableRows)%nat then _ else Some false) as [h|] eqn:Eh;
    [|discriminate].
  destruct ((_ =? 0)%Z && negb (cols =? 0)%nat) eqn:Ez; [discriminate|].
  intros [= <-]. cbn [widths columns widths_total columnWidths shapeWidth].
  assert (Hspec : h = true -> (length (nth 1 tableRows []) <= cols)%nat).
  { intros ->. destruct (1 <? length tableRows)%nat; [|discriminate].
    destruct (tableRows !! 1%nat) as [row|] eqn:E1; [|discriminate].
    assert (Hn : nth 1 tableRows [] = row).
    { clear -E1. destruct tableRows as [|a [|b r]]; try discriminate.
      cbn in E1 |- *. congruence. }
    rewrite Hn. apply columns_ge_row. apply list_elem_of_In.
    eapply list_elem_of_lookup_2. exact E1. }
  destruct h.
  - specialize (Hspec eq_refl).
    set (ws := (map (fun cell => Z.of_nat (count "-" cell)) (nth 1 tableRows [])
                ++ List.repeat 1%Z (cols - length (nth 1 tableRows [])))%list) in *.
    assert (Hlen : length ws = cols).
    { unfold ws. rewrite length_app, length_map, repeat_length. lia. }
    assert (Hpos : Forall (fun wd => (0 <= wd)%Z) ws).
    { unfold ws. apply Forall_app. split.
      - apply Forall_fmap. apply Forall_true. intros x. cbn. lia.
      - apply List.Forall_forall. intros x Hx. apply repeat_spec in Hx. lia. }
    split; [exact Hlen|]. split; [exact Hpos|]. split; [reflexivity|]. split.
    + destruct (Nat.eqb_spec cols 0) as [E0|E0]; [left; exact E0|right].
      rewrite andb_true_r in Ez. apply Z.eqb_neq in Ez.
      pose proof (sum_nonneg _ Hpos). lia.
    + rewrite <- Hlen at 1. rewrite firstn_all. reflexivity.
  - assert (Hpos : Forall (fun wd => (0 <= wd)%Z) (List.repeat 1%Z cols)).
    { apply List.Forall_forall. intros x Hx. apply repeat_spec in Hx. lia. }
    split; [apply repeat_length|]. split; [exact Hpos|].
    split; [symmetry; apply sum_repeat_one|]. split.
    + destruct (Nat.eqb_spec cols 0) as [E0|E0]; [left; exact E0|right]. lia.
    + rewrite <- (repeat_length 1%Z cols) at 1. rewrite firstn_all. reflexivity.
Qed.

(** X12: the columns of a ruled table fit its shape: there are as many
    column widths as columns, none is negative, and for a shape of
    non-negative width they add up to at most the width of the shape
    (each is a truncated share of it). *)
Theorem ruled_table_columns_fit (tableRows : list (list string)) rect tableMargin marginBase t :
  renderRuledTable tableRows rect tableMargin marginBase = Some t ->
  (0 <= shapeWidth t)%Z ->
  length (columnWidths t) = columns t /\
  Forall (fun cw => (0 <= cw)%Z) (columnWidths t) /\
  (fold_left Z.add (columnWidths t) 0 <= shapeWidth t)%Z.
Proof.
  intros H Hw.
  destruct (ruled_table_weights _ _ _ _ _ H) as (Hlen & Hpos & Htot & Hzero & Hcw).
  rewrite Hcw. split; [rewrite length_map; exact Hlen|].
  destruct Hzero as [H0|Hall].
  - rewrite H0 in Hlen. destruct (widths t); [|discriminate]. cbn. split; [constructor|lia].
  - split.
    + apply Forall_fmap. eapply Forall_impl; [exact Hpos|].
      intros wd Hwd. cbn. exact (proj1 (share_bounds (shapeWidth t) (widths_total t) wd Hw Hall Hwd)).
    + pose proof (shares_le (shapeWidth t) (widths_total t) (widths t) Hw Hall Hpos)
        as [_ Hs].
      unfold Split.share in Hs. rewrite <- Htot in Hs.
      apply (Z.mul_le_mono_pos_l _ _ (widths_total t) Hall). lia.
Qed.

Lemma ruled_table_columns_fit_witness :
  exists t,
    renderRuledTable [["a"; "b"; "c"]; [":--"; "-:"]; ["1"; "2"; "3"]]
      (Split.mkRectangle 0 0 600 1000) 0 0 = Some t /\
    length (columnWidths t) = columns t /\
    Forall (fun cw => (0 <= cw)%Z) (columnWidths t) /\
    (fold_left Z.add (columnWidths t) 0 <= shapeWidth t)%Z.
Proof.
  eexists. split; [reflexivity|].
  apply (ruled_table_columns_fit [["a"; "b"; "c"]; [":--"; "-:"]; ["1"; "2"; "3"]]
           (Split.mkRectangle 0 0 600 1000) 0 0).
  - reflexivity.
  - cbn. lia.
Defined.

(** X13: no cell is lost or moved.  The table has [rows] rows of
    exactly [columns] cells; the cell at row [r], column [c] of the data
    rows (all the rows, without the alignment row when there is one)
    is rendered at row [r], column [c], and the cells a short row lacks
    are empty. *)
Theorem ruled_table_keeps_every_cell (tableRows : list (list string)) rect tableMargin
    marginBase t :
  renderRuledTable tableRows rect tableMargin marginBase = Some t ->
  let dataRows := if haveTableHeading t then deleteSecond tableRows else tableRows in
  length (cells t) = rows t /\ rows t = length dataRows /\
  Forall (fun row => length row = columns t) (cells t) /\
  forall (r : nat) row, dataRows !! r = Some row ->
    exists rendered,
      cells t !! r = Some rendered /\
      map fst rendered = (row ++ List.repeat "" (columns t - length row))%list.
Proof.
  unfold renderRuledTable.
  set (cols := fold_left (fun c row => Nat.max c (length row)) tableRows 0%nat).
  destruct (if (1 <? length tableRows)%nat then _ else Some false) as [h|]; [|discriminate].
  destruct ((_ =? 0)%Z && negb (cols =? 0)%nat); [discriminate|].
  intros [= <-]. cbn [cells rows columns haveTableHeading].
  set (dataRows := if h then deleteSecond tableRows else tableRows).
  cbv zeta. split; [apply length_map|]. split; [reflexivity|]. split.
  - apply Forall_fmap. apply List.Forall_forall. intros row Hrow. cbn.
    assert (Hin : In row tableRows).
    { unfold dataRows in Hrow. destruct h; [apply In_deleteSecond|]; exact Hrow. }
    pose proof (columns_ge_row tableRows 0 row Hin) as Hle. fold cols in Hle.
    unfold fillRow. rewrite length_imap, length_app, repeat_length. lia.
  - intros r row Hr. eexists. split.
    + rewrite list_lookup_fmap, Hr. reflexivity.
    + apply fillRow_cells.
Qed.

Lemma ruled_table_keeps_every_cell_witness :
  exists t,
    renderRuledTable [["a"; "b"; "c"]; [":--"; "-:"]; ["1"]]
      (Split.mkRectangle 0 0 600 1000) 0 0 = Some t /\
    let dataRows := if haveTableHeading t
                    then deleteSecond [["a"; "b"; "c"]; [":--"; "-:"]; ["1"]]
                    else [["a"; "b"; "c"]; [":--"; "-:"]; ["1"]] in
    length (cells t) = rows t /\ rows t = length dataRows /\
    Forall (fun row => length row = columns t) (cells t) /\
    forall (r : nat) row, dataRows !! r = Some row ->
      exists rendered,
        cells t !! r = Some rendered /\
        map fst rendered = (row ++ List.repeat "" (columns t - length row))%list.
Proof.
  eexists. split; [reflexivity|].
  apply (ruled_table_keeps_every_cell [["a"; "b"; "c"]; [":--"; "-:"]; ["1"]]
           (Split.mkRectangle 0 0 600 1000) 0 0).
  reflexivity.
Defined.

(** X14: a table without an alignment row (a single row, or a second
    row whose first cell starts with neither [-] nor [:-]) keeps all
    its rows as data rows, has no heading, gives every column the same
    width [int(shapeWidth / columns)] and aligns every cell to the
    left. *)
Theorem ruled_table_without_alignment_row (tableRows : list (list string)) rect
    tableMargin marginBase :
  ((length tableRows <= 1)%nat \/
   exists cell rest, tableRows !! 1%nat = Some (cell :: rest) /\
     startswith "-" cell = false /\ startswith ":-" cell = false) ->
  exists t,
    renderRuledTable tableRows rect tableMargin marginBase = Some t /\
    haveTableHeading t = false /\ rows t = length tableRows /\
    columnWidths t
    = List.repeat (Z.quot (shapeWidth t) (Z.of_nat (columns t))) (columns t) /\
    Forall (fun row => Forall (fun cell => snd cell = LEFT) row) (cells t).
Proof.
  intros Hno. unfold renderRuledTable.
  set (cols := fold_left (fun c row => Nat.max c (length row)) tableRows 0%nat).
  assert (Hh : (if (1 <? length tableRows)%nat then
                  match tableRows !! 1%nat with
                  | Some (firstCellSecondRow :: _) =>
                      Some (startswith "-" firstCellSecondRow
                            || startswith ":-" firstCellSecondRow)
                  | _ => None
                  end
                else Some false) = Some false).
  { destruct Hno as [Hle|(cell & rest & H1 & Ha & Hb)].
    - destruct (Nat.ltb_spec 1 (length tableRows)); [lia|reflexivity].
    - rewrite H1, Ha, Hb. destruct (1 <? length tableRows)%nat; reflexivity. }
  rewrite Hh. cbv iota.
  assert (Hz : ((Z.of_nat cols =? 0)%Z && negb (cols =? 0)%nat) = false).
  { destruct (Nat.eqb_spec cols 0) as [->|Hc]; [reflexivity|].
    destruct (Z.eqb_spec (Z.of_nat cols) 0); [lia|reflexivity]. }
  rewrite Hz. eexists. split; [reflexivity|].
  cbn [haveTableHeading rows columnWidths shapeWidth columns cells].
  split; [reflexivity|]. split; [reflexivity|]. split.
  - rewrite <- (repeat_length 1%Z cols) at 1. rewrite firstn_all.
    generalize cols at 2 4. intros n. induction n as [|n IH]; [reflexivity|].
    cbn [List.repeat map]. rewrite IH, Z.mul_1_r. reflexivity.
  - apply Forall_fmap. apply Forall_true. intros row. cbn.
    apply Forall_lookup. intros i [c al] Hi. cbn.
    apply fillRow_alignment in Hi. subst al. unfold cellAlignment.
    destruct (List.repeat "l" cols !! i) as [a|] eqn:Ea; [|reflexivity].
    assert (a = "l").
    { apply list_elem_of_lookup_2, list_elem_of_In, repeat_spec in Ea. exact Ea. }
    subst a. reflexivity.
Qed.

Lemma ruled_table_without_alignment_row_witness :
  exists t,
    renderRuledTable [["a"; "b"]; ["1"; "2"; "3"]] (Split.mkRectangle 0 0 600 900) 0 0
      = Some t /\
    haveTableHeading t = false /\ rows t = length [["a"; "b"]; ["1"; "2"; "3"]] /\
    columnWidths t
    = List.repeat (Z.quot (shapeWidth t) (Z.of_nat (columns t))) (columns t) /\
    Forall (fun row => Forall (fun cell => snd cell = LEFT) row) (cells t).
Proof.
  apply (ruled_table_without_alignment_row [["a"; "b"]; ["1"; "2"; "3"]]
           (Split.mkRectangle 0 0 600 900) 0 0).
  right. exists "1", ["2"; "3"]. repeat split; reflexivity.
Defined.

End RuledTableMore.

(** ** The tiles of the graphics grid fit their boxes *)

Section TilesMore.
Import Table Tiles.
Local Open Scope Q_scope.

Variable w : World.

Lemma scalePicture_fits (maxW maxH iw ih pw ph : Q) (u : bool) :
  0 < maxW -> 0 < maxH -> 0 < iw -> 0 < ih ->
  Scale.scalePicture maxW maxH iw ih = Some (pw, ph, u) ->
  pw <= maxW /\ ph <= maxH.
Proof.
  intros HW HH Hw Hh H.
  destruct (Qlt_le_dec maxH (maxW * ih / iw)) as [Hgt | Hle].
  - rewrite (scalePicture_by_height _ _ _ _ Hw Hh Hgt) in H. injection H as <- <- _.
    split; [|apply Qle_refl].
    apply div_le_iff; [exact Hh|]. apply Qlt_le_weak.
    apply (div_gt_iff _ _ _ Hw). exact Hgt.
  - rewrite (scalePicture_by_width _ _ _ _ Hw Hh Hle) in H. injection H as <- <- _.
    split; [apply Qle_refl|exact Hle].
Qed.

Lemma inject_Z_pos (z : Z) : (0 < z)%Z -> 0 < inject_Z z.
Proof. intros H. change 0 with (inject_Z 0). rewrite <- Zlt_Qlt. exact H. Qed.

Lemma tile_fits (g : GridParse) rect marginBase c m neighbour shapes s :
  0 < maxPicWidth g rect marginBase -> 0 < maxPicHeight g rect ->
  (forall mw mh, mediaDimensions w m = Some (mw, mh) -> (0 < mw)%Z /\ (0 < mh)%Z) ->
  tile w g rect marginBase c m neighbour = Some shapes -> In s shapes ->
  fst (extent s) <= maxPicWidth g rect marginBase /\
  snd (extent s) <= maxPicHeight g rect.
Proof.
  intros HW HH Hdim. unfold tile.
  destruct (negb (hasMedia m)); [intros [= <-] []|].
  destruct (mediaDimensions w m) as [[mw mh]|] eqn:Ed; [|intros [= <-] []].
  destruct (Hdim mw mh eq_refl) as [Hmw Hmh].
  fold (maxPicHeight g rect). fold (maxPicWidth g rect marginBase).
  destruct (Scale.scalePicture _ _ _ _) as [[[pw ph] u]|] eqn:Es; [|discriminate].
  apply scalePicture_fits in Es; try assumption; try (apply inject_Z_pos; assumption).
  intros [= <-]. unfold tileShape.
  destruct (negb (String.eqb (GraphicFilename m) "")).
  - intros [<-|[]]. exact Es.
  - destruct (video m); [|intros []]. intros [<-|[]]. exact Es.
Qed.

Lemma andThen_In {A : Type} (a b : option (list A)) (l : list A) (x : A) :
  andThen a b = Some l -> In x l ->
  (exists la, a = Some la /\ In x la) \/ (exists lb, b = Some lb /\ In x lb).
Proof.
  destruct a as [la|], b as [lb|]; try discriminate.
  intros [= <-] Hin. apply in_app_or in Hin as [H|H]; [left|right]; eauto.
Qed.

(** X15: in a graphics grid every picture and movie fits the box of
    its cell.  When the box is positive and the media of the cells
    have positive dimensions, each shape the block adds is at most
    [maxPicWidth] wide and [maxPicHeight] high (half the rendering
    rectangle, adjusted, along an axis with two cells). *)
Theorem graphics_grid_tiles_fit (g : GridParse) rect marginBase shapes printed s :
  0 < maxPicWidth g rect marginBase -> 0 < maxPicHeight g rect ->
  Forall (fun m => forall mw mh, mediaDimensions w m = Some (mw, mh) ->
                                 (0 < mw)%Z /\ (0 < mh)%Z) (corners g) ->
  renderGraphicsGrid w g rect marginBase = Some (shapes, printed) ->
  In s shapes ->
  fst (extent s) <= maxPicWidth g rect marginBase /\
  snd (extent s) <= maxPicHeight g rect.
Proof.
  intros HW HH Hdims. unfold corners in Hdims.
  apply Forall_cons in Hdims as [Htl Hdims]. apply Forall_cons in Hdims as [Htr Hdims].
  apply Forall_cons in Hdims as [Hbl Hdims]. apply Forall_cons in Hdims as [Hbr _].
  unfold renderGraphicsGrid.
  destruct (checkCorners w (checkedCorners g)); [discriminate|intros [= <- _] []|].
  destruct (andThen _ _) as [l|] eqn:E; [|discriminate].
  intros [= <- _] Hin.
  assert (Hopt : forall (b : bool) c m n (y : list Shape),
             (forall mw mh, mediaDimensions w m = Some (mw, mh) -> (0 < mw)%Z /\ (0 < mh)%Z) ->
             (if b then tile w g rect marginBase c m n else Some []) = Some y ->
             In s y ->
             fst (extent s) <= maxPicWidth g rect marginBase /\
             snd (extent s) <= maxPicHeight g rect).
  { intros [] c m n y Hm H Hy;
      [exact (tile_fits g rect marginBase _ _ _ _ s HW HH Hm H Hy)|].
    injection H as <-. destruct Hy. }
  destruct (andThen_In _ _ _ _ E Hin) as [(la & Ha & Hla)|(lb & Hb & Hlb)];
    [exact (tile_fits g rect marginBase _ _ _ _ s HW HH Htl Ha Hla)|].
  destruct (andThen_In _ _ _ _ Hb Hlb) as [(la & Ha & Hla)|(lc & Hc & Hlc)];
    [exact (Hopt _ _ _ _ _ Htr Ha Hla)|].
  destruct (andThen_In _ _ _ _ Hc Hlc) as [(la & Ha & Hla)|(ld & Hd & Hld)];
    [exact (Hopt _ _ _ _ _ Hbl Ha Hla)|exact (Hopt _ _ _ _ _ Hbr Hd Hld)].
Qed.

(** X18: a lone picture is centred in its rendering rectangle.  In
    a grid of one row and one column, over a rendering rectangle of
    positive width and height and for media of positive dimensions, the
    shape the block adds has its centre at the centre of the rectangle,
    horizontally and vertically, and lies inside the rectangle. *)
Theorem lone_picture_is_centred (g : GridParse) rect marginBase shapes printed s :
  gridRows g = 1%nat -> gridColumns g = 1%nat ->
  (0 < Split.width rect)%Z -> (0 < Split.height rect)%Z ->
  (forall mw mh, mediaDimensions w (topLeft g) = Some (mw, mh) ->
                 (0 < mw)%Z /\ (0 < mh)%Z) ->
  renderGraphicsGrid w g rect marginBase = Some (shapes, printed) ->
  In s shapes ->
  let '(x, y, pw, ph) := box s in
  x + pw / 2 == inject_Z (Split.left rect) + inject_Z (Split.width rect) / 2 /\
  y + ph / 2 == inject_Z (Split.top rect) + inject_Z (Split.height rect) / 2 /\
  inject_Z (Split.left rect) <= x /\
  x + pw <= inject_Z (Split.left rect) + inject_Z (Split.width rect) /\
  inject_Z (Split.top rect) <= y /\
  y + ph <= inject_Z (Split.top rect) + inject_Z (Split.height rect).
Proof.
  intros Hr Hc HW HH Hdim. unfold renderGraphicsGrid.
  destruct (checkCorners w (checkedCorners g)); [discriminate|intros [= <- _] []|].
  rewrite Hr, Hc. cbn [Nat.eqb andb].
  destruct (tile w g rect marginBase TopLeft (topLeft g) (topRight g)) as [l|] eqn:Et;
    [|discriminate].
  cbn [andThen option_map]. rewrite app_nil_r. intros [= <- _] Hin.
  unfold tile in Et. rewrite Hr, Hc in Et. cbn [Nat.eqb andb] in Et.
  destruct (negb (hasMedia (topLeft g))); [injection Et as <-; destruct Hin|].
  destruct (mediaDimensions w (topLeft g)) as [[mw mh]|] eqn:Ed;
    [|injection Et as <-; destruct Hin].
  destruct (Hdim mw mh eq_refl) as [Hmw Hmh].
  destruct (Scale.scalePicture _ _ _ _) as [[[pw ph] u]|] eqn:Es; [|discriminate].
  apply scalePicture_fits in Es; try (apply inject_Z_pos; assumption).
  destruct Es as [Hpw Hph].
  injection Et as <-. unfold tileShape in Hin.
  assert (Hbox : box s = (inject_Z (Split.left rect) + inject_Z (Split.width rect) / 2
                          - pw / 2,
                          inject_Z (Split.top rect) + (inject_Z (Split.height rect) - ph) / 2,
                          pw, ph)).
  { destruct (negb (String.eqb (GraphicFilename (topLeft g)) "")).
    - destruct Hin as [<-|[]]. reflexivity.
    - destruct (video (topLeft g)); [|destruct Hin].
      destruct Hin as [<-|[]]. reflexivity. }
  rewrite Hbox.
  set (L := inject_Z (Split.left rect)) in *. set (W := inject_Z (Split.width rect)) in *.
  set (T := inject_Z (Split.top rect)) in *. set (H := inject_Z (Split.height rect)) in *.
  assert (Hhalf : forall a b : Q, a <= b -> a / 2 <= b / 2).
  { intros a b Hab. unfold Qdiv. apply Qmult_le_compat_r; [exact Hab|discriminate]. }
  pose proof (Hhalf _ _ Hpw) as Hpw2. pose proof (Hhalf _ _ Hph) as Hph2.
  split; [field|]. split; [field|]. split; [|split; [|split]].
  - apply Qle_trans with (L + W / 2 - W / 2); [apply Qle_lteq; right; ring|].
    apply Qplus_le_r. apply Qopp_le_compat. exact Hpw2.
  - apply Qle_trans with (L + W / 2 + pw / 2); [apply Qle_lteq; right; field|].
    apply Qle_trans with (L + W / 2 + W / 2); [apply Qplus_le_r; exact Hpw2|].
    apply Qle_lteq; right; field.
  - apply Qle_trans with (T + (H / 2 - H / 2)); [apply Qle_lteq; right; ring|].
    apply Qplus_le_r.
    apply Qle_trans with (H / 2 - ph / 2); [|apply Qle_lteq; right; field].
    apply Qplus_le_r. apply Qopp_le_compat. exact Hph2.
  - apply Qle_trans with (T + H / 2 + ph / 2); [apply Qle_lteq; right; field|].
    apply Qle_trans with (T + H / 2 + H / 2); [apply Qplus_le_r; exact Hph2|].
    apply Qle_lteq; right; field.
Qed.

End TilesMore.

Lemma graphics_grid_tiles_fit_witness :
  exists g shapes printed s,
    Table.parseGrid Table.exampleWorld [["![a](a.png)"; "![b](b.png)"]]%string = Some g /\
    Table.renderGraphicsGrid Table.exampleWorld g (Split.mkRectangle 0 0 6000000 9000000) 0
      = Some (shapes, printed) /\
    shapes !! 1%nat = Some s /\
    (fst (Tiles.extent s) <= Tiles.maxPicWidth g (Split.mkRectangle 0 0 6000000 9000000) 0 /\
     snd (Tiles.extent s) <= Tiles.maxPicHeight g (Split.mkRectangle 0 0 6000000 9000000))%Q.
Proof.
  eexists. eexists. eexists. eexists.
  split; [reflexivity|]. split; [reflexivity|]. split; [reflexivity|].
  eapply (graphics_grid_tiles_fit Table.exampleWorld _ (Split.mkRectangle 0 0 6000000 9000000) 0).
  - reflexivity.
  - reflexivity.
  - repeat (apply Forall_cons; split;
            [intros mw mh H; vm_compute in H;
             first [discriminate H | injection H as <- <-; lia]|]).
    apply List.Forall_nil.
  - reflexivity.
  - right. left. reflexivity.
Defined.


Lemma lone_picture_is_centred_witness :
  exists g shapes printed s,
    Table.parseGrid Table.exampleWorld [["![a](a.png)"]]%string = Some g /\
    Table.renderGraphicsGrid Table.exampleWorld g (Split.mkRectangle 100 200 6000 9000) 0
      = Some (shapes, printed) /\
    shapes !! 0%nat = Some s /\
    let '(x, y, pw, ph) := Tiles.box s in
    (x + pw / 2 == inject_Z 200 + inject_Z 9000 / 2 /\
     y + ph / 2 == inject_Z 100 + inject_Z 6000 / 2 /\
     inject_Z 200 <= x /\ x + pw <= inject_Z 200 + inject_Z 9000 /\
     inject_Z 100 <= y /\ y + ph <= inject_Z 100 + inject_Z 6000)%Q.
Proof.
  eexists. eexists. eexists. eexists.
  split; [reflexivity|].
  match goal with
  | |- Table.renderGraphicsGrid _ ?G _ _ = _ /\ _ => pose (g := G)
  end.
  split; [reflexivity|]. split; [reflexivity|].
  eapply (lone_picture_is_centred Table.exampleWorld g
            (Split.mkRectangle 100 200 6000 9000) 0).
  - reflexivity.
  - reflexivity.
  - reflexivity.
  - reflexivity.
  - intros mw mh H. vm_compute in H. injection H as <- <-. lia.
  - reflexivity.
  - left. reflexivity.
Defined.
(** ** What [parseMedia] makes of a cell *)

Section MediaMore.
Import Text Table.
Local Open Scope string_scope.

Variable w : World.

Lemma startswith_app (p s : string) : startswith p (p ++ s) = true.
Proof.
  unfold startswith. induction p as [|a p IH]; [destruct s; reflexivity|].
  rewrite append_cons. cbn [String.prefix].
  destruct (ascii_dec a a) as [_|Hn]; [exact IH|contradiction].
Qed.

Lemma drop_app (p s : string) : drop (String.length p) (p ++ s) = s.
Proof.
  induction p as [|a p IH]; [reflexivity|].
  rewrite append_cons. cbn [String.length drop]. exact IH.
Qed.

Lemma rematch_lit (p : string) (pattern : list Item) (s : string) :
  rematch (Lit p :: pattern) (p ++ s) = rematch pattern s.
Proof. cbn [rematch]. rewrite startswith_app, drop_app. reflexivity. Qed.

(** A pattern that starts with a literal does not match a string that
    starts with another character. *)
Lemma rematch_lit_other (c : ascii) (t : string) (pattern : list Item)
    (a : ascii) (s : string) :
  a <> c -> rematch (Lit (String c t) :: pattern) (String a s) = None.
Proof.
  intros Hne. cbn [rematch]. unfold startswith. cbn [String.prefix].
  destruct (ascii_dec c a) as [E|_]; [congruence|reflexivity].
Qed.

Lemma rematch_lazy (n : nat) (pattern : list Item) (s : string) :
  rematch (Lazy n :: pattern) s
  = if plainPrefix n s then lazyGroup (rematch pattern) (take n s) (drop n s) else None.
Proof. reflexivity. Qed.

Lemma append_snoc (t : string) (a : ascii) (p : string) :
  (t ++ String a "") ++ p = t ++ String a p.
Proof.
  induction t as [|b t IH]; [reflexivity|].
  rewrite !append_cons, IH. reflexivity.
Qed.

(** The lazy group runs over a text free of newlines up to the first
    place where the rest of the pattern matches, when that rest needs the
    character [c] first and the text is free of it. *)
Lemma lazyGroup_skip (rest : string -> option (list string)) (c : ascii)
    (pre suf taken : string) (groups : list string) :
  (forall a s, a <> c -> rest (String a s) = None) ->
  count c pre = 0%nat -> count newline pre = 0%nat ->
  rest suf = Some groups ->
  lazyGroup rest taken (pre ++ suf) = Some ((taken ++ pre) :: groups).
Proof.
  intros Hrest. revert taken. induction pre as [|a pre IH]; intros taken Hc Hn Hs.
  - rewrite append_empty_r. change ("" ++ suf) with suf.
    destruct suf; cbn [lazyGroup]; rewrite Hs; reflexivity.
  - rewrite append_cons. cbn [lazyGroup]. cbn [count] in Hc, Hn.
    destruct (Ascii.eqb_spec a c) as [|Hac]; [discriminate|].
    destruct (Ascii.eqb_spec a newline) as [|_]; [discriminate|].
    rewrite (Hrest a _ Hac). rewrite IH by assumption.
    rewrite append_snoc. reflexivity.
Qed.

(** [(.+?)\)]: a non-empty text free of [)] and of newlines, then the
    parenthesis. *)
Lemma rematch_to_paren (x : string) (pattern : list Item) (tail : string)
    (groups : list string) :
  x <> "" -> count ")" x = 0%nat -> count newline x = 0%nat ->
  rematch pattern tail = Some groups ->
  rematch (Lazy 1 :: Lit ")" :: pattern) (x ++ ")" ++ tail) = Some (x :: groups).
Proof.
  intros Hne Hc Hn Ht. destruct x as [|a x]; [contradiction|].
  rewrite append_cons, rematch_lazy. cbn [plainPrefix take drop].
  cbn [count] in Hc, Hn.
  destruct (Ascii.eqb_spec a ")") as [|_]; [discriminate|].
  destruct (Ascii.eqb_spec a newline) as [|_]; [discriminate|].
  cbn [negb andb].
  rewrite (lazyGroup_skip (rematch (Lit ")" :: pattern)) ")" x (")" ++ tail)
             (String a "") groups).
  - reflexivity.
  - intros b s Hb. apply rematch_lit_other. exact Hb.
  - exact Hc.
  - exact Hn.
  - rewrite rematch_lit. exact Ht.
Qed.

(** [!\[(.*?)\]\((.+?)\)] on a reference written out. *)
Lemma rematch_graphic (title file : string) (pattern : list Item) (tail : string)
    (groups : list string) :
  count "]" title = 0%nat -> count newline title = 0%nat ->
  file <> "" -> count ")" file = 0%nat -> count newline file = 0%nat ->
  rematch pattern tail = Some groups ->
  rematch ([Lit "!["; Lazy 0; Lit "]("; Lazy 1; Lit ")"] ++ pattern)%list
    ("![" ++ title ++ "](" ++ file ++ ")" ++ tail)
  = Some (title :: file :: groups).
Proof.
  intros Ht Htn Hf Hfc Hfn Hp.
  cbn [app]. rewrite rematch_lit.
  assert (Hin : rematch (Lit "](" :: Lazy 1 :: Lit ")" :: pattern)
                  ("](" ++ file ++ ")" ++ tail) = Some (file :: groups)).
  { rewrite rematch_lit. apply rematch_to_paren; assumption. }
  rewrite rematch_lazy. cbn [plainPrefix].
  assert (Htake : forall s, take 0 s = "") by (intros []; reflexivity).
  assert (Hdrop : forall s, drop 0 s = s) by (intros []; reflexivity).
  rewrite Htake, Hdrop.
  rewrite (lazyGroup_skip _ "]" title _ "" (file :: groups)).
  - reflexivity.
  - intros a s Ha. apply rematch_lit_other. exact Ha.
  - exact Ht.
  - exact Htn.
  - exact Hin.
Qed.

(** X16: a Markdown image reference is parsed into its parts.  For a
    title free of [\]] and a non-empty file name free of [)] (neither
    holding a newline), [parseMedia] on [!\[title\](file)], whatever
    follows it, returns the title, the file and its printable name as
    [handleWhateverGraphicType] resolves them, no link, no HTML, no
    media element, and the count increased by one. *)
Theorem image_reference_is_parsed (title file tail : string) (graphicCount : nat) :
  count "]" title = 0%nat -> count newline title = 0%nat ->
  file <> "" -> count ")" file = 0%nat -> count newline file = 0%nat ->
  parseMedia w ("![" ++ title ++ "](" ++ file ++ ")" ++ tail) graphicCount
  = (mkMedia title (fst (handleWhateverGraphicType w file))
       (snd (handleWhateverGraphicType w file)) "" "" None,
     S graphicCount).
Proof.
  intros Ht Htn Hf Hfc Hfn. unfold parseMedia.
  assert (Hv : rematch videoRE ("![" ++ title ++ "](" ++ file ++ ")" ++ tail) = None)
    by (apply rematch_lit_other; discriminate).
  assert (Ha : rematch audioRE ("![" ++ title ++ "](" ++ file ++ ")" ++ tail) = None)
    by (apply rematch_lit_other; discriminate).
  assert (Hc : rematch clickableGraphicRE ("![" ++ title ++ "](" ++ file ++ ")" ++ tail)
               = None)
    by (apply rematch_lit_other; discriminate).
  rewrite Hv, Ha, Hc.
  pose proof (rematch_graphic title file [] tail [] Ht Htn Hf Hfc Hfn eq_refl) as Hg.
  change ([Lit "!["; Lazy 0; Lit "]("; Lazy 1; Lit ")"] ++ [])%list with graphicRE in Hg.
  rewrite Hg. reflexivity.
Qed.

(** X17: a clickable image reference is parsed into its parts.  Under
    the same conditions, and for a non-empty link target free of [)]
    and of newlines, [parseMedia] on [\[!\[title\](file)\](href)]
    returns the title, the resolved file, and the link target. *)
Theorem clickable_image_reference_is_parsed (title file href tail : string)
    (graphicCount : nat) :
  count "]" title = 0%nat -> count newline title = 0%nat ->
  file <> "" -> count ")" file = 0%nat -> count newline file = 0%nat ->
  href <> "" -> count ")" href = 0%nat -> count newline href = 0%nat ->
  parseMedia w ("[" ++ "![" ++ title ++ "](" ++ file ++ ")" ++ "](" ++ href ++ ")" ++ tail)
    graphicCount
  = (mkMedia title (fst (handleWhateverGraphicType w file))
       (snd (handleWhateverGraphicType w file)) href "" None,
     S graphicCount).
Proof.
  intros Ht Htn Hf Hfc Hfn Hh Hhc Hhn. unfold parseMedia.
  set (cell := "[" ++ "![" ++ title ++ "](" ++ file ++ ")" ++ "](" ++ href ++ ")" ++ tail).
  assert (Hv : rematch videoRE cell = None) by (apply rematch_lit_other; discriminate).
  assert (Ha : rematch audioRE cell = None) by (apply rematch_lit_other; discriminate).
  rewrite Hv, Ha.
  assert (Hc : rematch clickableGraphicRE cell = Some [title; file; href]).
  { unfold cell.
    change clickableGraphicRE
      with (Lit "[" :: ([Lit "!["; Lazy 0; Lit "]("; Lazy 1; Lit ")"]
                        ++ [Lit "]("; Lazy 1; Lit ")"])%list).
    rewrite rematch_lit. apply rematch_graphic; try assumption.
    rewrite rematch_lit. apply rematch_to_paren; try assumption. reflexivity. }
  rewrite Hc. reflexivity.
Qed.

(** [parseMedia] counts the media references.  The running count
    goes up by one exactly when the cell matches one of the four media
    expressions, and then no HTML is returned; any other cell comes
    back unchanged as HTML, with every other field empty and the count
    as it was. *)
Lemma parseMedia_counts_media (cellString : string) (graphicCount : nat) :
  let '(m, n) := parseMedia w cellString graphicCount in
  if isMediaReference cellString
  then n = S graphicCount /\ HTML m = ""
  else n = graphicCount /\ m = mkMedia "" "" "" "" cellString None.
Proof.
  unfold parseMedia, isMediaReference.
  destruct (rematch videoRE cellString); [split; reflexivity|].
  destruct (rematch audioRE cellString); [split; reflexivity|].
  destruct (rematch clickableGraphicRE cellString); [split; reflexivity|].
  destruct (rematch graphicRE cellString); split; reflexivity.
Qed.

End MediaMore.

Lemma image_reference_is_parsed_witness :
  Table.parseMedia Table.exampleWorld "![Logo](img/logo.png)" 0
  = (Table.mkMedia "Logo" "img/logo.png" "img/logo.png" "" "" None, 1%nat).
Proof.
  apply (image_reference_is_parsed Table.exampleWorld "Logo" "img/logo.png" "" 0);
    first [reflexivity | discriminate].
Defined.

Lemma clickable_image_reference_is_parsed_witness :
  Table.parseMedia Table.exampleWorld "[![Logo](img/logo.png)](https://example.org)" 0
  = (Table.mkMedia "Logo" "img/logo.png" "img/logo.png" "https://example.org" "" None,
     1%nat).
Proof.
  apply (clickable_image_reference_is_parsed Table.exampleWorld "Logo" "img/logo.png"
           "https://example.org" "" 0); first [reflexivity | discriminate].
Defined.

(** ** More about the main pass *)

Section PassMore.
Import Text Compiler Pass.
Local Open Scope string_scope.
Local Open Scope list_scope.

Lemma split_cell (c rest : string) :
  count "|" c = 0%nat -> split "|" (c +:+ String "|" rest) = c :: split "|" rest.
Proof.
  induction c as [|a c IH]; intros Hc; [reflexivity|].
  rewrite append_cons. cbn [split]. cbn [count] in Hc.
  destruct (Ascii.eqb a "|"); [discriminate|].
  rewrite IH by exact Hc. reflexivity.
Qed.

Lemma split_cellsText (cells : list string) :
  Forall (fun c => count "|" c = 0%nat) cells ->
  split "|" (cellsText cells) = cells ++ [""].
Proof.
  induction 1 as [|c cells Hc _ IH]; [reflexivity|].
  cbn [cellsText]. change ("|" +:+ cellsText cells) with (String "|" (cellsText cells)).
  rewrite split_cell by exact Hc. rewrite IH. reflexivity.
Qed.

(** X22: a table line is split back into its cells.  For cells free
    of [|], the line [|c1|c2|...|cn|] yields exactly the row
    [c1, ..., cn]: the empty word before the first bar and the empty
    word after the last are dropped, and nothing else. *)
Theorem table_line_round_trip (cells : list string) :
  Forall (fun c => count "|" c = 0%nat) cells ->
  tableCells (tableLineOf cells) = cells.
Proof.
  intros H. unfold tableCells, tableLineOf.
  change ("|" +:+ cellsText cells) with ("" +:+ String "|" (cellsText cells)).
  rewrite split_cell by reflexivity. rewrite split_cellsText by exact H.
  cbn [tl]. change ("" :: cells ++ [""]) with (("" :: cells) ++ [""]).
  rewrite last_last. cbn [String.eqb]. apply removelast_last.
Qed.

Lemma table_line_round_trip_witness :
  tableCells (tableLineOf ["Name"; ""; "42 "]) = ["Name"; ""; "42 "].
Proof.
  apply (table_line_round_trip ["Name"; ""; "42 "]).
  repeat constructor.
Defined.

(** *** Which lines create a slide *)

Ltac split_ifs :=
  repeat match goal with
         | |- context [if ?b then _ else _] => destruct b
         end.

Lemma htmlCodeOpen_open line s : openSlideOf (htmlCodeOpen line s) = openSlideOf s.
Proof. unfold htmlCodeOpen. split_ifs; reflexivity. Qed.

Lemma htmlCodeClose_open line s : openSlideOf (htmlCodeClose line s) = openSlideOf s.
Proof. unfold htmlCodeClose. split_ifs; reflexivity. Qed.

Lemma fence_open line s s' : fence line s = Some s' -> openSlideOf s' = openSlideOf s.
Proof.
  unfold fence. destruct (startswith "```" line); [|intros [= <-]; reflexivity].
  destruct (inCode (set_inCode (negb (inCode s)) s)); cbn [option_map].
  - intros [= <-]. reflexivity.
  - destruct (appendToLast _ _); [|discriminate]. intros [= <-]. reflexivity.
Qed.

Lemma codeLine_open line s s' : codeLine line s = Some s' -> openSlideOf s' = openSlideOf s.
Proof.
  unfold codeLine. destruct (_ || _); [|intros [= <-]; reflexivity].
  destruct (appendToLast _ _); [|discriminate]. intros [= <-].
  split_ifs; reflexivity.
Qed.

Lemma blankEndsCode_open line s : openSlideOf (blankEndsCode line s) = openSlideOf s.
Proof. unfold blankEndsCode. split_ifs; reflexivity. Qed.

Lemma indentedCode_open line s : openSlideOf (indentedCode line s) = openSlideOf s.
Proof. unfold indentedCode. split_ifs; reflexivity. Qed.

Lemma horizontalRule_open line s :
  openSlideOf (fst (horizontalRule line s)) = openSlideOf s.
Proof. unfold horizontalRule. split_ifs; reflexivity. Qed.

Lemma preamble_open line s s1 line1 :
  preamble line s = Some (s1, line1) -> openSlideOf s1 = openSlideOf s.
Proof.
  unfold preamble. destruct (fence _ _) as [sa|] eqn:Ef; [|discriminate].
  destruct (codeLine _ _) as [sb|] eqn:Ec; [|discriminate].
  intros H. assert (Hs : s1 = fst (horizontalRule line (indentedCode line
                                      (blankEndsCode line sb)))).
  { injection H as H. rewrite H. reflexivity. }
  rewrite Hs, horizontalRule_open, indentedCode_open, blankEndsCode_open.
  rewrite (codeLine_open _ _ _ Ec), (fence_open _ _ _ Ef).
  rewrite htmlCodeClose_open, htmlCodeOpen_open. reflexivity.
Qed.

Lemma bulletItem_slides kind k g s s' :
  bulletItem kind k g s = Some s' -> slides s' = slides s.
Proof.
  unfold bulletItem. destruct (calculateIndentationLevel _ _); [|discriminate].
  destruct (inCard s).
  - destruct (cardBullets s); [|discriminate]. cbn [option_map].
    destruct (updateLast _ _); [|discriminate]. cbn.
    intros [= <-]. split_ifs; reflexivity.
  - intros [= <-]. split_ifs; reflexivity.
Qed.

Lemma mediaLine_slides e line s s' : mediaLine e line s = Some s' -> slides s' = slides s.
Proof.
  unfold mediaLine. destruct (inCard s).
  - destruct (last (cards s)); [|discriminate].
    destruct (cardMedia e line _); [|discriminate]. intros [= <-]. reflexivity.
  - destruct (appendToLast _ _); [|discriminate]. intros [= <-].
    split_ifs; reflexivity.
Qed.

Lemma tableLine_slides n line s s' : tableLine n line s = Some s' -> slides s' = slides s.
Proof.
  unfold tableLine. destruct (appendToLast _ _); [|discriminate]. intros [= <-].
  cbn. split_ifs; reflexivity.
Qed.

Lemma otherLine_slides line s : slides (otherLine line s) = slides s.
Proof. unfold otherLine. split_ifs; reflexivity. Qed.

Lemma heading_slides e line s s' :
  heading e line s = Some s' ->
  slides s' = slides s \/
  (inBlock s = true /\
   exists info, slides s' = slides s ++ [info] /\
     Model.titleText info = slideTitle s /\ Model.subtitleText info = slideSubtitle s).
Proof.
  unfold heading. destruct (String.eqb _ _).
  - intros [= <-]. left. reflexivity.
  - unfold openSlide.
    set (s0 := if inBlock s then createSlide s else s).
    match goal with
    | |- match thisLevel ?x with _ => _ end = _ -> _ => set (s1 := x)
    end.
    assert (H1 : slides s1 = slides s0) by (unfold s1; split_ifs; reflexivity).
    destruct (thisLevel s1); [|discriminate]. intros [= <-]. cbn.
    rewrite H1. unfold s0. destruct (inBlock s); [right|left; reflexivity].
    split; [reflexivity|]. eexists. split; [reflexivity|]. split; reflexivity.
Qed.

(** A line leaves the slides created so far as they are, and adds at
    most one, which it does only as a heading met while a slide is
    open. *)
Lemma processLine_slides e s n rawLine s' :
  processLine e s n rawLine = Some s' ->
  slides s' = slides s \/
  (branchTaken s n rawLine = Some Heading /\ inBlock s = true /\
   exists info, slides s' = slides s ++ [info] /\
     Model.titleText info = slideTitle s /\ Model.subtitleText info = slideSubtitle s).
Proof.
  unfold processLine, branchTaken.
  destruct (String.eqb _ _); [intros [= <-]; left; reflexivity|].
  destruct (preamble _ _) as [[s1 line1]|] eqn:Ep; [|discriminate].
  apply preamble_open in Ep. unfold openSlideOf in Ep. injection Ep as Hs Ht Hsub Hb.
  unfold dispatch. destruct (branchOf n line1 s1) eqn:Eb.
  - intros [= <-]. left. exact Hs.
  - intros [= <-]. left. exact Hs.
  - intros [= <-]. left. exact Hs.
  - intros H. apply heading_slides in H as [H|(Hi & info & H & Hti & Hsu)].
    + left. congruence.
    + right. split; [reflexivity|]. split; [congruence|].
      exists info. split; [congruence|]. split; congruence.
  - intros H. apply bulletItem_slides in H. left. congruence.
  - intros H. apply bulletItem_slides in H. left. congruence.
  - intros H. apply mediaLine_slides in H. left. congruence.
  - intros H. apply tableLine_slides in H. left. congruence.
  - intros [= <-]. left. exact Hs.
  - intros [= <-]. left. rewrite otherLine_slides. exact Hs.
Qed.

(** X19: only a heading creates a slide.  A line that the pass
    processes leaves the slides created so far as they are; it adds a
    slide, exactly one, only when it is taken as a heading while a slide
    is open, and that slide carries the title and the subtitle the open
    slide has at that point.  So over any run of lines the slides
    created before are a prefix of those created after, with at most one
    more slide per line. *)
Theorem only_headings_create_slides (e : Env) (s : State) (n : Z) :
  (forall rawLine s',
     processLine e s n rawLine = Some s' ->
     slides s' = slides s \/
     (branchTaken s n rawLine = Some Heading /\ inBlock s = true /\
      exists info, slides s' = slides s ++ [info] /\
        Model.titleText info = slideTitle s /\
        Model.subtitleText info = slideSubtitle s)) /\
  (forall lines s',
     processLines e s n lines = Some s' ->
     exists more, slides s' = slides s ++ more /\ (length more <= length lines)%nat).
Proof.
  split; [intros rawLine s' H; exact (processLine_slides e s n rawLine s' H)|].
  intros lines. revert s n. induction lines as [|l rest IH]; intros s n s' H.
  - injection H as <-. exists []. rewrite app_nil_r. split; [reflexivity|cbn; lia].
  - cbn [processLines] in H.
    destruct (processLine e s n l) as [s1|] eqn:E1; [|discriminate].
    destruct (IH _ _ _ H) as (more & Hm & Hl).
    destruct (processLine_slides _ _ _ _ _ E1) as [H1|(_ & _ & info & H1 & _)].
    + exists more. split; [congruence|cbn; lia].
    + exists (info :: more). split.
      * rewrite Hm, H1, <- app_assoc. reflexivity.
      * cbn. lia.
Qed.

(** *** A heading inside a code block *)

Lemma last_default {A : Type} (l : list A) (d x : A) :
  last l = Some x -> List.last l d = x.
Proof.
  intros H. apply last_Some in H as [l' ->]. apply last_last.
Qed.

Lemma appendToLast_codeWith (line : string) (code : list (list string)) :
  appendToLast line (if (length code =? 0)%nat then code ++ [[]] else code)
  = Some (codeWith line code).
Proof.
  destruct code as [|c cs]; [reflexivity|].
  cbn [length Nat.eqb]. unfold appendToLast, codeWith.
  destruct (last (c :: cs)) as [inner|] eqn:El.
  - rewrite (last_default _ [] inner El). reflexivity.
  - apply last_None in El. discriminate.
Qed.

Lemma hash_line (line : string) :
  startswith "#" line = true -> exists rest, line = String "#" rest.
Proof.
  destruct line as [|a rest]; [discriminate|]. intros H.
  apply startswith_first_char in H. subst a. exists rest. reflexivity.
Qed.

(** Inside code, the bookkeeping adds a line that starts with [#] to
    the open code block and leaves the line and the code flag alone. *)
Lemma preamble_hash_in_code (rest : string) (s : State) :
  inCode s = true ->
  exists s1,
    preamble (String "#" rest) s = Some (s1, String "#" rest) /\
    code s1 = codeWith (String "#" rest) (code s) /\ inCode s1 = true.
Proof.
  intros Hin. unfold preamble.
  change (htmlCodeOpen (String "#" rest) s) with s.
  change (htmlCodeClose (String "#" rest) s) with s.
  change (fence (String "#" rest) s) with (Some s).
  cbv iota. unfold codeLine. rewrite Hin. cbn [orb].
  assert (Ha : appendToLast (String "#" rest)
                 (code (if (length (code s) =? 0)%nat
                        then set_code (code s ++ [[]]) s else s))
               = Some (codeWith (String "#" rest) (code s))).
  { rewrite <- appendToLast_codeWith. destruct (length (code s) =? 0)%nat; reflexivity. }
  rewrite Ha.
  match goal with
  | |- context [horizontalRule ?l (indentedCode ?l (blankEndsCode ?l ?x))] =>
      set (s2 := x)
  end.
  assert (H2 : code s2 = codeWith (String "#" rest) (code s) /\ inCode s2 = true).
  { unfold s2. destruct (length (code s) =? 0)%nat;
      match goal with
      | |- context [if ?b then _ else _] => destruct b
      end; cbn; rewrite ?Hin; split; reflexivity. }
  change (blankEndsCode (String "#" rest) s2) with s2.
  change (indentedCode (String "#" rest) s2) with (set_inTitle false s2).
  change (horizontalRule (String "#" rest) (set_inTitle false s2))
    with (set_inTitle false s2, String "#" rest).
  eexists. split; [reflexivity|]. cbn. exact H2.
Qed.

Lemma branchOf_hash_in_code (n : Z) (rest : string) (s : State) :
  inCode s = true -> branchOf n (String "#" rest) s = Other.
Proof.
  intros Hin. unfold branchOf. rewrite Hin. cbn [negb]. rewrite andb_false_r.
  reflexivity.
Qed.

Lemma otherLine_in_code (line : string) (s : State) :
  inCode s = true ->
  code (otherLine line s) = code s /\ inCode (otherLine line s) = true /\
  openSlideOf (otherLine line s) = openSlideOf s.
Proof.
  intros Hin. unfold otherLine.
  match goal with
  | |- context [if inCode ?x then _ else _] =>
      assert (Hx : inCode x = true) by (split_ifs; exact Hin); rewrite Hx
  end.
  split_ifs; cbn; rewrite ?Hin; repeat split.
Qed.

(** X20: inside a code block a line that starts with [#] is code, not
    a heading.  While [inCode] holds, such a line is added to the code
    block being filled and takes the last branch of the chain: no slide
    is created, the title and the subtitle of the open slide, its
    cards and its bullets stay as they are, and the pass is still in
    code. *)
Theorem heading_inside_code_is_code (e : Env) (s : State) (n : Z) (rawLine : string) :
  inCode s = true -> startswith "#" (normalise s rawLine) = true ->
  exists s',
    processLine e s n rawLine = Some s' /\
    branchTaken s n rawLine = Some Other /\
    code s' = codeWith (normalise s rawLine) (code s) /\
    inCode s' = true /\
    slides s' = slides s /\ slideTitle s' = slideTitle s /\
    slideSubtitle s' = slideSubtitle s /\
    cards s' = cards s /\ bullets s' = bullets s /\ store s' = store s.
Proof.
  intros Hin Hhash. unfold processLine, branchTaken.
  destruct (hash_line _ Hhash) as [rest Hline]. rewrite Hline.
  change (String.eqb (String "#" rest) "<ignoreme>") with false. cbv iota.
  destruct (preamble_hash_in_code rest s Hin) as (s1 & Hp & Hcode & Hin1).
  rewrite Hp.
  pose proof (preamble_core _ _ _ _ Hp) as Hc.
  pose proof (preamble_open _ _ _ _ Hp) as Ho.
  unfold dispatch. rewrite (branchOf_hash_in_code n rest s1 Hin1).
  eexists. split; [reflexivity|]. split; [reflexivity|].
  destruct (otherLine_in_code (String "#" rest) s1 Hin1) as (Hc2 & Hi2 & Ho2).
  pose proof (otherLine_core (String "#" rest) s1) as Hcore2.
  rewrite Hc in Hcore2. apply core_fields in Hcore2 as (Hst & Hb & _ & _ & Hcs & _).
  rewrite Ho in Ho2. unfold openSlideOf in Ho2. injection Ho2 as Hsl Hti Hsu _.
  rewrite Hc2, Hcode. repeat split; assumption.
Qed.

(** *** Bullets outside a card *)

(** X23: outside a card a bullet or numbered item goes to the slide.
    In every state of the pass, such a line met while no card is open
    is appended to the slide's own bullet list, with the level
    [int(markerColumn / indentSpaces)], the text after the marker
    stripped on the left, and its type; the cards of the slide and the
    bullet list of each of them stay as they are. *)
Theorem slide_bullets_stay_on_the_slide (e : Env) (indent : Z) (s : State) (n : Z)
    (rawLine kind : string) (k : nat) (g : string) :
  reachable e indent s n ->
  itemOf s n rawLine = Some (kind, k, g) ->
  inCard s = false -> indentSpaces s <> 0%Z ->
  exists s',
    processLine e s n rawLine = Some s' /\
    bullets s' = bullets s /\
    deref s' (bullets s')
    = deref s (bullets s)
      ++ [Model.mkBullet (Z.quot (Z.of_nat k) (indentSpaces s)) (lstrip g) kind] /\
    cards s' = cards s /\
    Forall (fun c => deref s' (cardBulletsRef c) = deref s (cardBulletsRef c)) (cards s).
Proof.
  intros R Hitem Hi Hn. pose proof (reachable_wellFormed e indent s n R) as W.
  unfold itemOf in Hitem. unfold processLine.
  destruct (String.eqb (normalise s rawLine) "<ignoreme>"); [discriminate|].
  destruct (preamble (normalise s rawLine) s) as [[s1 line1]|] eqn:Ep; [|discriminate].
  pose proof (preamble_core _ _ _ _ Ep) as Hc.
  pose proof (wellFormed_core s1 s Hc W) as W1.
  apply core_fields in Hc as (Hs & Hb & Hcb & Hi1 & Hcs & Hind).
  assert (Hd : dispatch e n line1 s1 = bulletItem kind k g s1).
  { unfold dispatch. destruct (branchOf n line1 s1); try discriminate;
      injection Hitem as <- <- <-; reflexivity. }
  rewrite Hd.
  destruct (bulletItem kind k g s1) as [s'|] eqn:Eb.
  2:{ exfalso. unfold bulletItem, calculateIndentationLevel in Eb.
      destruct (Z.eqb_spec (indentSpaces s1) 0) as [E0|_]; [congruence|].
      rewrite Hi1, Hi in Eb. discriminate. }
  destruct (bulletItem_on_slide kind k g s1 s' W1 ltac:(congruence) Eb)
    as (level & Hlevel & Hst & Hb' & _ & Hcards & _).
  unfold calculateIndentationLevel in Hlevel.
  destruct (Z.eqb_spec (indentSpaces s1) 0) as [E0|_]; [congruence|].
  injection Hlevel as <-.
  exists s'. split; [reflexivity|]. split; [congruence|].
  destruct W1 as (Wb & _ & _ & Wc).
  split; [|split; [congruence|]].
  - unfold deref at 1. rewrite Hst, Hb'.
    fold (deref (appendAt (bullets s1)
                   (Model.mkBullet (Z.quot (Z.of_nat k) (indentSpaces s1)) (lstrip g) kind)
                   s1) (bullets s1)).
    rewrite deref_appendAt_same by exact Wb.
    unfold deref. rewrite Hs, Hb, Hind. reflexivity.
  - rewrite <- Hcs. eapply Forall_impl; [exact Wc|].
    intros c [_ Hne]. unfold deref. rewrite Hst.
    rewrite store_appendAt_other by exact Hne. rewrite Hs. reflexivity.
Qed.

(** *** A run of table lines *)

Lemma bar_line (line : string) :
  startswith "|" line = true -> exists rest, line = String "|" rest.
Proof.
  destruct line as [|a rest]; [discriminate|]. intros H.
  apply startswith_first_char in H. subst a. exists rest. reflexivity.
Qed.

Lemma outsideCode_fields (s : State) :
  outsideCode s = true ->
  inCode s = false /\ inHTMLCode s = false /\ inFencedCode s = false.
Proof.
  unfold outsideCode. destruct (inCode s), (inHTMLCode s), (inFencedCode s);
    try discriminate. repeat split.
Qed.

(** Outside code, a line that starts with a bar goes to the table
    branch as it is. *)
Lemma processLine_bar (e : Env) (s : State) (n : Z) (rawLine rest : string) :
  outsideCode s = true -> normalise s rawLine = String "|" rest ->
  processLine e s n rawLine = tableLine n (String "|" rest) s.
Proof.
  intros Ho Hl. apply outsideCode_fields in Ho as (H1 & H2 & H3).
  unfold processLine. rewrite Hl.
  change (String.eqb (String "|" rest) "<ignoreme>") with false. cbv iota.
  unfold preamble.
  change (htmlCodeOpen (String "|" rest) s) with s.
  change (htmlCodeClose (String "|" rest) s) with s.
  change (fence (String "|" rest) s) with (Some s). cbv iota.
  unfold codeLine. rewrite H1, H2, H3. cbn [orb]. cbv iota.
  change (blankEndsCode (String "|" rest) s) with s.
  change (indentedCode (String "|" rest) s) with s.
  change (horizontalRule (String "|" rest) s) with (s, String "|" rest).
  cbv iota beta. reflexivity.
Qed.

Lemma appendToLast_snoc {A : Type} (x : A) (l : list (list A)) (r : list A) :
  appendToLast x (l ++ [r]) = Some (l ++ [r ++ [x]]).
Proof. unfold appendToLast. rewrite last_snoc, removelast_last. reflexivity. Qed.

Lemma tableLine_opens (n : Z) (line : string) (s : State) :
  inTable s = false ->
  exists s',
    tableLine n line s = Some s' /\
    tableRows s' = tableRows s ++ [[tableCells line]] /\
    sequence s' = sequence s ++ ["table"] /\
    inTable s' = true /\ outsideCode s' = outsideCode s /\
    indentSpaces s' = indentSpaces s /\ slides s' = slides s.
Proof.
  intros Hin. unfold tableLine.
  change (inTable (set_tableCaption (Some "") (set_lastTableLine n s))) with (inTable s).
  rewrite Hin.
  match goal with
  | |- context [appendToLast ?x (tableRows ?y)] =>
      change (tableRows y) with (tableRows s ++ [[]])
  end.
  rewrite appendToLast_snoc. eexists. split; [reflexivity|]. repeat split.
Qed.

Lemma tableLine_extends (n : Z) (line : string) (s : State) tables rows :
  inTable s = true -> tableRows s = tables ++ [rows] ->
  exists s',
    tableLine n line s = Some s' /\
    tableRows s' = tables ++ [rows ++ [tableCells line]] /\
    sequence s' = sequence s /\
    inTable s' = true /\ outsideCode s' = outsideCode s /\
    indentSpaces s' = indentSpaces s /\ slides s' = slides s.
Proof.
  intros Hin Hrows. unfold tableLine.
  change (inTable (set_tableCaption (Some "") (set_lastTableLine n s))) with (inTable s).
  rewrite Hin.
  match goal with
  | |- context [appendToLast ?x (tableRows ?y)] =>
      change (tableRows y) with (tableRows s)
  end.
  rewrite Hrows, appendToLast_snoc. eexists. split; [reflexivity|].
  cbn. rewrite Hin. repeat split.
Qed.

Lemma normalise_indent (s s' : State) (rawLine : string) :
  indentSpaces s' = indentSpaces s -> normalise s' rawLine = normalise s rawLine.
Proof. intros H. unfold normalise. rewrite H. reflexivity. Qed.

Lemma table_run (e : Env) (rawLines : list string) :
  forall (s : State) (n : Z) tables rows,
    outsideCode s = true -> inTable s = true -> tableRows s = tables ++ [rows] ->
    Forall (fun raw => startswith "|" (normalise s raw) = true) rawLines ->
    exists s',
      processLines e s n rawLines = Some s' /\
      tableRows s'
      = tables ++ [rows ++ map (fun raw => tableCells (normalise s raw)) rawLines] /\
      sequence s' = sequence s /\ slides s' = slides s.
Proof.
  induction rawLines as [|raw raws IH]; intros s n tables rows Ho Hin Hrows Hall.
  - exists s. cbn. rewrite app_nil_r. repeat split; try reflexivity. exact Hrows.
  - apply Forall_cons in Hall as [Hraw Hall].
    destruct (bar_line _ Hraw) as [rest Hline].
    cbn [processLines]. rewrite (processLine_bar e s n raw rest Ho Hline).
    destruct (tableLine_extends n (String "|" rest) s tables rows Hin Hrows)
      as (s1 & H1 & Hr1 & Hq1 & Hi1 & Ho1 & Hd1 & Hs1).
    rewrite H1.
    destruct (IH s1 (n + 1)%Z tables (rows ++ [tableCells (String "|" rest)]))
      as (s' & H' & Hr' & Hq' & Hs'); [congruence|exact Hi1|exact Hr1| |].
    { eapply Forall_impl; [exact Hall|]. intros x Hx. cbn.
      rewrite (normalise_indent s s1 x Hd1). exact Hx. }
    exists s'. split; [exact H'|]. split; [|split; congruence].
    rewrite Hr'. cbn [map]. rewrite Hline, <- app_assoc. cbn [app].
    do 4 f_equal. apply map_ext. intros x. rewrite (normalise_indent s s1 x Hd1).
    reflexivity.
Qed.

(** X21: a run of table lines makes one table.  Outside code and
    outside a table, a non-empty run of consecutive lines that start
    with a bar adds exactly one table to the slide, with one row per
    line in order (each row the cells of its line), and exactly one
    ["table"] entry to [sequence]; no slide is created. *)
Theorem table_lines_make_one_table (e : Env) (s : State) (n : Z) (rawLines : list string) :
  outsideCode s = true -> inTable s = false -> rawLines <> [] ->
  Forall (fun raw => startswith "|" (normalise s raw) = true) rawLines ->
  exists s',
    processLines e s n rawLines = Some s' /\
    tableRows s'
    = tableRows s ++ [map (fun raw => tableCells (normalise s raw)) rawLines] /\
    sequence s' = sequence s ++ ["table"] /\ slides s' = slides s.
Proof.
  intros Ho Hin Hne Hall. destruct rawLines as [|raw raws]; [contradiction|].
  apply Forall_cons in Hall as [Hraw Hall].
  destruct (bar_line _ Hraw) as [rest Hline].
  cbn [processLines]. rewrite (processLine_bar e s n raw rest Ho Hline).
  destruct (tableLine_opens n (String "|" rest) s Hin)
    as (s1 & H1 & Hr1 & Hq1 & Hi1 & Ho1 & Hd1 & Hs1).
  rewrite H1.
  destruct (table_run e raws s1 (n + 1)%Z (tableRows s) [tableCells (String "|" rest)])
    as (s' & H' & Hr' & Hq' & Hs'); [congruence|exact Hi1|exact Hr1| |].
  { eapply Forall_impl; [exact Hall|]. intros x Hx. cbn.
    rewrite (normalise_indent s s1 x Hd1). exact Hx. }
  exists s'. split; [exact H'|]. split; [|split; congruence].
  rewrite Hr'. cbn [map app]. rewrite Hline. do 3 f_equal.
  apply map_ext. intros x. rewrite (normalise_indent s s1 x Hd1). reflexivity.
Qed.

End PassMore.

Lemma only_headings_create_slides_witness :
  exists s s',
    Compiler.processLines Compiler.exampleEnv (Compiler.initial 2) 0
      ["### A"; "* x"]%string = Some s /\
    Compiler.processLine Compiler.exampleEnv s 2 "### B"%string = Some s' /\
    (Compiler.slides s' = Compiler.slides s \/
     (Pass.branchTaken s 2 "### B"%string = Some Compiler.Heading /\
      Compiler.inBlock s = true /\
      exists info, Compiler.slides s' = (Compiler.slides s ++ [info])%list /\
        Model.titleText info = Compiler.slideTitle s /\
        Model.subtitleText info = Compiler.slideSubtitle s)).
Proof.
  eexists. eexists. split; [vm_compute; reflexivity|]. split; [vm_compute; reflexivity|].
  apply (proj1 (only_headings_create_slides Compiler.exampleEnv _ 2)).
  vm_compute. reflexivity.
Defined.

Lemma heading_inside_code_is_code_witness :
  exists s s',
    Compiler.processLines Compiler.exampleEnv (Compiler.initial 2) 0
      ["### A"; "```"]%string = Some s /\
    Compiler.processLine Compiler.exampleEnv s 2 "# a comment"%string = Some s' /\
    Compiler.code s' = [["```"; "# a comment"]]%string /\
    Compiler.slides s' = Compiler.slides s.
Proof.
  eexists.
  destruct (heading_inside_code_is_code Compiler.exampleEnv
              (Compiler.set_inTitle false (Compiler.set_sequence ["code"]
                (Compiler.set_code [["```"]]
                  (Compiler.set_inFencedCode true (Compiler.set_blockType "code"
                    (Compiler.set_inCode true (Compiler.set_store [[]; []]
                      (Compiler.set_bullets 1 (Compiler.set_thisLevel (Some 3%nat)
                        (Compiler.set_blockType "content" (Compiler.set_inBlock true
                          (Compiler.set_slideTitle "A" (Compiler.initial 2)))))))))))))%string
              2 "# a comment"%string eq_refl eq_refl)
    as (s' & Hs' & _ & Hcode & _ & Hslides & _).
  exists s'. split; [vm_compute; reflexivity|]. split; [exact Hs'|].
  split; [exact Hcode|exact Hslides].
Defined.

Lemma slide_bullets_stay_on_the_slide_witness :
  exists s s',
    Compiler.processLines Compiler.exampleEnv (Compiler.initial 2) 0
      ["### T"; "* one"]%string = Some s /\
    Compiler.processLine Compiler.exampleEnv s 2 "  1. two"%string = Some s' /\
    Compiler.deref s' (Compiler.bullets s')
    = [Model.mkBullet 0 "one" "bulleted"; Model.mkBullet 1 "two" "numbered"]%string.
Proof.
  destruct (Compiler.processLines Compiler.exampleEnv (Compiler.initial 2) 0
              ["### T"; "* one"]%string) as [s|] eqn:Es;
    [|vm_compute in Es; discriminate].
  assert (R : Compiler.reachable Compiler.exampleEnv 2 s 2).
  { change 2%Z with (0 + Z.of_nat (length ["### T"; "* one"]%string))%Z at 2.
    eapply processLines_reachable; [constructor|exact Es]. }
  vm_compute in Es. injection Es as <-.
  destruct (slide_bullets_stay_on_the_slide _ _ _ _ "  1. two"%string "numbered"%string
              2%nat " two"%string R)
    as (s' & Hs' & _ & Hd & _); [reflexivity|reflexivity|discriminate|].
  eexists. exists s'. split; [reflexivity|]. split; [exact Hs'|].
  rewrite Hd. reflexivity.
Defined.



Lemma table_lines_make_one_table_witness :
  exists s s',
    Compiler.processLines Compiler.exampleEnv (Compiler.initial 2) 0
      ["### T"]%string = Some s /\
    Compiler.processLines Compiler.exampleEnv s 1 ["|a|b|"; "|-|-|"; "|1|2|"]%string
      = Some s' /\
    Compiler.tableRows s' = [[["a"; "b"]; ["-"; "-"]; ["1"; "2"]]]%string /\
    Compiler.sequence s' = ["table"]%string.
Proof.
  eexists.
  destruct (table_lines_make_one_table Compiler.exampleEnv
              (Compiler.set_store [[]; []]
                 (Compiler.set_bullets 1 (Compiler.set_thisLevel (Some 3%nat)
                    (Compiler.set_blockType "content" (Compiler.set_inBlock true
                       (Compiler.set_slideTitle "T" (Compiler.initial 2)))))))%string
              1 ["|a|b|"; "|-|-|"; "|1|2|"]%string)
    as (s' & Hs' & Hrows & Hseq & _).
  - reflexivity.
  - reflexivity.
  - discriminate.
  - repeat constructor.
  - exists s'. split; [vm_compute; reflexivity|]. split; [exact Hs'|].
    split; [exact Hrows|exact Hseq].
Defined.
(** ** The cards of a list block *)

Section CardsMore.
Import Cards.
Local Open Scope Z_scope.

Lemma cardFrames_lookup {B : Type} (o : Options) rect (bullets : list B)
    (cards : list Model.Card) (i : nat) (f : CardFrame) :
  cardFrames o rect bullets cards !! i = Some f ->
  (i < length cards)%nat /\
  frameWidth f = cardWidth o rect (length cards) /\
  frameHeight f = cardHeight o (snd (cardArea o rect bullets cards)) (length cards) /\
  cardTop f = (if horizontal o then fst (cardArea o rect bullets cards)
               else (frameHeight f + paddingFactor o) * Z.of_nat i
                    + fst (cardArea o rect bullets cards)) /\
  cardLeft f = (if horizontal o
                then marginBase o + Z.of_nat i * (frameWidth f + horizontalCardGap o)
                else marginBase o) /\
  backgroundTop f + backgroundHeight f = cardTop f + frameHeight f.
Proof.
  unfold cardFrames, cardArea.
  destruct (ListBlock.listBlockHeights bullets cards (Split.height rect) (cardPercent o))
    as [[bulletsHeight cardAreaHeight] cardCount] eqn:E.
  assert (Hn : cardCount = length cards \/ cards = []).
  { unfold ListBlock.listBlockHeights in E. destruct cards as [|c cs]; [right; reflexivity|].
    left. destruct (0 <? length bullets)%nat; injection E as _ _ <-; reflexivity. }
  rewrite list_lookup_imap. destruct (cards !! i) as [card|] eqn:Ec; [|discriminate].
  destruct Hn as [-> | ->]; [|discriminate].
  cbn. intros [= <-]. cbn.
  split; [apply lookup_lt_Some in Ec; exact Ec|].
  repeat split; destruct (titleAbove o); lia.
Qed.

(** X24: horizontal cards stand side by side within the width.  In
    the horizontal layout, with a non-negative gap that leaves room
    for the cards, the cards are equally wide, card [i] starts at
    [marginBase + i * (cardWidth + gap)], each card lies between
    [marginBase] and [marginBase + renderingRectangle.width], the next
    card starts exactly one gap after the card ends, and every card
    takes the whole card area vertically. *)
Theorem horizontal_cards_fit {B : Type} (o : Options) rect (bullets : list B)
    (cards : list Model.Card) (i : nat) (f : CardFrame) :
  horizontal o = true -> 0 <= horizontalCardGap o ->
  horizontalCardGap o * (Z.of_nat (length cards) - 1) <= Split.width rect ->
  cardFrames o rect bullets cards !! i = Some f ->
  0 <= frameWidth f /\
  marginBase o <= cardLeft f /\
  cardLeft f + frameWidth f <= marginBase o + Split.width rect /\
  (forall f', cardFrames o rect bullets cards !! S i = Some f' ->
     cardLeft f' = cardLeft f + frameWidth f + horizontalCardGap o /\
     frameWidth f' = frameWidth f) /\
  cardTop f = fst (cardArea o rect bullets cards) /\
  frameHeight f = snd (cardArea o rect bullets cards).
Proof.
  intros Hh Hg Hroom Hf.
  destruct (cardFrames_lookup o rect bullets cards i f Hf)
    as (Hi & Hw & Hhe & Ht & Hl & _).
  rewrite Hh in Ht, Hl. unfold cardWidth in Hw. rewrite Hh in Hw.
  unfold cardHeight in Hhe. rewrite Hh in Hhe.
  set (n := Z.of_nat (length cards)) in *.
  set (G := horizontalCardGap o) in *.
  assert (Hn : 0 < n) by (unfold n; lia).
  assert (Hq : 0 <= frameWidth f /\ n * frameWidth f <= Split.width rect - G * (n - 1)).
  { rewrite Hw. rewrite Z.quot_div_nonneg by lia. split.
    - apply Z.div_pos; lia.
    - apply Z.mul_div_le. exact Hn. }
  destruct Hq as [Hw0 Hwn].
  assert (Hin : Z.of_nat i <= n - 1) by (unfold n; lia).
  split; [exact Hw0|]. split; [rewrite Hl; nia|]. split.
  - rewrite Hl.
    assert (Z.of_nat i * (frameWidth f + G) <= (n - 1) * (frameWidth f + G)) by nia.
    nia.
  - split; [|split; [exact Ht|exact Hhe]].
    intros f' Hf'.
    destruct (cardFrames_lookup o rect bullets cards (S i) f' Hf')
      as (_ & Hw' & _ & _ & Hl' & _).
    rewrite Hh in Hl'. unfold cardWidth in Hw'. rewrite Hh in Hw'. fold n in Hw'.
    fold G in Hw', Hl'.
    assert (Hww : frameWidth f' = frameWidth f) by congruence.
    split; [|exact Hww]. rewrite Hl', Hl, Hww. lia.
Qed.

Lemma Qtrunc_nonneg_le (q : Q) : (0 <= q)%Q ->
  0 <= ListBlock.Qtrunc q /\ (inject_Z (ListBlock.Qtrunc q) <= q)%Q.
Proof.
  intros Hq. unfold ListBlock.Qtrunc.
  apply Qle_bool_iff in Hq as Hb. rewrite Hb. split.
  - rewrite <- (Qfloor_Z 0). apply Qfloor_resp_le. exact Hq.
  - apply Qfloor_le.
Qed.

(** X25: vertical cards are stacked within the card area.  In the
    vertical layout, with a non-negative padding that the card area
    has room for, the cards have the height
    [int(cardAreaHeight / cardCount - paddingFactor)], which is not
    negative; card [i] starts at
    [cardAreaTop + i * (cardHeight + paddingFactor)], the next card
    starts one padding after the card ends, every card lies inside the
    card area, and each is as wide as the rendering rectangle. *)
Theorem vertical_cards_fit {B : Type} (o : Options) rect (bullets : list B)
    (cards : list Model.Card) (i : nat) (f : CardFrame) :
  horizontal o = false -> 0 <= paddingFactor o ->
  paddingFactor o * Z.of_nat (length cards) <= snd (cardArea o rect bullets cards) ->
  cardFrames o rect bullets cards !! i = Some f ->
  0 <= frameHeight f /\
  fst (cardArea o rect bullets cards) <= cardTop f /\
  cardTop f + frameHeight f
  <= fst (cardArea o rect bullets cards) + snd (cardArea o rect bullets cards) /\
  (forall f', cardFrames o rect bullets cards !! S i = Some f' ->
     cardTop f' = cardTop f + frameHeight f + paddingFactor o) /\
  cardLeft f = marginBase o /\ frameWidth f = Split.width rect.
Proof.
  intros Hh Hp Hroom Hf.
  destruct (cardFrames_lookup o rect bullets cards i f Hf)
    as (Hi & Hw & Hhe & Ht & Hl & _).
  rewrite Hh in Ht, Hl. unfold cardWidth in Hw. rewrite Hh in Hw.
  unfold cardHeight in Hhe. rewrite Hh in Hhe.
  set (n := Z.of_nat (length cards)) in *.
  set (A := snd (cardArea o rect bullets cards)) in *.
  set (T := fst (cardArea o rect bullets cards)) in *.
  set (p := paddingFactor o) in *.
  assert (Hn : 0 < n) by (unfold n; lia).
  assert (Hq : (0 <= inject_Z A / inject_Z n - inject_Z p)%Q).
  { unfold Qminus. rewrite <- (Qplus_opp_r (inject_Z p)).
    apply Qplus_le_l. apply Qle_shift_div_l.
    - change 0%Q with (inject_Z 0). rewrite <- Zlt_Qlt. exact Hn.
    - rewrite <- inject_Z_mult, <- Zle_Qle. exact Hroom. }
  destruct (Qtrunc_nonneg_le _ Hq) as [H0 Hle]. rewrite <- Hhe in H0, Hle.
  assert (Hfit : (frameHeight f + p) * n <= A).
  { rewrite Zle_Qle, inject_Z_mult, inject_Z_plus.
    apply Qle_trans with (inject_Z A / inject_Z n * inject_Z n)%Q.
    - apply Qmult_le_compat_r.
      + apply Qle_trans with (inject_Z A / inject_Z n - inject_Z p + inject_Z p)%Q.
        * apply Qplus_le_l. exact Hle.
        * apply Qle_lteq. right. ring.
      + change 0%Q with (inject_Z 0). rewrite <- Zle_Qle. lia.
    - apply Qle_lteq. right. field.
      intros E. change 0%Q with (inject_Z 0) in E. apply (proj1 (inject_Z_injective _ _)) in E. lia. }
  assert (Hin : Z.of_nat i <= n - 1) by (unfold n; lia).
  split; [exact H0|]. split; [rewrite Ht; nia|]. split.
  - rewrite Ht.
    assert ((frameHeight f + p) * Z.of_nat i <= (frameHeight f + p) * (n - 1)) by nia.
    nia.
  - split; [|split; [exact Hl|exact Hw]].
    intros f' Hf'.
    destruct (cardFrames_lookup o rect bullets cards (S i) f' Hf')
      as (_ & _ & Hhe' & Ht' & _ & _).
    rewrite Hh in Ht'. unfold cardHeight in Hhe'. rewrite Hh in Hhe'.
    assert (Hhh : frameHeight f' = frameHeight f) by (rewrite Hhe'; symmetry; exact Hhe).
    rewrite Ht', Ht, Hhh. fold T p. lia.
Qed.

End CardsMore.


Lemma horizontal_cards_fit_witness :
  exists f,
    Cards.cardFrames (Cards.mkOptions "horizontal" "above" 100 50 40 20 30 (80 # 1))
      (Split.mkRectangle 0 20 600 1000) [tt]
      [Model.mkCard "A" [] ""; Model.mkCard "B" [] ""; Model.mkCard "C" [] ""]%string
      !! 1%nat = Some f /\
    (20 <= Cards.cardLeft f /\ Cards.cardLeft f + Cards.frameWidth f <= 20 + 1000)%Z.
Proof.
  eexists. split; [reflexivity|].
  assert (H := horizontal_cards_fit
                 (Cards.mkOptions "horizontal" "above" 100 50 40 20 30 (80 # 1))
                 (Split.mkRectangle 0 20 600 1000) [tt]
                 [Model.mkCard "A" [] ""; Model.mkCard "B" [] "";
                  Model.mkCard "C" [] ""]%string 1 _ eq_refl
                 ltac:(cbn; lia) ltac:(cbn; lia) eq_refl).
  destruct H as (_ & H1 & H2 & _). split; [exact H1|exact H2].
Defined.

Lemma vertical_cards_fit_witness :
  exists f,
    Cards.cardFrames (Cards.mkOptions "vertical" "above" 100 50 40 20 30 (80 # 1))
      (Split.mkRectangle 0 20 600 1000) [tt]
      [Model.mkCard "A" [] ""; Model.mkCard "B" [] ""; Model.mkCard "C" [] ""]%string
      !! 2%nat = Some f /\
    (0 <= Cards.frameHeight f /\ 120 <= Cards.cardTop f /\
     Cards.cardTop f + Cards.frameHeight f <= 120 + 480)%Z.
Proof.
  eexists. split; [reflexivity|].
  assert (H := vertical_cards_fit
                 (Cards.mkOptions "vertical" "above" 100 50 40 20 30 (80 # 1))
                 (Split.mkRectangle 0 20 600 1000) [tt]
                 [Model.mkCard "A" [] ""; Model.mkCard "B" [] "";
                  Model.mkCard "C" [] ""]%string 2 _ eq_refl
                 ltac:(cbn; lia) ltac:(vm_compute; discriminate) eq_refl).
  destruct H as (H0 & H1 & H2 & _). split; [exact H0|]. split; [exact H1|exact H2].
Defined.
(** ** The lines of a code block *)

Section CodeBlockMore.
Import Text CodeBlock.
Local Open Scope string_scope.
Local Open Scope list_scope.

Variable selectsRenderer : string -> bool.
Variable resolveSymbols : string -> string.


Lemma dropTrailingEmpty_blank (l : list string) :
  Forall (fun line => line = "") l -> dropTrailingEmpty l = [].
Proof.
  induction 1 as [|x l Hx _ IH]; [reflexivity|].
  cbn [dropTrailingEmpty]. rewrite IH, Hx. reflexivity.
Qed.

Lemma startswithOneOf_nonempty (line : string) (needles : list string) :
  Forall (fun needle => needle <> "") needles ->
  startswithOneOf line needles = true -> line <> "".
Proof.
  intros Hn H ->. unfold startswithOneOf in H. apply existsb_exists in H as (x & Hin & Hx).
  rewrite List.Forall_forall in Hn. specialize (Hn x Hin).
  destruct x; [contradiction|discriminate].
Qed.

Lemma codeTypeOf_opening (first : string) :
  startswithOneOf first ["<pre>"; "<code>"; "```"] = true ->
  (String.eqb first "```" = true \/ selectsRenderer first = false) ->
  exists codeType, codeTypeOf selectsRenderer first = Some codeType.
Proof.
  intros Ho Hs. unfold codeTypeOf.
  destruct (startswith "<pre" first); [eexists; reflexivity|].
  destruct (startswith "<code" first); [eexists; reflexivity|].
  destruct (startswith "```" first); [|eexists; reflexivity].
  destruct Hs as [-> | ->]; [eexists; reflexivity|].
  destruct (String.eqb first "```"); eexists; reflexivity.
Qed.






(** X27: a code block with nothing after its opening line raises.
    When the block holds a [<pre>], [<code>] or fence line followed by
    nothing but empty lines (an HTML block closed at once, a fence left
    open at the end of the slide), removing the opening line leaves no
    line for [codeLines\[-1\]]: an [IndexError], here [None]. *)
Theorem empty_code_block_raises (slideCode : list (list string))
    (codeBlockNumber : nat) (opening : string) (blank : list string) :
  slideCode !! codeBlockNumber = Some (opening :: blank) ->
  startswithOneOf opening ["<pre>"; "<code>"; "```"] = true ->
  (String.eqb opening "```" = true \/ selectsRenderer opening = false) ->
  Forall (fun line => line = "") blank ->
  createCodeBlock selectsRenderer resolveSymbols slideCode codeBlockNumber = None.
Proof.
  intros Hn Ho Hs Hb. unfold createCodeBlock. rewrite Hn.
  destruct (codeTypeOf_opening opening Ho Hs) as [codeType Ht]. rewrite Ht.
  unfold shownLines. cbn [dropTrailingEmpty].
  rewrite (dropTrailingEmpty_blank blank Hb).
  assert (Hne : opening <> "").
  { apply (startswithOneOf_nonempty opening ["<pre>"; "<code>"; "```"]);
      [repeat constructor; discriminate|exact Ho]. }
  destruct (String.eqb_spec opening ""); [contradiction|].
  rewrite Ho. reflexivity.
Qed.

End CodeBlockMore.


(** The pass hands over such a block for [<pre>] closed at once. *)
Example empty_pre_block_is_compiled :
  option_map (map Model.code)
    (Compiler.compile Compiler.exampleEnv 2 ["### T"; "<pre>"; "</pre>"]%string)
  = Some [[["<pre>"]]]%string.
Proof. vm_compute. reflexivity. Qed.

Lemma empty_code_block_raises_witness :
  CodeBlock.createCodeBlock (fun _ => false) (fun line => line) [["<pre>"]]%string 0 = None.
Proof.
  apply (empty_code_block_raises (fun _ => false) (fun line => line)
           [["<pre>"]]%string 0 "<pre>" []).
  - reflexivity.
  - reflexivity.
  - right. reflexivity.
  - constructor.
Defined.

(** ** The lines that pass 2 keeps apart *)

Section ConcatMore.
Import Text Concat.
Local Open Scope string_scope.
Local Open Scope list_scope.

(** X28: a line that starts an item is never joined to the line
    before.  Whatever the state of the pass, a line whose first
    character other than white space is one of [* # \ |], a digit or
    [!] (a bullet, a heading, a table row, a numbered item, an image) is
    copied as it is, as a line of its own; the pass does not raise on
    it. *)
Theorem marked_lines_are_never_joined (st : State) (line : string) (c : ascii)
    (rest : string) :
  lstrip line = String c rest -> keepsApart c = true ->
  exists st',
    step st line = Some st' /\
    linesAfterConcatenation st' = linesAfterConcatenation st ++ [line] /\
    previousLine st' = line.
Proof.
  intros Hl Hc. unfold step.
  repeat match goal with
         | |- context [if ?b then Some _ else _] =>
             destruct b; [eexists; split; [reflexivity|split; reflexivity]|]
         end.
  rewrite Hl, Hc. cbn [negb]. eexists. split; [reflexivity|split; reflexivity].
Qed.

Lemma marked_lines_are_never_joined_witness :
  exists st',
    step (mkState "Some text" ["Some text"] false false) "  * a bullet" = Some st' /\
    linesAfterConcatenation st' = ["Some text"] ++ ["  * a bullet"] /\
    previousLine st' = "  * a bullet".
Proof.
  apply (marked_lines_are_never_joined (mkState "Some text" ["Some text"] false false)
           "  * a bullet" "*" " a bullet"); reflexivity.
Defined.

Lemma step_in_code (st : State) (line : string) :
  inCode st = true -> previousLine st <> "" -> startswith "```" line = false ->
  exists st',
    step st line = Some st' /\
    linesAfterConcatenation st' = linesAfterConcatenation st ++ [line] /\
    previousLine st' = line /\ inCode st' = true.
Proof.
  intros Hin Hp Hf. unfold step. rewrite Hf.
  repeat match goal with
         | |- context [if ?b then Some _ else _] =>
             destruct b;
             [eexists; split; [reflexivity|repeat split; exact Hin]|]
         end.
  destruct (lstrip line) as [|c r];
    [eexists; split; [reflexivity|repeat split; exact Hin]|].
  destruct (negb (keepsApart c));
    [|eexists; split; [reflexivity|repeat split; exact Hin]].
  destruct (previousLine st) as [|p0 p]; [contradiction|].
  rewrite Hin. cbn [negb]. rewrite andb_false_r. cbn [andb].
  eexists. split; [reflexivity|repeat split; exact Hin].
Qed.

(** X29: inside a fenced code block the lines are copied one by one.
    While the pass is in code, a run of non-empty lines none of which
    is a fence passes through unchanged: every line is copied as a
    line of its own, in order, whatever it starts with, and the pass is
    still in code after the run. *)
Theorem fenced_lines_are_copied (body : list string) (st : State) :
  inCode st = true -> previousLine st <> "" ->
  Forall (fun line => line <> "" /\ startswith "```" line = false) body ->
  exists st',
    run st body = Some st' /\
    linesAfterConcatenation st' = linesAfterConcatenation st ++ body /\
    inCode st' = true.
Proof.
  revert st. induction body as [|line body IH]; intros st Hin Hp Hall.
  - exists st. cbn. rewrite app_nil_r. repeat split. exact Hin.
  - apply Forall_cons in Hall as [[Hne Hf] Hall].
    destruct (step_in_code st line Hin Hp Hf) as (st1 & H1 & Hl1 & Hp1 & Hi1).
    cbn [run]. rewrite H1.
    destruct (IH st1 Hi1 ltac:(congruence) Hall) as (st' & H' & Hl' & Hi').
    exists st'. split; [exact H'|]. split; [|exact Hi'].
    rewrite Hl', Hl1, <- app_assoc. reflexivity.
Qed.

End ConcatMore.

Lemma fenced_lines_are_copied_witness :
  exists st',
    Concat.run (Concat.mkState "```" ["```"] false true) ["x = 1"; "  continued"]%string
      = Some st' /\
    Concat.linesAfterConcatenation st' = ["```"; "x = 1"; "  continued"]%string /\
    Concat.inCode st' = true.
Proof.
  apply (fenced_lines_are_copied ["x = 1"; "  continued"]%string
           (Concat.mkState "```" ["```"] false true)).
  - reflexivity.
  - discriminate.
  - repeat constructor; discriminate.
Defined.

(** Outside code the second line is joined to the first. *)
Example continuation_is_joined :
  Concat.concatenate ["Some text" +:+ Concat.blankLine; "  continued" +:+ Concat.blankLine]%string
  = Some ["Some text continued" +:+ Concat.blankLine]%string.
Proof. vm_compute. reflexivity. Qed.

(** ** The blocks of a content slide stay on the slide *)

Section ContentMore.
Import Split Content.
Local Open Scope Z_scope.

(** X30: the blocks of a content slide stay between the margins.
    When the margins and the title leave a content area of
    non-negative width and height, and no weight of [contentSplit] is
    negative, every rendering rectangle lies between [marginBase] and
    [slide_width - marginBase] horizontally, and vertically between the
    top of the content area ([marginBase] below the title, or below
    the top of the slide when there is no title) and
    [max(marginBase, numbersHeight)] above the bottom of the slide. *)
Theorem blocks_stay_on_the_slide (direction : string)
    (slide_width slide_height slideTitleBottom marginBase numbersHeight : Z)
    (contentSplit : list Z) (sequence : list BlockKind) rects (i : nat) r :
  2 * marginBase <= slide_width ->
  slideTitleBottom + marginBase + Z.max marginBase numbersHeight <= slide_height ->
  Forall (fun w => 0 <= w) contentSplit ->
  slideBlocks direction slide_width slide_height slideTitleBottom marginBase
    numbersHeight contentSplit sequence = Some rects ->
  rects !! i = Some r ->
  marginBase <= left r /\ 0 <= width r /\
  left r + width r <= slide_width - marginBase /\
  slideTitleBottom + marginBase <= top r /\ 0 <= height r /\
  top r + height r <= slide_height - Z.max marginBase numbersHeight.
Proof.
  intros Hw Hh Hpos HR Hi. unfold slideBlocks, getContentRect in HR.
  destruct (Z.eqb_spec slideTitleBottom 0) as [E|E].
  - assert (H := placed_inside direction
                   (mkRectangle marginBase marginBase
                      (slide_height - marginBase - Z.max marginBase numbersHeight)
                      (slide_width - 2 * marginBase))
                   contentSplit sequence rects i r).
    cbn [top left height width] in H.
    specialize (H ltac:(lia) ltac:(lia) Hpos HR Hi).
    destruct (String.eqb direction "vertical"); lia.
  - assert (H := placed_inside direction
                   (mkRectangle (slideTitleBottom + marginBase) marginBase
                      (slide_height - (slideTitleBottom + marginBase)
                       - Z.max marginBase numbersHeight)
                      (slide_width - 2 * marginBase))
                   contentSplit sequence rects i r).
    cbn [top left height width] in H.
    specialize (H ltac:(lia) ltac:(lia) Hpos HR Hi).
    destruct (String.eqb direction "vertical"); lia.
Qed.

End ContentMore.

Lemma blocks_stay_on_the_slide_witness :
  exists rects r,
    Content.slideBlocks "horizontal" 1000 750 100 20 40 [1; 2]%Z
      [Split.KList; Split.KTable] = Some rects /\
    rects !! 1%nat = Some r /\
    (20 <= Split.left r /\ 0 <= Split.width r /\
     Split.left r + Split.width r <= 1000 - 20 /\
     100 + 20 <= Split.top r /\ 0 <= Split.height r /\
     Split.top r + Split.height r <= 750 - Z.max 20 40)%Z.
Proof.
  eexists. eexists. split; [reflexivity|]. split; [reflexivity|].
  eapply (blocks_stay_on_the_slide "horizontal" 1000 750 100 20 40 [1; 2]%Z
            [Split.KList; Split.KTable] _ 1%nat _).
  - lia.
  - lia.
  - repeat constructor; lia.
  - reflexivity.
  - reflexivity.
Defined.

